(** * The Anvil (1.13+) chunk interface of Amulet-Core

    A shallow embedding of
    [amulet/world_interface/chunk/interfaces/anvil2/anvil2_interface.py]:
    the NBT tree the interface reads and writes, the numpy arrays it
    manipulates, the [Anvil2Interface] methods ([is_valid], [decode],
    [encode], [_decode_blocks], [_encode_blocks], [_decode_palette],
    [_encode_palette], [_get_translator_info]), the function
    [properties_to_string], the properties of them that the specification
    states and further properties of the code. *)

From Stdlib Require Import ZArith Lia Ascii String Sorted.
From stdpp Require Import base list strings pretty gmap.

Local Open Scope string_scope.
Local Open Scope list_scope.
Local Open Scope nat_scope.
#[local] Set Warnings "-register-all,-clear-no-such-hyp".

(** ** Python exceptions and fallible computations

    The exceptions the interface and its helpers raise.  [OutOfRange] and
    [TruncatedInput] are the two conditions the specification lets the
    bit-packed array codec fail with. *)

Inductive exn : Type :=
| KeyError (key : string)
| NotImplementedError (msg : string)
| ValueError (msg : string)
| IndexError
| TypeError
| AttributeError
| OutOfRange
| TruncatedInput.

Inductive result (A : Type) : Type :=
| Ok (a : A)
| Raise (e : exn).
Arguments Ok {A} a.
Arguments Raise {A} e.

#[global] Instance result_ret : MRet result := @Ok.
#[global] Instance result_bind : MBind result := fun A B f m =>
  match m with
  | Ok a => f a
  | Raise e => Raise e
  end.
#[global] Instance result_fmap : FMap result := fun A B f m =>
  match m with
  | Ok a => Ok (f a)
  | Raise e => Raise e
  end.

Definition is_ok {A} (r : result A) : bool :=
  match r with Ok _ => true | Raise _ => false end.

(** ** The NBT tree (amulet_nbt)

    The tag kinds the interface touches; floating-point tags are left out.
    A compound is a Python dict: an association list in insertion order whose
    lookup finds the first binding of a key.  The model is typed where Python
    is not: an operation on a tag of a kind it is not defined for raises
    [TypeError] or [AttributeError], also where Python would carry the
    payload on. *)

Inductive tag : Type :=
| TAG_Byte (v : Z)
| TAG_Short (v : Z)
| TAG_Int (v : Z)
| TAG_Long (v : Z)
| TAG_String (v : string)
| TAG_Byte_Array (v : list Z)
| TAG_Int_Array (v : list Z)
| TAG_Long_Array (v : list Z)
| TAG_List (v : list tag)
| TAG_Compound (v : list (string * tag)).

Fixpoint assoc_get (k : string) (kvs : list (string * tag)) : option tag :=
  match kvs with
  | [] => None
  | (k', v) :: kvs' => if String.eqb k k' then Some v else assoc_get k kvs'
  end.

Fixpoint assoc_set (k : string) (v : tag) (kvs : list (string * tag))
  : list (string * tag) :=
  match kvs with
  | [] => [(k, v)]
  | (k', v') :: kvs' =>
      if String.eqb k k' then (k, v) :: kvs' else (k', v') :: assoc_set k v kvs'
  end.

(** [t[key]] *)
Definition getitem (t : tag) (key : string) : result tag :=
  match t with
  | TAG_Compound kvs =>
      match assoc_get key kvs with
      | Some v => Ok v
      | None => Raise (KeyError key)
      end
  | _ => Raise TypeError
  end.

(** [key in t] *)
Definition contains (t : tag) (key : string) : result bool :=
  match t with
  | TAG_Compound kvs => Ok (bool_decide (is_Some (assoc_get key kvs)))
  | _ => Raise TypeError
  end.

(** [t.get(key, default)] *)
Definition get_default (t : tag) (key : string) (default : tag) : result tag :=
  match t with
  | TAG_Compound kvs => Ok (from_option id default (assoc_get key kvs))
  | _ => Raise AttributeError
  end.

(** [t[key] = v] *)
Definition setitem (t : tag) (key : string) (v : tag) : result tag :=
  match t with
  | TAG_Compound kvs => Ok (TAG_Compound (assoc_set key v kvs))
  | _ => Raise TypeError
  end.

(** [t.items()] *)
Definition items (t : tag) : result (list (string * tag)) :=
  match t with
  | TAG_Compound kvs => Ok kvs
  | _ => Raise AttributeError
  end.

(** Iterating a tag ([for x in t]). *)
Definition iter (t : tag) : result (list tag) :=
  match t with
  | TAG_List l => Ok l
  | _ => Raise TypeError
  end.

(** [t.value] where the code goes on to use it as a Python int. *)
Definition int_value (t : tag) : result Z :=
  match t with
  | TAG_Byte v | TAG_Short v | TAG_Int v | TAG_Long v => Ok v
  | _ => Raise TypeError
  end.

(** [t.value] where the code goes on to use it as a Python str. *)
Definition str_value (t : tag) : result string :=
  match t with
  | TAG_String s => Ok s
  | _ => Raise AttributeError
  end.

(** [t.value] where the code goes on to use it as an array of integers. *)
Definition array_value (t : tag) : result (list Z) :=
  match t with
  | TAG_Byte_Array l | TAG_Int_Array l | TAG_Long_Array l => Ok l
  | _ => Raise TypeError
  end.

(** [nbt.TAG_Int_Array(a)] stores the elements of the array [a] as signed
    32-bit integers: an element of an unsigned 32-bit array from [2 ^ 31] on
    is stored as the negative integer with the same 32 bits. *)
Definition as_int32 (v : Z) : Z := ((v + 2 ^ 31) mod 2 ^ 32 - 2 ^ 31)%Z.

(** ** numpy arrays

    A three-dimensional integer array is the nested list [tolist()] returns:
    [a[i][j][k]] is [get3 a i j k].  One-dimensional arrays are lists. *)

Definition array3 : Type := list (list (list nat)).

Definition get3 (a : array3) (i j k : nat) : nat :=
  nth k (nth j (nth i a []) []) 0.

Definition shape3 (a : array3) : nat * nat * nat :=
  (length a, length (hd [] a), length (hd [] (hd [] a))).

Definition tabulate3 (d0 d1 d2 : nat) (f : nat → nat → nat → nat) : array3 :=
  map (fun i => map (fun j => map (fun k => f i j k) (seq 0 d2)) (seq 0 d1))
      (seq 0 d0).

(** [numpy.zeros((d0, d1, d2), dtype=int)] *)
Definition zeros3 (d0 d1 d2 : nat) : array3 :=
  repeat (repeat (repeat 0 d2) d1) d0.
Arguments zeros3 : simpl never.

(** [a.swapaxes(ax1, ax2)]: the element at an index of the result is the
    element of [a] at the index with positions [ax1] and [ax2] exchanged. *)
Definition swapaxes (a : array3) (ax1 ax2 : nat) : array3 :=
  let '(d0, d1, d2) := shape3 a in
  match ax1, ax2 with
  | 0, 1 | 1, 0 => tabulate3 d1 d0 d2 (fun i j k => get3 a j i k)
  | 0, 2 | 2, 0 => tabulate3 d2 d1 d0 (fun i j k => get3 a k j i)
  | 1, 2 | 2, 1 => tabulate3 d0 d2 d1 (fun i j k => get3 a i k j)
  | _, _ => a
  end.

(** [a.ravel()], in C order. *)
Definition ravel (a : array3) : list nat := concat (concat a).

(** [l.reshape((d0, d1, d2))]: numpy raises ValueError when the sizes differ. *)
Definition reshape3 (l : list nat) (d0 d1 d2 : nat) : result array3 :=
  if length l =? d0 * d1 * d2 then
    Ok (tabulate3 d0 d1 d2 (fun i j k => nth (i * (d1 * d2) + j * d2 + k) l 0))
  else Raise (ValueError "cannot reshape array").

(** [a + n] *)
Definition add_scalar (a : array3) (n : nat) : array3 :=
  map (map (map (fun v => v + n))) a.

(** Python's [slice(start, stop).indices(len)] for a step of 1. *)
Definition slice_bound (v len : Z) : Z :=
  if (v <? 0)%Z then Z.max (v + len) 0 else Z.min v len.

(** [blocks[start:stop, :, :] = val]: the rows [start:stop] of [blocks] become
    those of [val]; numpy raises ValueError when [val] cannot be broadcast to
    the selected rows, that is when their numbers differ. *)
Definition set_rows (blocks : array3) (start stop : Z) (val : array3)
  : result array3 :=
  let len := Z.of_nat (length blocks) in
  let lo := slice_bound start len in
  let hi := slice_bound stop len in
  if (Z.max (hi - lo) 0 =? Z.of_nat (length val))%Z then
    Ok (take (Z.to_nat lo) blocks ++ val ++
        drop (Z.to_nat lo + length val) blocks)
  else Raise (ValueError "could not broadcast input array").

(** [blocks[:, lo:hi, :]] for [0 <= lo <= hi]. *)
Definition slice_axis1 (blocks : array3) (lo hi : nat) : array3 :=
  map (fun plane => take (hi - lo) (drop lo plane)) blocks.

(** [index[a]] for a one-dimensional [index]: IndexError when an element of
    [a] is not a position of [index]. *)
Definition take_along (index : list nat) (a : array3) : result array3 :=
  if forallb (forallb (forallb (fun v => v <? length index))) a then
    Ok (map (map (map (fun v => nth v index 0))) a)
  else Raise IndexError.

(** [a.astype("uint<bits>")]: the values are reduced modulo [2 ^ bits]. *)
Definition astype_uint (bits : nat) (a : array3) : array3 :=
  map (map (map (fun v => v mod 2 ^ bits))) a.

(** *** numpy.unique

    [numpy.unique(l, return_inverse=True)] returns the sorted distinct
    elements of [l], and for every element of [l] its position among them.
    The element type comes with the order numpy sorts by, a total order
    that agrees with equality. *)

Class PyOrder (A : Type) `{EqDecision A} := {
  py_le : A → A → bool;
  py_le_total : ∀ x y, py_le x y = true ∨ py_le y x = true;
  py_le_trans : ∀ x y z, py_le x y = true → py_le y z = true → py_le x z = true;
  py_le_antisym : ∀ x y, py_le x y = true → py_le y x = true → x = y;
}.

#[global] Program Instance nat_order : PyOrder nat := {| py_le := Nat.leb |}.
Next Obligation. intros x y. rewrite !Nat.leb_le. lia. Qed.
Next Obligation. intros x y z. rewrite !Nat.leb_le. lia. Qed.
Next Obligation. intros x y. rewrite !Nat.leb_le. lia. Qed.

Section unique.
Context {A : Type} {A_eq_dec : EqDecision A} {A_order : PyOrder A}.

Fixpoint insert_sorted (x : A) (l : list A) : list A :=
  match l with
  | [] => [x]
  | y :: l' =>
      if decide (x = y) then l
      else if py_le x y then x :: l
      else y :: insert_sorted x l'
  end.

Definition unique (l : list A) : list A := foldr insert_sorted [] l.

Fixpoint index_of (x : A) (l : list A) : nat :=
  match l with
  | [] => 0
  | y :: l' => if decide (x = y) then 0 else S (index_of x l')
  end.

Definition unique_inverse (l : list A) : list A * list nat :=
  let u := unique l in
  (u, map (fun x => index_of x u) l).
End unique.

(** ** Blocks, chunks and the imported helpers *)

(** Modelled from the spec: [amulet.api.block.Block] is not among the sources.
    A block descriptor has a namespace, a base name and a string-keyed
    property mapping compared by content; two descriptors are equal iff all
    three fields are. *)
Record Block : Type := mkBlock {
  namespace : string;
  base_name : string;
  properties : gmap string string;
}.

#[global] Instance Block_eq_dec : EqDecision Block.
Proof. solve_decision. Defined.

#[global] Instance Block_countable : Countable Block :=
  inj_countable'
    (fun b => (namespace b, base_name b, properties b))
    (fun t => mkBlock t.1.1 t.1.2 t.2)
    (fun b => match b with mkBlock _ _ _ => eq_refl end).

(** [Block(namespace="minecraft", base_name="air")] *)
Definition air : Block := mkBlock "minecraft" "air" ∅.

(** What [chunk.misc] holds under a key: a tag, or a dict from slab index to
    tag (the light arrays). *)
Inductive misc_value : Type :=
| MiscTag (t : tag)
| MiscDict (d : gmap Z tag).

(** [amulet.api.chunk.Chunk], as the interface constructs and reads it. *)
Record Chunk : Type := mkChunk {
  cx : Z;
  cz : Z;
  blocks : array3;
  entities : list tag;
  tileentities : option (list tag);
  biomes : list Z;
  misc : gmap string misc_value;
  extra : tag;
}.

(** The functions the module imports from the rest of the package and from
    the Python runtime, none of which is among the sources: they are
    parameters of the development.
    - [decode_long_array long_array n] and [encode_long_array array] of
      [amulet.utils.world_utils] (the bit-packed array codec), which may fail;
    - [get_smallest_dtype blocks] of the same module, the bit width used for
      the returned array;
    - [convert_to_format biomes n] of the chunk's biome array;
    - [payload_repr t], Python's [str(t.value)] for a tag that holds neither a
      string nor an integer. *)
Class Imports : Type := {
  decode_long_array : list Z → nat → result (list nat);
  encode_long_array : list nat → result (list Z);
  get_smallest_dtype : array3 → nat;
  convert_to_format : list Z → nat → list Z;
  payload_repr : tag → string;
}.

(** ** Anvil2Interface *)

(** [properties_to_string]: the dict is its list of items, in the order Python
    iterates them. *)
Definition properties_to_string (props : list (string * string)) : string :=
  let result := map (fun kv => kv.1 +:+ "=" +:+ kv.2) props in
  String.concat "," result.

Definition is_valid (key : string * Z) : bool :=
  if negb (String.eqb key.1 "anvil") then false
  else if (key.2 <? 1444)%Z then false
  else true.

(** [s.split(sep, 1)] when [sep] occurs in [s]; [None] when it does not (the
    split then has one part only). *)
Fixpoint split_once (sep : ascii) (s : string) : option (string * string) :=
  match s with
  | EmptyString => None
  | String c s' =>
      if Ascii.eqb c sep then Some (EmptyString, s')
      else match split_once sep s' with
           | Some (a, b) => Some (String c a, b)
           | None => None
           end
  end.

Definition never_edited : string :=
  "We don't support reading chunks that never been edited in Minecraft before".

Section Anvil2Interface.
Context {imports : Imports} {block_order : PyOrder Block}.

(** [str(val.value)] *)
Definition py_str (val : tag) : string :=
  match val with
  | TAG_String s => s
  | TAG_Byte v | TAG_Short v | TAG_Int v | TAG_Long v => pretty v
  | _ => payload_repr val
  end.

Definition _decode_palette_entry (entry : tag) : result Block :=
  name ← getitem entry "Name" ≫= str_value;
  match split_once ":" name with
  | None => Raise (ValueError "not enough values to unpack")
  | Some (namespace, base_name) =>
      props ← get_default entry "Properties" (TAG_Compound []) ≫= items;
      Ok (mkBlock namespace base_name
            (list_to_map (map (fun pv => (pv.1, py_str pv.2)) props)))
  end.

Definition _decode_palette (palette : tag) : result (list Block) :=
  entries ← iter palette;
  mapM _decode_palette_entry entries.

Definition _encode_palette_entry (block : Block) : tag :=
  TAG_Compound
    [("Name", TAG_String (namespace block +:+ ":" +:+ base_name block));
     ("Properties",
      TAG_Compound
        (map (fun pv => (pv.1, TAG_String pv.2))
             (map_to_list (properties block))))].

(** The property values of the model are strings, so the source's
    [isinstance(val, str)] test holds for each of them. *)
Definition _encode_palette (blockstates : list Block) : list tag :=
  map _encode_palette_entry blockstates.

(** The body of the loop of [_decode_blocks], for one section. *)
Definition _decode_section (section : tag) (st : array3 * list Block)
  : result (array3 * list Block) :=
  has_palette ← contains section "Palette";
  if negb has_palette then Ok st
  else
    y ← getitem section "Y" ≫= int_value;
    let height := Z.shiftl y 4 in
    long_array ← getitem section "BlockStates" ≫= array_value;
    decoded ← decode_long_array long_array 4096;
    slab ← reshape3 decoded 16 16 16;
    blocks ← set_rows st.1 height (height + 16)
               (add_scalar slab (length st.2));
    local ← getitem section "Palette" ≫= _decode_palette;
    Ok (blocks, st.2 ++ local).

Fixpoint _decode_sections (sections : list tag) (st : array3 * list Block)
  : result (array3 * list Block) :=
  match sections with
  | [] => Ok st
  | section :: rest => _decode_section section st ≫= _decode_sections rest
  end.

Definition _decode_blocks (chunk_sections : tag)
  : result (array3 * list Block) :=
  sections ← iter chunk_sections;
  match sections with
  | [] => Raise (NotImplementedError never_edited)
  | _ =>
      st ← _decode_sections sections (zeros3 256 16 16, [air]);
      let blocks := swapaxes (swapaxes st.1 0 1) 0 2 in
      let '(palette, inverse) := unique_inverse st.2 in
      blocks ← take_along inverse blocks;
      Ok (astype_uint (get_smallest_dtype blocks) blocks, palette)
  end.

(** [palette[index]] for an array of indices. *)
Definition take_palette (palette : list Block) (index : list nat)
  : result (list Block) :=
  mapM (fun i => match palette !! i with
                 | Some b => Ok b
                 | None => Raise IndexError
                 end) index.

(** The body of the loop of [_encode_blocks] for the slab [y]: [None] when
    the loop continues without appending a section. *)
Definition _encode_section (blocks : array3) (palette : list Block) (y : nat)
  : result (option tag) :=
  let block_sub_array := ravel (slice_axis1 blocks (y * 16) (y * 16 + 16)) in
  let '(sub_palette_, block_sub_array) := unique_inverse block_sub_array in
  blockstates ← take_palette palette sub_palette_;
  let sub_palette := _encode_palette blockstates in
  is_air ←
    match sub_palette with
    | [entry] =>
        name ← getitem entry "Name" ≫= str_value;
        Ok (bool_decide (name = "minecraft:air"))
    | _ => Ok false
    end;
  if (is_air : bool) then Ok None
  else
    long_array ← encode_long_array block_sub_array;
    Ok (Some (TAG_Compound
                [("Y", TAG_Byte (Z.of_nat y));
                 ("BlockStates", TAG_Long_Array long_array);
                 ("Palette", TAG_List sub_palette)])).

Fixpoint _encode_sections (blocks : array3) (palette : list Block)
    (ys : list nat) : result (list tag) :=
  match ys with
  | [] => Ok []
  | y :: ys' =>
      section ← _encode_section blocks palette y;
      sections ← _encode_sections blocks palette ys';
      Ok (match section with
          | Some s => s :: sections
          | None => sections
          end)
  end.

Definition _encode_blocks (blocks : array3) (palette : list Block)
  : result (list tag) :=
  _encode_sections blocks palette (seq 0 16).

Definition _decode_entities (entities : tag) : list tag := [].

Definition _encode_entities (entities : list tag) : tag := TAG_List [].

(** [{section['Y'].value: section[key] for section in sections}] *)
Fixpoint light_dict (key : string) (sections : list tag) (acc : gmap Z tag)
  : result (gmap Z tag) :=
  match sections with
  | [] => Ok acc
  | section :: rest =>
      y ← getitem section "Y" ≫= int_value;
      light ← getitem section key;
      light_dict key rest (<[y := light]> acc)
  end.

Definition decode (data : tag) : result (Chunk * list Block) :=
  level ← getitem data "Level";
  cx ← getitem level "xPos" ≫= int_value;
  cz ← getitem level "zPos" ≫= int_value;
  sections ← getitem level "Sections";
  '(blocks, palette) ← _decode_blocks sections;
  section_list ← iter sections;
  block_light ← light_dict "BlockLight" section_list ∅;
  sky_light ← light_dict "SkyLight" section_list ∅;
  tile_ticks ← getitem level "TileTicks";
  last_update ← getitem level "LastUpdate";
  biomes ← getitem level "Biomes" ≫= array_value;
  inhabited_time ← getitem level "InhabitedTime";
  status ← getitem level "Status";
  heightmaps ← getitem level "Heightmaps";
  to_be_ticked ← getitem level "ToBeTicked";
  post_processing ← getitem level "PostProcessing";
  structures ← getitem level "Structures";
  liquid_ticks ← getitem level "LiquidTicks";
  liquids_to_be_ticked ← getitem level "LiquidsToBeTicked";
  entities ← _decode_entities <$> getitem level "Entities";
  let misc : gmap string misc_value :=
    <["LiquidsToBeTicked" := MiscTag liquids_to_be_ticked]>
    (<["LiquidTicksA" := MiscTag liquid_ticks]>
    (<["StructuresC" := MiscTag structures]>
    (<["PostProcessingA" := MiscTag post_processing]>
    (<["ToBeTickedA" := MiscTag to_be_ticked]>
    (<["HeightmapsC" := MiscTag heightmaps]>
    (<["StatusSt" := MiscTag status]>
    (<["InhabitedTimeL" := MiscTag inhabited_time]>
    (<["LastUpdateL" := MiscTag last_update]>
    (<["TileTicksA" := MiscTag tile_ticks]>
    (<["SkyLight2048BA" := MiscDict sky_light]>
    (<["BlockLight2048BA" := MiscDict block_light]> ∅))))))))))) in
  Ok (mkChunk cx cz blocks entities None biomes misc data, palette).

(** [misc.get(key, default)] where the code stores the result in the tree. *)
Definition misc_get_tag (misc : gmap string misc_value) (key : string)
    (default : tag) : result tag :=
  match misc !! key with
  | None => Ok default
  | Some (MiscTag t) => Ok t
  | Some (MiscDict _) => Raise TypeError
  end.

(** [misc.get(key, {})] where the code looks a slab index up in the result. *)
Definition misc_get_dict (misc : gmap string misc_value) (key : string)
  : result (gmap Z tag) :=
  match misc !! key with
  | None => Ok ∅
  | Some (MiscDict d) => Ok d
  | Some (MiscTag _) => Raise TypeError
  end.

(** [numpy.zeros(2048, dtype=numpy.uint8)] in a byte array. *)
Definition zero_light : tag := TAG_Byte_Array (repeat 0%Z 2048).

(** The body of the loop of [encode] over the emitted sections. *)
Definition attach_light (misc : gmap string misc_value) (section : tag)
  : result tag :=
  y ← getitem section "Y" ≫= int_value;
  block_light ← misc_get_dict misc "BlockLight2048";
  sky_light ← misc_get_dict misc "SkyLight2048";
  section ← setitem section "BlockLight"
              (from_option id zero_light (block_light !! y));
  setitem section "SkyLight" (from_option id zero_light (sky_light !! y)).

Definition heightmap_names : list string :=
  ["MOTION_BLOCKING"; "MOTION_BLOCKING_NO_LEAVES"; "OCEAN_FLOOR";
   "OCEAN_FLOOR_WG"; "WORLD_SURFACE"; "WORLD_SURFACE_WG"].

(** [nbt.TAG_Long_Array(numpy.zeros(36, dtype='>i8'))] *)
Definition zero_heightmap : tag := TAG_Long_Array (repeat 0%Z 36).

(** [heightmaps.get(heightmap, default)] on what [misc.get('HeightmapsC',
    nbt.TAG_Compound())] returned; a dict of slab indices has no string key. *)
Definition heightmap_entry (heightmaps : misc_value) (heightmap : string)
  : result tag :=
  match heightmaps with
  | MiscTag t => get_default t heightmap zero_heightmap
  | MiscDict _ => Ok zero_heightmap
  end.

Definition encode_heightmaps (misc : gmap string misc_value) : result tag :=
  let heightmaps := from_option id (MiscTag (TAG_Compound [])) (misc !! "HeightmapsC") in
  entries ← mapM (fun heightmap =>
                    entry ← heightmap_entry heightmaps heightmap;
                    Ok (heightmap, entry)) heightmap_names;
  Ok (TAG_Compound entries).

(** [nbt.TAG_List([nbt.TAG_List() for _ in range(16)])] *)
Definition sixteen_lists : tag := TAG_List (repeat (TAG_List []) 16).

Definition encode (chunk : Chunk) (palette : list Block)
    (max_world_version : string * Z) : result tag :=
  let misc := misc chunk in
  sections ← _encode_blocks (blocks chunk) palette;
  sections ← mapM (attach_light misc) sections;
  tile_ticks ← misc_get_tag misc "TileTicksA" (TAG_List []);
  last_update ← misc_get_tag misc "LastUpdateL" (TAG_Long 0);
  let biomes :=
    TAG_Int_Array (map (fun v => as_int32 (v mod 2 ^ 32))
                       (convert_to_format (biomes chunk) 256)) in
  inhabited_time ← misc_get_tag misc "InhabitedTimeL" (TAG_Long 0);
  status ← misc_get_tag misc "StatusSt" (TAG_String "postprocessed");
  heightmaps ← encode_heightmaps misc;
  to_be_ticked ← misc_get_tag misc "ToBeTickedA" sixteen_lists;
  post_processing ← misc_get_tag misc "PostProcessingA" sixteen_lists;
  structures ← misc_get_tag misc "StructuresC" (TAG_Compound []);
  liquid_ticks ← misc_get_tag misc "LiquidTicksA" (TAG_List []);
  liquids_to_be_ticked ← misc_get_tag misc "LiquidsToBeTicked" sixteen_lists;
  Ok (TAG_Compound
        [("Level",
          TAG_Compound
            [("xPos", TAG_Int (cx chunk));
             ("zPos", TAG_Int (cz chunk));
             ("Sections", TAG_List sections);
             ("TileTicks", tile_ticks);
             ("LastUpdate", last_update);
             ("Biomes", biomes);
             ("InhabitedTime", inhabited_time);
             ("Status", status);
             ("Heightmaps", heightmaps);
             ("ToBeTicked", to_be_ticked);
             ("PostProcessing", post_processing);
             ("Structures", structures);
             ("LiquidTicks", liquid_ticks);
             ("LiquidsToBeTicked", liquids_to_be_ticked);
             ("Entities", _encode_entities (entities chunk))]);
         ("DataVersion", TAG_Int max_world_version.2)]).

(** [_get_translator_info]: the key of the translator for a record and the
    record's version number, both read from its DataVersion field. *)
Definition _get_translator_info (data : tag) : result ((string * Z) * Z) :=
  version ← getitem data "DataVersion" ≫= int_value;
  version' ← getitem data "DataVersion" ≫= int_value;
  Ok (("anvil", version), version').
End Anvil2Interface.

(** ** A reference instance of the imported helpers

    Used to run the interface on concrete records. *)

(** Modelled from the spec: the bit-packed array codec of
    [amulet.utils.world_utils], which is not among the sources.  Values are
    packed least significant first into 64-bit words, [64 / bits] values to a
    word, a value never straddling two words and the unused high bits of a
    word left zero. *)
Definition pack_word (bits : nat) (values : list nat) : Z :=
  foldr (fun v acc => (Z.of_nat v + 2 ^ Z.of_nat bits * acc)%Z) 0%Z values.

(** Modelled from the spec: the values of one word, read back. *)
Definition unpack_word (bits per_word : nat) (word : Z) : list nat :=
  map (fun i => Z.to_nat ((word mod 2 ^ 64 / 2 ^ Z.of_nat (bits * i))
                          mod 2 ^ Z.of_nat bits)%Z)
      (seq 0 per_word).

(** The list [l] cut into groups of [n] elements, the last one shorter when
    [n] does not divide the length. *)
Fixpoint group (fuel n : nat) (l : list nat) : list (list nat) :=
  match fuel, l with
  | S fuel', _ :: _ => take n l :: group fuel' n (drop n l)
  | _, _ => []
  end.

(** Modelled from the spec: [pack(values, bits_per_value)], which fails with
    OutOfRange when a value does not fit in the width. *)
Definition pack (values : list nat) (bits : nat) : result (list Z) :=
  if forallb (fun v => v <? 2 ^ bits) values then
    Ok (map (pack_word bits) (group (length values) (64 / bits) values))
  else Raise OutOfRange.

(** Modelled from the spec: [unpack(words, count, bits_per_value)], which
    ignores words past those it needs and fails with TruncatedInput when
    there are too few. *)
Definition unpack (words : list Z) (count bits : nat) : result (list nat) :=
  let per_word := 64 / bits in
  if length words * per_word <? count then Raise TruncatedInput
  else Ok (take count (flat_map (unpack_word bits per_word) words)).

(** Python's [int.bit_length]. *)
Definition bit_length (n : nat) : nat :=
  match n with 0 => 0 | _ => S (Nat.log2 n) end.

(** Modelled from the spec: a section's indices are packed with
    [max(4, bits needed for the largest index)] bits per value; on reading,
    the bits per value follow from the number of words stored for [count]
    values. *)
Definition reference_encode_long_array (array : list nat) : result (list Z) :=
  pack array (Nat.max 4 (bit_length (foldr Nat.max 0 array))).

Definition reference_decode_long_array (long_array : list Z) (count : nat)
  : result (list nat) :=
  let bits := Nat.min 64 (64 * length long_array / count) in
  if bits =? 0 then Raise TruncatedInput else unpack long_array count bits.

(** The specification does not describe [get_smallest_dtype]; the reference
    instance takes the narrowest of numpy's unsigned widths that holds every
    element. *)
Definition reference_get_smallest_dtype (a : array3) : nat :=
  let top := foldr Nat.max 0 (ravel a) in
  if top <? 2 ^ 8 then 8 else if top <? 2 ^ 16 then 16
  else if top <? 2 ^ 32 then 32 else 64.

(** The reference instance.  The specification does not describe the biome
    conversion nor the text Python prints for a payload that is an array, a
    list or a compound: the instance keeps the first [n] biomes and prints
    nothing. *)
Definition reference_imports : Imports := {|
  decode_long_array := reference_decode_long_array;
  encode_long_array := reference_encode_long_array;
  get_smallest_dtype := reference_get_smallest_dtype;
  convert_to_format := fun biomes n => take n biomes;
  payload_repr := fun _ => "";
|}.

(** Modelled from the spec: the specification fixes the equality of block
    descriptors and no order on them; [numpy.unique] needs a total order that
    agrees with that equality.  The reference instance orders descriptors by
    their code in the enumeration of [Block]. *)
Program Definition reference_block_order : PyOrder Block :=
  {| py_le := fun b1 b2 => (countable.encode b1 <=? countable.encode b2)%positive |}.
Next Obligation. intros x y. rewrite !Pos.leb_le. lia. Qed.
Next Obligation. intros x y z. rewrite !Pos.leb_le. lia. Qed.
Next Obligation.
  intros x y. rewrite !Pos.leb_le. intros ? ?.
  apply (encode_inj x y). lia.
Qed.

Abbreviation reference_decode :=
  (decode (imports := reference_imports) (block_order := reference_block_order)).
Abbreviation reference_encode := (encode (imports := reference_imports)).
Abbreviation reference_decode_blocks :=
  (_decode_blocks (imports := reference_imports)
     (block_order := reference_block_order)).
Abbreviation reference_encode_blocks :=
  (_encode_blocks (imports := reference_imports)).

(** *** Sample records *)

Definition stone : Block := mkBlock "minecraft" "stone" ∅.

Definition air_entry : tag := TAG_Compound [("Name", TAG_String "minecraft:air")].
Definition stone_entry : tag :=
  TAG_Compound [("Name", TAG_String "minecraft:stone")].

(** The auxiliary fields of a chunk record, every one of them present. *)
Definition sample_auxiliary : list (string * tag) :=
  [("TileTicks", TAG_List []);
   ("LastUpdate", TAG_Long 7);
   ("Biomes", TAG_Int_Array (repeat 1%Z 256));
   ("InhabitedTime", TAG_Long 3);
   ("Status", TAG_String "postprocessed");
   ("Heightmaps", TAG_Compound []);
   ("ToBeTicked", TAG_List []);
   ("PostProcessing", TAG_List []);
   ("Structures", TAG_Compound []);
   ("LiquidTicks", TAG_List []);
   ("LiquidsToBeTicked", TAG_List []);
   ("Entities", TAG_List [])].

Definition sample_record (sections : list tag) : tag :=
  TAG_Compound
    [("Level",
      TAG_Compound
        ([("xPos", TAG_Int 2); ("zPos", TAG_Int (-3));
          ("Sections", TAG_List sections)] ++ sample_auxiliary));
     ("DataVersion", TAG_Int 1631)].

(** A section of slab 0 whose 4096 indices, four bits each, are all 1 (stone),
    with light arrays that are not zero. *)
Definition stone_section : tag :=
  TAG_Compound
    [("Y", TAG_Byte 0);
     ("Palette", TAG_List [air_entry; stone_entry]);
     ("BlockStates", TAG_Long_Array (repeat 1229782938247303441%Z 256));
     ("BlockLight", TAG_Byte_Array (repeat 7%Z 2048));
     ("SkyLight", TAG_Byte_Array (repeat 15%Z 2048))].

(** A section of slab 0 that is air except for one stone voxel, the one
    stored at position 1 of the packed array. *)
Definition one_stone_section : tag :=
  TAG_Compound
    [("Y", TAG_Byte 0);
     ("Palette", TAG_List [air_entry; stone_entry]);
     ("BlockStates", TAG_Long_Array (16%Z :: repeat 0%Z 255));
     ("BlockLight", TAG_Byte_Array (repeat 0%Z 2048));
     ("SkyLight", TAG_Byte_Array (repeat 0%Z 2048))].

(** A volume that is air (index 0) except for the voxel at (0, 0, 0), which is
    stone (index 1) in the palette [air; stone]. *)
Definition corner_blocks : array3 :=
  tabulate3 16 256 16
    (fun x y z => if (x =? 0) && (y =? 0) && (z =? 0) then 1 else 0).



(** A record without sections and without any auxiliary field. *)
Definition legacy_record : tag :=
  TAG_Compound
    [("Level",
      TAG_Compound
        [("xPos", TAG_Int 0); ("zPos", TAG_Int 0); ("Sections", TAG_List [])])].

(** A section of slab 0 that is all air. *)
Definition air_section : tag :=
  TAG_Compound
    [("Y", TAG_Byte 0);
     ("Palette", TAG_List [air_entry]);
     ("BlockStates", TAG_Long_Array (repeat 0%Z 256));
     ("BlockLight", TAG_Byte_Array (repeat 0%Z 2048));
     ("SkyLight", TAG_Byte_Array (repeat 0%Z 2048))].

Definition dirt : Block := mkBlock "minecraft" "dirt" ∅.
Definition dirt_entry : tag :=
  TAG_Compound [("Name", TAG_String "minecraft:dirt")].

(** A section of slab 0 that is all stone (index 1) and whose palette also
    lists dirt, which no voxel uses. *)
Definition spare_entry_section : tag :=
  TAG_Compound
    [("Y", TAG_Byte 0);
     ("Palette", TAG_List [air_entry; stone_entry; dirt_entry]);
     ("BlockStates", TAG_Long_Array (repeat 1229782938247303441%Z 256));
     ("BlockLight", TAG_Byte_Array (repeat 0%Z 2048));
     ("SkyLight", TAG_Byte_Array (repeat 0%Z 2048))].

(** A chunk with an empty [misc], all air. *)
Definition bare_chunk : Chunk :=
  mkChunk 0 0 (zeros3 16 256 16) [] None [] ∅ (TAG_Compound []).

(** What [encode] makes of [bare_chunk]. *)
Definition bare_encoded : tag :=
  Eval vm_compute in
    match reference_encode bare_chunk [air] ("anvil", 1631%Z) with
    | Ok data => data
    | Raise _ => TAG_Compound []
    end.

(** A section like [stone_section] whose slab index is -2. *)
Definition wrapped_section : tag :=
  TAG_Compound
    [("Y", TAG_Byte (-2));
     ("Palette", TAG_List [air_entry; stone_entry]);
     ("BlockStates", TAG_Long_Array (repeat 1229782938247303441%Z 256));
     ("BlockLight", TAG_Byte_Array (repeat 0%Z 2048));
     ("SkyLight", TAG_Byte_Array (repeat 0%Z 2048))].

(** A chunk whose [misc] holds a light array for slab 0 under the key
    [encode] reads. *)
Definition lit_chunk : Chunk :=
  mkChunk 0 0 corner_blocks [] None []
    {["BlockLight2048" := MiscDict {[0%Z := TAG_Byte_Array (repeat 7%Z 2048)]}]}
    (TAG_Compound []).

(** ** Notions the properties are stated with *)

(** The Level fields [decode] extracts besides the coordinates and the
    sections. *)
Definition auxiliary_fields : list string :=
  ["TileTicks"; "LastUpdate"; "Biomes"; "InhabitedTime"; "Status";
   "Heightmaps"; "ToBeTicked"; "PostProcessing"; "Structures"; "LiquidTicks";
   "LiquidsToBeTicked"; "Entities"].

(** [del t[key]] for a key that may be absent. *)
Definition delitem (t : tag) (key : string) : tag :=
  match t with
  | TAG_Compound kvs => TAG_Compound (filter (fun kv => kv.1 ≠ key) kvs)
  | _ => t
  end.

(** The record [data] without the field [key] of its Level compound. *)
Definition without_field (key : string) (data : tag) : tag :=
  match data with
  | TAG_Compound kvs =>
      match assoc_get "Level" kvs with
      | Some level => TAG_Compound (assoc_set "Level" (delitem level key) kvs)
      | None => data
      end
  | _ => data
  end.

(** The record [data] without the field [key] of its section number [i]. *)
Definition without_light (key : string) (i : nat) (data : tag) : tag :=
  match data with
  | TAG_Compound kvs =>
      match assoc_get "Level" kvs with
      | Some (TAG_Compound level) =>
          match assoc_get "Sections" level with
          | Some (TAG_List sections) =>
              let sections' := alter (fun s => delitem s key) i sections in
              TAG_Compound
                (assoc_set "Level"
                   (TAG_Compound (assoc_set "Sections" (TAG_List sections') level))
                   kvs)
          | _ => data
          end
      | _ => data
      end
  | _ => data
  end.

(** The computation [r] returns a value, and the value satisfies [P]. *)
Definition returns {A} (r : result A) (P : A → Prop) : Prop :=
  match r with
  | Ok a => P a
  | Raise _ => False
  end.

(** The combined identifier of a descriptor splits back into its namespace
    and its base name: the namespace holds no colon. *)
Definition well_named (b : Block) : Prop :=
  split_once ":" (namespace b +:+ ":" +:+ base_name b)
  = Some (namespace b, base_name b).

(** Decoding a record, encoding the result and decoding that again: the
    first decode's result, the encoded record and the second decode's
    result. *)
Definition roundtrip {imports : Imports} {block_order : PyOrder Block}
    (data : tag) (version : string * Z)
  : result ((Chunk * list Block) * tag * (Chunk * list Block)) :=
  r ← decode data;
  data' ← encode r.1 r.2 version;
  r' ← decode data';
  Ok (r, data', r').

(** The heightmap [misc] holds under a name, if any. *)
Definition stored_heightmap (misc : gmap string misc_value) (name : string)
  : option tag :=
  match misc !! "HeightmapsC" with
  | Some (MiscTag (TAG_Compound kvs)) => assoc_get name kvs
  | _ => None
  end.

(** Follows the spec's words, not the source: the distinct elements of [l]
    in the order of their first appearance. *)
Fixpoint first_appearance (l : list nat) : list nat :=
  match l with
  | [] => []
  | x :: l' => x :: filter (fun v => v ≠ x) (first_appearance l')
  end.

(** [a] is a full [d0] x [d1] x [d2] array. *)
Definition has_shape (d0 d1 d2 : nat) (a : array3) : Prop :=
  length a = d0 ∧
  Forall (fun plane => length plane = d1 ∧
                       Forall (fun row => length row = d2) plane) a.

(** Every element of [a] satisfies [P]. *)
Definition all3 (P : nat → Prop) (a : array3) : Prop :=
  Forall (Forall (Forall P)) a.

(** The storage-order volume and the running palette [_decode_blocks] has
    built when its loop over the sections ends. *)
Definition stitched {imports : Imports} (chunk_sections : tag)
  : result (array3 * list Block) :=
  sections ← iter chunk_sections;
  _decode_sections sections (zeros3 256 16 16, [air]).

(** The indices of the slab [y], flattened as [_encode_blocks] does. *)
Definition slab_of (blocks : array3) (y : nat) : list nat :=
  ravel (slice_axis1 blocks (y * 16) (y * 16 + 16)).

(** The section record [_encode_blocks] appends for a slab. *)
Definition section_record (y : nat) (long_array : list Z)
    (sub_palette : list tag) : tag :=
  TAG_Compound
    [("Y", TAG_Byte (Z.of_nat y));
     ("BlockStates", TAG_Long_Array long_array);
     ("Palette", TAG_List sub_palette)].

(** The section list of a record, as a tag and as a list. *)
Definition stored_sections (data : tag) : result tag :=
  level ← getitem data "Level";
  getitem level "Sections".

Definition sections_of (data : tag) : result (list tag) :=
  stored_sections data ≫= iter.

(** A heightmap of an encoded record. *)
Definition heightmap_of (data : tag) (name : string) : result tag :=
  level ← getitem data "Level";
  heightmaps ← getitem level "Heightmaps";
  getitem heightmaps name.

(** The slab index and the two light arrays of every section of a record. *)
Definition section_lights (section : tag) : result (tag * tag * tag) :=
  y ← getitem section "Y";
  block_light ← getitem section "BlockLight";
  sky_light ← getitem section "SkyLight";
  Ok (y, block_light, sky_light).

Definition emitted_lights (data : tag) : result (list (tag * tag * tag)) :=
  sections ← sections_of data;
  mapM section_lights sections.

(** Decoding a record and encoding the result again. *)
Definition decode_encode {imports : Imports} {block_order : PyOrder Block}
    (data : tag) (version : string * Z) : result tag :=
  r ← decode data;
  encode r.1 r.2 version.

(** Strictly ascending in the order [numpy.unique] sorts by. *)
Definition ascending {A : Type} {A_eq_dec : EqDecision A}
    {A_order : PyOrder A} (l : list A) : Prop :=
  StronglySorted (fun x y => py_le x y = true ∧ x ≠ y) l.

(** The slab a section with slab index [y] is written to: Python's slice
    [16 y : 16 y + 16] of 256 rows selects sixteen rows for [y] in 0..15 and,
    counting from the end, for [y] in -16..-2; it selects none otherwise. *)
Definition written_slab (y : Z) : option nat :=
  if decide ((0 ≤ y ≤ 15) ∨ (-16 ≤ y ≤ -2))%Z then Some (Z.to_nat (y mod 16))
  else None.

(** The slab the loop of [_decode_blocks] writes a section to: none for a
    section it skips or cannot read the slab index of. *)
Definition target_slab (section : tag) : option nat :=
  match contains section "Palette", getitem section "Y" ≫= int_value with
  | Ok true, Ok y => written_slab y
  | _, _ => None
  end.

(** The slab [y] uses a single index, and the descriptor at that index is
    named minecraft:air. *)
Definition air_slab (blocks : array3) (palette : list Block) (y : nat) : Prop :=
  ∃ i b,
    (∀ x yy z, x < 16 → yy < 16 → z < 16 →
       get3 blocks x (y * 16 + yy) z = i) ∧
    palette !! i = Some b ∧
    namespace b +:+ ":" +:+ base_name b = "minecraft:air".

(** The Level fields [decode] keeps as they are: the name of the field, the
    key of [chunk.misc] that [decode] keeps it under and [encode] reads it
    from, and the value [encode] writes when the key is absent. *)
Definition kept_fields : list (string * string * tag) :=
  [("TileTicks", "TileTicksA", TAG_List []);
   ("LastUpdate", "LastUpdateL", TAG_Long 0);
   ("InhabitedTime", "InhabitedTimeL", TAG_Long 0);
   ("Status", "StatusSt", TAG_String "postprocessed");
   ("ToBeTicked", "ToBeTickedA", sixteen_lists);
   ("PostProcessing", "PostProcessingA", sixteen_lists);
   ("Structures", "StructuresC", TAG_Compound []);
   ("LiquidTicks", "LiquidTicksA", TAG_List []);
   ("LiquidsToBeTicked", "LiquidsToBeTicked", sixteen_lists)].

(** The fields of the Level compound of an encoded record, and those of each
    of its sections. *)
Definition level_fields : list string :=
  ["xPos"; "zPos"; "Sections"] ++ auxiliary_fields.

Definition section_fields : list string :=
  ["Y"; "BlockStates"; "Palette"; "BlockLight"; "SkyLight"].

(** The light array [misc] holds for the slab [y] under [key], if any. *)
Definition stored_light (misc : gmap string misc_value) (key : string) (y : Z)
  : option tag :=
  match misc !! key with
  | Some (MiscDict d) => d !! y
  | _ => None
  end.

(** The tag [misc] holds under a key, if any. *)
Definition stored_tag (misc : gmap string misc_value) (key : string)
  : option tag :=
  match misc !! key with
  | Some (MiscTag t) => Some t
  | _ => None
  end.

(** A field of the Level compound of a record. *)
Definition field_of (data : tag) (name : string) : result tag :=
  level ← getitem data "Level";
  getitem level name.

(** The character [c] occurs in [s]. *)
Fixpoint occurs (c : ascii) (s : string) : bool :=
  match s with
  | EmptyString => false
  | String c' s' => Ascii.eqb c' c || occurs c s'
  end.

(** What follows an item in the joined string: nothing after the last one,
    and otherwise a comma and the items left. *)
Definition joined_tail (items : list string) : string :=
  match items with
  | [] => ""
  | _ => String "," (String.concat "," items)
  end.

(** Encoding a chunk and decoding the record: the record and the decoded
    chunk and palette. *)
Definition encode_then_decode {imports : Imports} {block_order : PyOrder Block}
    (chunk : Chunk) (palette : list Block) (version : string * Z)
  : result (tag * (Chunk * list Block)) :=
  data ← encode chunk palette version;
  r ← decode data;
  Ok (data, r).

(** * Properties *)

(** ** Fallible computations *)

Lemma bind_Ok {A B} (m : result A) (f : A → result B) (b : B) :
  m ≫= f = Ok b ↔ ∃ a, m = Ok a ∧ f a = Ok b.
Proof.
  destruct m as [a|e]; simpl; split.
  - eauto.
  - by intros (? & [= ->] & ?).
  - done.
  - by intros (? & [=] & ?).
Qed.

Lemma fmap_Ok {A B} (m : result A) (f : A → B) (b : B) :
  f <$> m = Ok b ↔ ∃ a, m = Ok a ∧ f a = b.
Proof.
  destruct m as [a|e]; simpl; split.
  - intros [= <-]. eauto.
  - by intros (? & [= ->] & ->).
  - done.
  - by intros (? & [=] & ?).
Qed.

Lemma returns_intro {A} (r : result A) (P : A → Prop) :
  is_ok r = true → (∀ a, r = Ok a → P a) → returns r P.
Proof. destruct r as [a|e]; simpl; [auto|discriminate]. Qed.

(** Splits a hypothesis [m ≫= f = Ok b] into its two steps, repeatedly. *)
Ltac inv_ok :=
  repeat match goal with
    | H : _ ≫= _ = Ok _ |- _ =>
        apply bind_Ok in H; destruct H as (? & ? & H)
    | H : _ <$> _ = Ok _ |- _ =>
        apply fmap_Ok in H; destruct H as (? & ? & H)
    | H : mret _ = Ok _ |- _ => unfold mret, result_ret in H
    | H : Ok _ = Ok _ |- _ => injection H as H
    | H : Raise _ = Ok _ |- _ => discriminate H
    end.

Lemma mapM_Ok_lookup {A B} (f : A → result B) (l : list A) (k : list B) i b :
  mapM f l = Ok k → k !! i = Some b → ∃ a, l !! i = Some a ∧ f a = Ok b.
Proof.
  revert k i. induction l as [|a l IH]; intros k i Hk Hi; simpl in Hk.
  - injection Hk as <-. done.
  - inv_ok. subst k. destruct i as [|i]; simpl in *.
    + injection Hi as <-. eauto.
    + eauto.
Qed.

(** ** Arrays *)

Lemma nth_map_seq {A} (f : nat → A) (n i : nat) (d : A) :
  i < n → nth i (map f (seq 0 n)) d = f i.
Proof.
  intros Hi. rewrite (nth_indep _ d (f 0)) by (rewrite length_map, length_seq; lia).
  rewrite (map_nth f (seq 0 n) 0 i), seq_nth by lia. done.
Qed.

Lemma get3_tabulate3 d0 d1 d2 f i j k :
  i < d0 → j < d1 → k < d2 → get3 (tabulate3 d0 d1 d2 f) i j k = f i j k.
Proof.
  intros Hi Hj Hk. unfold get3, tabulate3.
  by rewrite !nth_map_seq.
Qed.

Lemma has_shape_tabulate3 d0 d1 d2 f : has_shape d0 d1 d2 (tabulate3 d0 d1 d2 f).
Proof.
  unfold has_shape, tabulate3. split.
  - by rewrite length_map, length_seq.
  - apply Forall_map, Forall_forall. intros i _. simpl. split.
    + by rewrite length_map, length_seq.
    + apply Forall_map, Forall_forall. intros j _. simpl.
      by rewrite length_map, length_seq.
Qed.

Lemma has_shape_zeros3 d0 d1 d2 : has_shape d0 d1 d2 (zeros3 d0 d1 d2).
Proof.
  unfold has_shape, zeros3. split; [by rewrite repeat_length|].
  apply Forall_forall. intros p Hp%list_elem_of_In%repeat_spec. subst p.
  split; [by rewrite repeat_length|].
  apply Forall_forall. intros r Hr%list_elem_of_In%repeat_spec. subst r.
  by rewrite repeat_length.
Qed.

Lemma shape3_has_shape d0 d1 d2 a :
  has_shape d0 d1 d2 a → 0 < d0 → 0 < d1 → shape3 a = (d0, d1, d2).
Proof.
  intros [Hlen Hall] H0 H1. unfold shape3.
  destruct a as [|p a]; simpl in *; [lia|].
  apply Forall_cons in Hall as [[Hp Hrows] _].
  destruct p as [|r p]; simpl in *; [lia|].
  apply Forall_cons in Hrows as [Hr _]. by rewrite Hlen, Hp, Hr.
Qed.

Lemma swapaxes_01_02 a x y z :
  has_shape 256 16 16 a → x < 16 → y < 256 → z < 16 →
  get3 (swapaxes (swapaxes a 0 1) 0 2) x y z = get3 a y z x.
Proof.
  intros Ha Hx Hy Hz. unfold swapaxes at 2.
  rewrite (shape3_has_shape 256 16 16) by (done || lia).
  unfold swapaxes.
  rewrite (shape3_has_shape 16 256 16) by (apply has_shape_tabulate3 || lia).
  by rewrite !get3_tabulate3 by lia.
Qed.

Lemma has_shape_nth d0 d1 d2 a i :
  has_shape d0 d1 d2 a → i < d0 →
  length (nth i a []) = d1 ∧ Forall (fun row => length row = d2) (nth i a []).
Proof.
  intros [Hlen Hall] Hi. rewrite Forall_forall in Hall.
  apply Hall, list_elem_of_In, nth_In. lia.
Qed.

Lemma nth_map_lt {A B} (f : A → B) (l : list A) i d d' :
  i < length l → nth i (map f l) d' = f (nth i l d).
Proof.
  intros Hi. rewrite (nth_indep _ d' (f d)) by (by rewrite length_map).
  apply map_nth.
Qed.

Lemma get3_map3 d0 d1 d2 (f : nat → nat) a i j k :
  has_shape d0 d1 d2 a → i < d0 → j < d1 → k < d2 →
  get3 (map (map (map f)) a) i j k = f (get3 a i j k).
Proof.
  intros Ha Hi Hj Hk. unfold get3.
  destruct (has_shape_nth _ _ _ _ i Ha Hi) as [Hp Hrows].
  rewrite (nth_map_lt _ a i []) by (destruct Ha; lia).
  rewrite (nth_map_lt _ _ j []) by lia.
  rewrite (nth_map_lt _ _ k 0); [done|].
  rewrite Forall_forall in Hrows.
  rewrite (Hrows (nth j (nth i a []) [])); [done|].
  apply list_elem_of_In, nth_In. lia.
Qed.

Lemma has_shape_map3 d0 d1 d2 (f : nat → nat) a :
  has_shape d0 d1 d2 a → has_shape d0 d1 d2 (map (map (map f)) a).
Proof.
  intros [Hlen Hall]. split; [by rewrite length_map|].
  apply Forall_map. eapply Forall_impl; [exact Hall|].
  intros p [Hp Hrows]. simpl. split; [by rewrite length_map|].
  apply Forall_map. eapply Forall_impl; [exact Hrows|].
  intros r Hr. simpl. by rewrite length_map.
Qed.

Lemma slice_bound_range v len :
  (0 ≤ len → 0 ≤ slice_bound v len ≤ len)%Z.
Proof. unfold slice_bound. destruct (Z.ltb_spec v 0); lia. Qed.

Lemma has_shape_set_rows d0 d1 d2 n a start stop val a' :
  has_shape d0 d1 d2 a → has_shape n d1 d2 val →
  set_rows a start stop val = Ok a' → has_shape d0 d1 d2 a'.
Proof.
  intros [Hlen Hall] [Hvlen Hvall]. unfold set_rows.
  pose proof (slice_bound_range start (Z.of_nat (length a))) as Hlo.
  pose proof (slice_bound_range stop (Z.of_nat (length a))) as Hhi.
  cbv zeta. destruct (_ =? _)%Z eqn:Heq; [|done].
  apply Z.eqb_eq in Heq. intros [= <-]. split.
  - rewrite !length_app, length_take, length_drop. lia.
  - rewrite !Forall_app. split_and!; [by apply Forall_take|done|by apply Forall_drop].
Qed.

Lemma has_shape_reshape3 l d0 d1 d2 a :
  reshape3 l d0 d1 d2 = Ok a → has_shape d0 d1 d2 a.
Proof.
  unfold reshape3. destruct (_ =? _); [|done].
  intros [= <-]. apply has_shape_tabulate3.
Qed.

Section decode_blocks_shape_invariant.
Context {imports : Imports} {block_order : PyOrder Block}.

Lemma decode_section_shape section st st' :
  has_shape 256 16 16 st.1 → _decode_section section st = Ok st' →
  has_shape 256 16 16 st'.1.
Proof.
  intros Hst Hdec. unfold _decode_section in Hdec. inv_ok.
  destruct (negb _); inv_ok; [by subst|].
  subst st'. simpl.
  eapply has_shape_set_rows; [done| |done].
  apply has_shape_map3. by eapply has_shape_reshape3.
Qed.

Lemma decode_sections_shape sections st st' :
  has_shape 256 16 16 st.1 → _decode_sections sections st = Ok st' →
  has_shape 256 16 16 st'.1.
Proof.
  revert st. induction sections as [|s sections IH]; intros st Hst Hdec;
    simpl in Hdec.
  - by injection Hdec as <-.
  - inv_ok. eapply IH; [|done]. by eapply decode_section_shape.
Qed.
End decode_blocks_shape_invariant.

(** ** numpy.unique *)

Section unique_properties.
Context {A : Type} {A_eq_dec : EqDecision A} {A_order : PyOrder A}.

Lemma elem_of_insert_sorted (x y : A) (l : list A) :
  y ∈ insert_sorted x l ↔ y = x ∨ y ∈ l.
Proof.
  induction l as [|z l IH]; simpl.
  - rewrite list_elem_of_singleton, elem_of_nil. naive_solver.
  - destruct (decide (x = z)) as [->|Hne].
    { rewrite !elem_of_cons. naive_solver. }
    destruct (py_le x z).
    { rewrite !elem_of_cons. naive_solver. }
    rewrite !elem_of_cons, IH. naive_solver.
Qed.

Lemma elem_of_unique (x : A) (l : list A) : x ∈ unique l ↔ x ∈ l.
Proof.
  induction l as [|y l IH]; simpl; [done|].
  rewrite elem_of_insert_sorted, IH, elem_of_cons. naive_solver.
Qed.

Lemma insert_sorted_ascending (x : A) (l : list A) :
  ascending l → ascending (insert_sorted x l).
Proof.
  unfold ascending. induction 1 as [|z l Hl IH Hz]; simpl.
  - repeat constructor.
  - destruct (decide (x = z)) as [->|Hne]; [by constructor|].
    destruct (py_le x z) eqn:Hxz.
    + constructor; [by constructor|]. constructor; [done|].
      eapply Forall_impl; [exact Hz|]. intros w [Hzw Hne']. split.
      * by eapply py_le_trans.
      * intros ->. apply Hne. by apply py_le_antisym.
    + constructor; [done|]. apply Forall_forall. intros w Hw.
      apply elem_of_insert_sorted in Hw as [->|Hw].
      * split; [|done]. by destruct (py_le_total x z) as [Hle|Hle]; [congruence|].
      * rewrite Forall_forall in Hz. by apply Hz.
Qed.

Lemma unique_ascending (l : list A) : ascending (unique l).
Proof.
  induction l as [|x l IH]; simpl; [constructor|].
  by apply insert_sorted_ascending.
Qed.

Lemma ascending_NoDup (l : list A) : ascending l → NoDup l.
Proof.
  induction 1 as [|x l Hl IH Hx]; constructor; [|done].
  intros Hin. rewrite Forall_forall in Hx. by destruct (Hx x Hin).
Qed.

Lemma unique_NoDup (l : list A) : NoDup (unique l).
Proof. apply ascending_NoDup, unique_ascending. Qed.

Lemma index_of_lookup (x : A) (l : list A) :
  x ∈ l → l !! index_of x l = Some x.
Proof.
  induction l as [|y l IH]; simpl; [by intros ?%elem_of_nil|].
  destruct (decide (x = y)) as [->|Hne]; [done|].
  intros [?|?]%elem_of_cons; [done|]. by apply IH.
Qed.

Lemma unique_inverse_length (l : list A) :
  length (unique_inverse l).2 = length l.
Proof. unfold unique_inverse. simpl. by rewrite length_map. Qed.

Lemma unique_inverse_lookup (l : list A) i x :
  l !! i = Some x →
  (unique_inverse l).2 !! i = Some (index_of x (unique l)) ∧
  unique l !! index_of x (unique l) = Some x.
Proof.
  intros Hi. unfold unique_inverse. simpl. split.
  - by rewrite list_lookup_fmap, Hi.
  - apply index_of_lookup, elem_of_unique. by eapply list_elem_of_lookup_2.
Qed.
End unique_properties.

Lemma forallb3_all3 (f : nat → bool) (a : array3) :
  forallb (forallb (forallb f)) a = true ↔ all3 (fun v => f v = true) a.
Proof.
  unfold all3. rewrite forallb_forall, Forall_forall.
  setoid_rewrite <- list_elem_of_In.
  apply forall_proper; intros p. apply forall_proper; intros _.
  rewrite forallb_forall, Forall_forall. setoid_rewrite <- list_elem_of_In.
  apply forall_proper; intros r. apply forall_proper; intros _.
  rewrite forallb_forall, Forall_forall. by setoid_rewrite <- list_elem_of_In.
Qed.

Lemma all3_impl (P Q : nat → Prop) (a : array3) :
  all3 P a → (∀ v, P v → Q v) → all3 Q a.
Proof.
  unfold all3. intros Ha HPQ.
  eapply Forall_impl; [exact Ha|]. intros p Hp.
  eapply Forall_impl; [exact Hp|]. intros r Hr.
  eapply Forall_impl; [exact Hr|]. done.
Qed.

Lemma all3_map3 (P : nat → Prop) (f : nat → nat) (a : array3) :
  all3 P (map (map (map f)) a) ↔ all3 (fun v => P (f v)) a.
Proof.
  unfold all3. rewrite Forall_map. apply Forall_iff. intros p. simpl.
  rewrite Forall_map. apply Forall_iff. intros r. simpl.
  by rewrite Forall_map.
Qed.

Lemma all3_get3 d0 d1 d2 (P : nat → Prop) a i j k :
  has_shape d0 d1 d2 a → all3 P a → i < d0 → j < d1 → k < d2 →
  P (get3 a i j k).
Proof.
  intros Ha Hall Hi Hj Hk. unfold get3, all3 in *.
  destruct (has_shape_nth _ _ _ _ i Ha Hi) as [Hp Hrows].
  rewrite !Forall_forall in Hall. rewrite Forall_forall in Hrows.
  assert (nth i a [] ∈ a) as Hpin
    by (apply list_elem_of_In, nth_In; destruct Ha; lia).
  assert (nth j (nth i a []) [] ∈ nth i a []) as Hrin
    by (apply list_elem_of_In, nth_In; lia).
  specialize (Hall _ Hpin). rewrite Forall_forall in Hall.
  specialize (Hall _ Hrin). rewrite Forall_forall in Hall.
  apply Hall, list_elem_of_In, nth_In. rewrite (Hrows _ Hrin). lia.
Qed.

Lemma take_along_Ok index a a' :
  take_along index a = Ok a' →
  a' = map (map (map (fun v => nth v index 0))) a ∧
  all3 (fun v => v < length index) a.
Proof.
  unfold take_along. destruct (forallb _ a) eqn:Hall; [|done].
  intros [= <-]. split; [done|].
  apply forallb3_all3 in Hall. eapply all3_impl; [exact Hall|].
  intros v. by rewrite Nat.ltb_lt.
Qed.

Section decode_blocks_result.
Context {imports : Imports} {block_order : PyOrder Block}.

Lemma stitched_shape chunk_sections st :
  stitched chunk_sections = Ok st → has_shape 256 16 16 st.1.
Proof.
  unfold stitched. intros Hst. inv_ok.
  eapply decode_sections_shape; [|done]. apply has_shape_zeros3.
Qed.

(** What [_decode_blocks] returns, in terms of the volume and the running
    palette its loop built. *)
Lemma decode_blocks_Ok chunk_sections blocks palette :
  _decode_blocks chunk_sections = Ok (blocks, palette) →
  ∃ st indexed,
    stitched chunk_sections = Ok st ∧
    palette = unique st.2 ∧
    all3 (fun v => v < length st.2) (swapaxes (swapaxes st.1 0 1) 0 2) ∧
    indexed = map (map (map (fun v => nth v (unique_inverse st.2).2 0)))
                  (swapaxes (swapaxes st.1 0 1) 0 2) ∧
    blocks = astype_uint (get_smallest_dtype indexed) indexed.
Proof.
  unfold _decode_blocks, stitched. intros Hdec.
  apply bind_Ok in Hdec as (sections & -> & Hdec). simpl.
  destruct sections as [|s sections]; [done|].
  apply bind_Ok in Hdec as (st & -> & Hdec).
  destruct (unique_inverse st.2) as [u inverse] eqn:Hu.
  apply bind_Ok in Hdec as (indexed & Hind & [= <- <-]).
  apply take_along_Ok in Hind as [-> Hall].
  assert (inverse = (unique_inverse st.2).2) as -> by (by rewrite Hu).
  assert (u = unique st.2) as -> by (by injection Hu).
  rewrite unique_inverse_length in Hall.
  by eexists st, _.
Qed.
End decode_blocks_result.

Lemma has_shape_swapaxes_01_02 a :
  has_shape 256 16 16 a → has_shape 16 256 16 (swapaxes (swapaxes a 0 1) 0 2).
Proof.
  intros Ha. unfold swapaxes at 2.
  rewrite (shape3_has_shape 256 16 16) by (done || lia).
  unfold swapaxes.
  rewrite (shape3_has_shape 16 256 16) by (apply has_shape_tabulate3 || lia).
  apply has_shape_tabulate3.
Qed.

Section decode_properties.
Context {imports : Imports} {block_order : PyOrder Block}.

Lemma decode_blocks_of data chunk palette :
  decode data = Ok (chunk, palette) →
  ∃ sections,
    stored_sections data = Ok sections ∧
    _decode_blocks sections = Ok (blocks chunk, palette).
Proof.
  unfold decode, stored_sections. intros Hdec.
  apply bind_Ok in Hdec as (level & -> & Hdec). simpl.
  apply bind_Ok in Hdec as (cx & _ & Hdec).
  apply bind_Ok in Hdec as (cz & _ & Hdec).
  apply bind_Ok in Hdec as (sections & -> & Hdec).
  apply bind_Ok in Hdec as ([blocks palette'] & Hblocks & Hdec).
  exists sections. split; [done|].
  inv_ok. by subst.
Qed.

(** Every index of the volume [_decode_blocks] returns is a position of the
    palette it returns, and that palette has no repeated descriptor. *)
Lemma decode_blocks_indices_valid chunk_sections blocks palette :
  _decode_blocks chunk_sections = Ok (blocks, palette) →
  all3 (fun v => v < length palette) blocks ∧ NoDup palette.
Proof.
  intros (st & indexed & Hst & -> & Hall & -> & ->)%decode_blocks_Ok.
  split; [|apply unique_NoDup].
  unfold astype_uint. rewrite !all3_map3.
  eapply all3_impl; [exact Hall|]. intros v Hv. simpl.
  destruct (lookup_lt_is_Some_2 st.2 v Hv) as [b Hb].
  destruct (unique_inverse_lookup st.2 v b Hb) as [Hinv Hu].
  rewrite (nth_lookup_Some _ _ _ _ Hinv).
  apply lookup_lt_Some in Hu.
  eapply Nat.le_lt_trans; [|exact Hu].
  apply Nat.Div0.mod_le.
Qed.

(** C5: for every decode result, every index present in the returned voxel
    volume is a valid index into the returned palette, and no two distinct
    indices of the returned palette hold equal Block descriptors. *)
Theorem decode_indices_valid data chunk palette :
  decode data = Ok (chunk, palette) →
  all3 (fun v => v < length palette) (blocks chunk) ∧ NoDup palette.
Proof.
  intros (sections & _ & Hblocks)%decode_blocks_of.
  by eapply decode_blocks_indices_valid.
Qed.

(** C9, as amended: the axis reordering maps the storage-ordered volume,
    whose outer axis is height, then z, then x, onto the public order
    (x, y, z).  The public voxel at (x, y, z), before the final cast of the
    element type, is the position in the returned palette of the descriptor
    that the storage-order voxel at (y, z, x) denotes in the running
    palette. *)
Theorem decode_axis_order data chunk palette :
  decode data = Ok (chunk, palette) →
  ∃ st indexed,
    stored_sections data ≫= stitched = Ok st ∧
    palette = unique st.2 ∧
    blocks chunk = astype_uint (get_smallest_dtype indexed) indexed ∧
    ∀ x y z, x < 16 → y < 256 → z < 16 →
      get3 st.1 y z x < length st.2 ∧
      get3 indexed x y z = index_of (nth (get3 st.1 y z x) st.2 air) palette.
Proof.
  intros (sections & Hsec & Hblocks)%decode_blocks_of.
  apply decode_blocks_Ok in Hblocks
    as (st & indexed & Hst & -> & Hall & -> & Hblocks).
  eexists st, _. rewrite Hsec. simpl. split_and!; [done..|].
  intros x y z Hx Hy Hz.
  pose proof (stitched_shape _ _ Hst) as Hshape.
  pose proof (has_shape_swapaxes_01_02 _ Hshape) as Hshape'.
  pose proof (all3_get3 _ _ _ _ _ x y z Hshape' Hall Hx Hy Hz) as Hlt.
  simpl in Hlt. rewrite swapaxes_01_02 in Hlt by done.
  split; [done|].
  rewrite (get3_map3 16 256 16) by done.
  rewrite swapaxes_01_02 by done.
  unfold unique_inverse. simpl.
  by rewrite (nth_map_lt _ _ _ air).
Qed.
End decode_properties.

Lemma decode_indices_valid_witness :
  returns (reference_decode (sample_record [stone_section]))
    (fun r => all3 (fun v => v < length r.2) (blocks r.1) ∧ NoDup r.2).
Proof.
  apply returns_intro; [vm_compute; reflexivity|].
  intros [chunk palette] Hdec.
  exact (decode_indices_valid (imports := reference_imports)
           (block_order := reference_block_order) _ _ _ Hdec).
Defined.

Lemma decode_axis_order_witness :
  returns (reference_decode (sample_record [one_stone_section]))
    (fun r =>
       ∃ st indexed,
         stored_sections (sample_record [one_stone_section])
           ≫= stitched (imports := reference_imports)
         = Ok st ∧
         r.2 = unique (A_order := reference_block_order) st.2 ∧
         blocks r.1 = astype_uint (reference_get_smallest_dtype indexed) indexed ∧
         ∀ x y z, x < 16 → y < 256 → z < 16 →
           get3 st.1 y z x < length st.2 ∧
           get3 indexed x y z = index_of (nth (get3 st.1 y z x) st.2 air) r.2).
Proof.
  apply returns_intro; [vm_compute; reflexivity|].
  intros [chunk palette] Hdec.
  exact (decode_axis_order (imports := reference_imports)
           (block_order := reference_block_order) _ _ _ Hdec).
Defined.

(** C9, as stated, fails: in the record whose only stone voxel is stored at
    storage position (0, 0, 1), the public voxel at (x, y, z) = (1, 0, 0) is
    stone, while the storage-order voxel at (y, x, z) = (0, 1, 0) is air; the
    stone is the storage-order voxel at (y, z, x) = (0, 0, 1). *)
Lemma decode_axis_order_counterexample :
  (fun r => r.2 !! get3 (blocks r.1) 1 0 0)
    <$> reference_decode (sample_record [one_stone_section])
  = Ok (Some stone) ∧
  (fun st => (st.2 !! get3 st.1 0 1 0, st.2 !! get3 st.1 0 0 1))
    <$> stitched (imports := reference_imports)
          (TAG_List [one_stone_section])
  = Ok (Some air, Some stone).
Proof. split; vm_compute; reflexivity. Qed.

(** ** Slabs *)

Lemma has_shape_lookup d0 d1 d2 a i p :
  has_shape d0 d1 d2 a → a !! i = Some p →
  length p = d1 ∧ ∀ j r, p !! j = Some r → length r = d2.
Proof.
  intros [_ Hall] Hp. rewrite Forall_forall in Hall.
  destruct (Hall p) as [Hlen Hrows]; [by eapply list_elem_of_lookup_2|].
  split; [done|]. intros j r Hr. rewrite Forall_forall in Hrows.
  apply Hrows. by eapply list_elem_of_lookup_2.
Qed.

Lemma elem_of_concat {A} (x : A) (ls : list (list A)) :
  x ∈ concat ls ↔ ∃ l, l ∈ ls ∧ x ∈ l.
Proof.
  rewrite list_elem_of_In, in_concat.
  by setoid_rewrite list_elem_of_In.
Qed.

Lemma get3_lookup a i j k p r v :
  a !! i = Some p → p !! j = Some r → r !! k = Some v → get3 a i j k = v.
Proof.
  intros Hp Hr Hv. unfold get3.
  by rewrite (nth_lookup_Some _ _ _ _ Hp), (nth_lookup_Some _ _ _ _ Hr),
    (nth_lookup_Some _ _ _ _ Hv).
Qed.

(** The elements of the slab [y] as [_encode_blocks] flattens it. *)
Lemma elem_of_slab blocks y v :
  has_shape 16 256 16 blocks → y < 16 →
  v ∈ ravel (slice_axis1 blocks (y * 16) (y * 16 + 16)) ↔
  ∃ x yy z, x < 16 ∧ yy < 16 ∧ z < 16 ∧ v = get3 blocks x (y * 16 + yy) z.
Proof.
  intros Hshape Hy. unfold ravel, slice_axis1.
  replace (y * 16 + 16 - y * 16) with 16 by lia.
  rewrite elem_of_concat. setoid_rewrite elem_of_concat.
  setoid_rewrite list_elem_of_fmap. split.
  - intros (r & (p' & (p & -> & Hp) & Hr) & Hv).
    apply list_elem_of_lookup in Hp as [x Hp].
    apply list_elem_of_lookup in Hr as [yy Hr].
    apply list_elem_of_lookup in Hv as [z Hv].
    destruct (has_shape_lookup _ _ _ _ _ _ Hshape Hp) as [Hlen Hrows].
    apply lookup_take_Some in Hr as [Hr Hyy]. rewrite lookup_drop in Hr.
    exists x, yy, z. split_and!.
    + apply lookup_lt_Some in Hp. destruct Hshape. lia.
    + done.
    + apply lookup_lt_Some in Hv. by rewrite (Hrows _ _ Hr) in Hv.
    + symmetry. by eapply get3_lookup.
  - intros (x & yy & z & Hx & Hyy & Hz & ->).
    destruct (lookup_lt_is_Some_2 blocks x) as [p Hp];
      [destruct Hshape; lia|].
    destruct (has_shape_lookup _ _ _ _ _ _ Hshape Hp) as [Hlen Hrows].
    destruct (lookup_lt_is_Some_2 p (y * 16 + yy)) as [r Hr]; [lia|].
    destruct (lookup_lt_is_Some_2 r z) as [v Hv];
      [by rewrite (Hrows _ _ Hr)|].
    rewrite (get3_lookup _ _ _ _ _ _ _ Hp Hr Hv).
    exists r. split; [|by eapply list_elem_of_lookup_2].
    exists (take 16 (drop (y * 16) p)). split.
    + exists p. split; [done|]. by eapply list_elem_of_lookup_2.
    + apply (list_elem_of_lookup_2 _ yy).
      by rewrite lookup_take_lt, lookup_drop.
Qed.

(** ** Association lists *)

Lemma assoc_get_set_eq k v kvs : assoc_get k (assoc_set k v kvs) = Some v.
Proof.
  induction kvs as [|[k' v'] kvs IH]; simpl.
  - by rewrite String.eqb_refl.
  - destruct (String.eqb_spec k k') as [->|Hne]; simpl.
    + by rewrite String.eqb_refl.
    + by destruct (String.eqb_spec k k').
Qed.

Lemma assoc_get_set_ne k k' v kvs :
  k ≠ k' → assoc_get k (assoc_set k' v kvs) = assoc_get k kvs.
Proof.
  intros Hne. induction kvs as [|[k'' v''] kvs IH]; simpl.
  - by destruct (String.eqb_spec k k').
  - destruct (String.eqb_spec k' k'') as [->|Hne']; simpl.
    + destruct (String.eqb_spec k k''); [done|]. done.
    + destruct (String.eqb_spec k k''); [done|]. done.
Qed.

(** ** Encoding the blocks *)

Lemma take_palette_Ok (palette : list Block) index used :
  take_palette palette index = Ok used ↔
  Forall2 (fun i b => palette !! i = Some b) index used.
Proof.
  unfold take_palette. revert used.
  induction index as [|i index IH]; intros used; simpl.
  - split; [by intros [= <-]|by intros ->%Forall2_nil_inv_l].
  - split.
    + intros Hm. apply bind_Ok in Hm as (b & Hb & Hm).
      apply bind_Ok in Hm as (bs & Hbs & [= <-]).
      destruct (palette !! i) eqn:Hi; [|done]. injection Hb as ->.
      constructor; [done|]. by apply IH.
    + intros (b & bs & Hb & Hbs & ->)%Forall2_cons_inv_l.
      rewrite Hb. simpl. apply IH in Hbs. by rewrite Hbs.
Qed.

Lemma unique_constant (x : nat) (l : list nat) :
  Forall (fun v => v = x) l → l ≠ [] → unique l = [x].
Proof.
  induction 1 as [|v l -> Hl IH]; [done|]. intros _. simpl.
  destruct l as [|w l]; [done|].
  rewrite IH by done. simpl. by rewrite decide_True.
Qed.

Section encode_blocks.
Context {imports : Imports}.

(** What [_encode_section] returns: nothing when the slab uses a single
    descriptor named minecraft:air, and otherwise the record of the slab. *)
Lemma encode_section_Ok blocks palette y r :
  _encode_section blocks palette y = Ok r →
  ∃ used,
    take_palette palette (unique (slab_of blocks y)) = Ok used ∧
    ((r = None ∧
      ∃ b, used = [b] ∧ namespace b +:+ ":" +:+ base_name b = "minecraft:air") ∨
     (∃ long_array,
        encode_long_array (unique_inverse (slab_of blocks y)).2 = Ok long_array ∧
        r = Some (section_record y long_array (_encode_palette used)) ∧
        ¬ ∃ b, used = [b] ∧
               namespace b +:+ ":" +:+ base_name b = "minecraft:air")).
Proof.
  unfold _encode_section. fold (slab_of blocks y).
  destruct (unique_inverse (slab_of blocks y)) as [u inverse] eqn:Hu.
  assert (u = unique (slab_of blocks y)) as -> by (by injection Hu).
  intros Henc. apply bind_Ok in Henc as (used & Hused & Henc).
  exists used. split; [done|]. cbv zeta in Henc.
  apply bind_Ok in Henc as (is_air & Hair & Henc).
  assert (is_air = true ↔
          ∃ b, used = [b] ∧
               namespace b +:+ ":" +:+ base_name b = "minecraft:air") as Hiff.
  { destruct used as [|b [|b' used]]; simpl in Hair.
    - injection Hair as <-. split; [done|]. by intros (? & [=] & _).
    - injection Hair as <-. rewrite bool_decide_eq_true. split.
      + intros Hn. by exists b.
      + by intros (? & [= <-] & ?).
    - injection Hair as <-. split; [done|]. by intros (? & [=] & _). }
  destruct is_air.
  - left. injection Henc as <-. split; [done|]. by apply Hiff.
  - right. apply bind_Ok in Henc as (long_array & Hlong & [= <-]).
    exists long_array. split_and!; [done..|].
    intros Hb. apply Hiff in Hb. done.
Qed.

Lemma encode_sections_Ok blocks palette ys sections section :
  _encode_sections blocks palette ys = Ok sections →
  section ∈ sections ↔
  ∃ y, y ∈ ys ∧ _encode_section blocks palette y = Ok (Some section).
Proof.
  revert sections. induction ys as [|y ys IH]; intros sections Henc;
    simpl in Henc.
  - injection Henc as <-. split; [by intros ?%elem_of_nil|].
    by intros (? & ?%elem_of_nil & _).
  - apply bind_Ok in Henc as (r & Hr & Henc).
    apply bind_Ok in Henc as (rest & Hrest & [= <-]).
    specialize (IH rest Hrest). destruct r as [s|].
    + rewrite elem_of_cons, IH. split.
      * intros [->|(y' & Hy' & Hs)].
        -- exists y. split; [left|done].
        -- exists y'. split; [by right|done].
      * intros (y' & [->|Hy']%elem_of_cons & Hs).
        -- left. congruence.
        -- right. by exists y'.
    + rewrite IH. split.
      * intros (y' & Hy' & Hs). exists y'. split; [by right|done].
      * intros (y' & [->|Hy']%elem_of_cons & Hs); [congruence|].
        by exists y'.
Qed.

Lemma encode_blocks_Ok blocks palette sections section :
  _encode_blocks blocks palette = Ok sections →
  section ∈ sections ↔
  ∃ y, y < 16 ∧ _encode_section blocks palette y = Ok (Some section).
Proof.
  intros Henc. rewrite (encode_sections_Ok _ _ _ _ _ Henc).
  apply exist_proper. intros y. rewrite elem_of_seq. intuition lia.
Qed.
End encode_blocks.

Lemma ascending_nat_lt (l : list nat) : ascending l → StronglySorted lt l.
Proof.
  unfold ascending. induction 1 as [|x l Hl IH Hx]; constructor; [done|].
  eapply Forall_impl; [exact Hx|]. simpl. intros y [Hle Hne].
  apply Nat.leb_le in Hle. lia.
Qed.

Section encode_properties.
Context {imports : Imports}.

(** C4, as amended: the palette of every emitted section holds exactly the
    descriptors of the global-palette indices that occur in the slab, listed
    in ascending order of their index in the global palette (the order of
    [numpy.unique]), not in the order of their first appearance in the
    slab. *)
Theorem section_palette_sorted blocks palette sections section :
  _encode_blocks blocks palette = Ok sections → section ∈ sections →
  ∃ y used,
    y < 16 ∧
    getitem section "Y" = Ok (TAG_Byte (Z.of_nat y)) ∧
    getitem section "Palette" = Ok (TAG_List (_encode_palette used)) ∧
    Forall2 (fun i b => palette !! i = Some b) (unique (slab_of blocks y)) used ∧
    StronglySorted lt (unique (slab_of blocks y)) ∧
    ∀ i, i ∈ unique (slab_of blocks y) ↔ i ∈ slab_of blocks y.
Proof.
  intros Henc Hin.
  apply (encode_blocks_Ok _ _ _ _ Henc) in Hin as (y & Hy & Hsec).
  apply encode_section_Ok in Hsec as (used & Hused & Hcase).
  destruct Hcase as [[[=] _]|(long_array & _ & [= ->] & _)].
  exists y, used. split_and!; try done.
  - by apply take_palette_Ok.
  - apply ascending_nat_lt, unique_ascending.
  - intros i. apply elem_of_unique.
Qed.

(** C7, as amended: encode emits no section for a slab all of whose voxels
    resolve to the air descriptor, when the palette lists no descriptor twice
    or the voxels of the slab all carry the same index: every such slab is
    omitted from the section list.  The test of [_encode_blocks] counts the
    distinct indices of the slab, not the distinct descriptors. *)
Theorem air_slab_omitted blocks palette sections y :
  has_shape 16 256 16 blocks →
  _encode_blocks blocks palette = Ok sections → y < 16 →
  (∀ x yy z, x < 16 → yy < 16 → z < 16 →
     palette !! get3 blocks x (y * 16 + yy) z = Some air) →
  (NoDup palette ∨
   ∃ i, ∀ x yy z, x < 16 → yy < 16 → z < 16 →
          get3 blocks x (y * 16 + yy) z = i) →
  Forall (fun section => getitem section "Y" ≠ Ok (TAG_Byte (Z.of_nat y)))
         sections.
Proof.
  intros Hshape Henc Hy Hair Hone. apply Forall_forall. intros section Hin HY.
  apply (encode_blocks_Ok _ _ _ _ Henc) in Hin as (y' & Hy' & Hsec).
  apply encode_section_Ok in Hsec as (used & Hused & Hcase).
  destruct Hcase as [[[=] _]|(long_array & _ & [= ->] & Hnot)].
  simpl in HY. injection HY as HY. apply Nat2Z.inj in HY. subst y'.
  apply Hnot. exists air. split; [|done].
  set (i0 := get3 blocks 0 (y * 16 + 0) 0).
  assert (palette !! i0 = Some air) as Hi0 by (apply Hair; lia).
  assert (Forall (fun v => v = i0) (slab_of blocks y)) as Hall.
  { apply Forall_forall. intros v Hv.
    apply elem_of_slab in Hv as (x & yy & z & Hx & Hyy & Hz & ->); [|done..].
    destruct Hone as [Hnodup|[i Hi]].
    - eapply NoDup_lookup; [done| |done]. by apply Hair.
    - unfold i0. rewrite !Hi by lia. done. }
  assert (slab_of blocks y ≠ []) as Hne.
  { intros Hnil. assert (i0 ∈ slab_of blocks y) as Hi.
    { apply elem_of_slab; [done..|]. exists 0, 0, 0. split_and!; (lia || done). }
    rewrite Hnil in Hi. by apply elem_of_nil in Hi. }
  rewrite (unique_constant i0) in Hused by done.
  apply take_palette_Ok in Hused.
  apply Forall2_cons_inv_l in Hused as (b & bs & Hb & Hbs & ->).
  apply Forall2_nil_inv_l in Hbs as ->. congruence.
Qed.
End encode_properties.

Lemma section_palette_sorted_witness :
  returns (reference_encode_blocks corner_blocks [air; stone])
    (fun sections =>
       Forall (fun section =>
                 ∃ y used,
                   y < 16 ∧
                   getitem section "Y" = Ok (TAG_Byte (Z.of_nat y)) ∧
                   getitem section "Palette"
                   = Ok (TAG_List (_encode_palette used)) ∧
                   Forall2 (fun i b => [air; stone] !! i = Some b)
                     (unique (slab_of corner_blocks y)) used ∧
                   StronglySorted lt (unique (slab_of corner_blocks y)) ∧
                   ∀ i, i ∈ unique (slab_of corner_blocks y)
                        ↔ i ∈ slab_of corner_blocks y)
              sections).
Proof.
  apply returns_intro; [vm_compute; reflexivity|].
  intros sections Henc. apply Forall_forall. intros section Hin.
  exact (section_palette_sorted (imports := reference_imports)
           _ _ _ _ Henc Hin).
Defined.

Lemma air_slab_omitted_witness :
  returns (reference_encode_blocks corner_blocks [air; stone])
    (fun sections =>
       Forall (fun section => getitem section "Y" ≠ Ok (TAG_Byte (Z.of_nat 1)))
              sections).
Proof.
  apply returns_intro; [vm_compute; reflexivity|].
  intros sections Henc.
  apply (air_slab_omitted (imports := reference_imports)
           corner_blocks [air; stone] sections 1).
  - apply has_shape_tabulate3.
  - exact Henc.
  - lia.
  - intros x yy z Hx Hyy Hz. unfold corner_blocks.
    rewrite get3_tabulate3 by lia.
    replace (1 * 16 + yy =? 0) with false by (symmetry; apply Nat.eqb_neq; lia).
    by rewrite andb_false_r.
  - left.
    by apply NoDup_cons_2; [rewrite list_elem_of_singleton|apply NoDup_singleton].
Defined.

(** C7, as stated, fails: with a palette that lists air twice, every voxel
    of the slab 0 of [corner_blocks] resolves to air, one voxel through the
    index 1 and the others through the index 0, and a section is emitted for
    the slab, with the palette air, air. *)
Lemma air_slab_omitted_counterexample :
  (∀ x yy z, x < 16 → yy < 16 → z < 16 →
     [air; air] !! get3 corner_blocks x (0 * 16 + yy) z = Some air) ∧
  get3 corner_blocks 0 (0 * 16 + 0) 0 = 1 ∧
  get3 corner_blocks 1 (0 * 16 + 0) 0 = 0 ∧
  reference_encode_blocks corner_blocks [air; air]
    ≫= mapM (fun section =>
               y ← getitem section "Y";
               sub_palette ← getitem section "Palette";
               Ok (y, sub_palette))
  = Ok [(TAG_Byte 0, TAG_List (_encode_palette [air; air]))].
Proof.
  split_and!; [|vm_compute; reflexivity..].
  intros x yy z Hx Hyy Hz. unfold corner_blocks.
  rewrite get3_tabulate3 by lia.
  by destruct ((x =? 0) && (0 * 16 + yy =? 0) && (z =? 0)).
Qed.

(** C4, as stated, fails: in the slab 0 of [corner_blocks] stone (index 1)
    appears first and air (index 0) second, and the emitted palette lists
    air before stone. *)
Lemma section_palette_counterexample :
  first_appearance (slab_of corner_blocks 0) = [1; 0] ∧
  reference_encode_blocks corner_blocks [air; stone]
    ≫= mapM (fun section => getitem section "Palette")
  = Ok [TAG_List (_encode_palette [air; stone])].
Proof. split; vm_compute; reflexivity. Qed.

(** ** Light arrays and heightmaps *)

Lemma getitem_setitem_eq t k v t' :
  setitem t k v = Ok t' → getitem t' k = Ok v.
Proof.
  destruct t; try done. intros [= <-]. simpl. by rewrite assoc_get_set_eq.
Qed.

Lemma getitem_setitem_ne t k k' v t' :
  k ≠ k' → setitem t k' v = Ok t' → getitem t' k = getitem t k.
Proof.
  intros Hne. destruct t; try done. intros [= <-]. simpl.
  by rewrite assoc_get_set_ne.
Qed.

(** What [encode] attaches to a section: the array [misc] holds for the slab
    under the keys BlockLight2048 and SkyLight2048, and zeros otherwise. *)
Lemma attach_light_Ok misc section section' :
  attach_light misc section = Ok section' →
  ∃ y block_light sky_light,
    getitem section "Y" ≫= int_value = Ok y ∧
    misc_get_dict misc "BlockLight2048" = Ok block_light ∧
    misc_get_dict misc "SkyLight2048" = Ok sky_light ∧
    getitem section' "BlockLight"
      = Ok (from_option id zero_light (block_light !! y)) ∧
    getitem section' "SkyLight"
      = Ok (from_option id zero_light (sky_light !! y)) ∧
    ∀ k, k ≠ "BlockLight" → k ≠ "SkyLight" →
         getitem section' k = getitem section k.
Proof.
  unfold attach_light. intros Hat.
  apply bind_Ok in Hat as (y & Hy & Hat).
  apply bind_Ok in Hat as (block_light & Hbl & Hat).
  apply bind_Ok in Hat as (sky_light & Hsl & Hat).
  apply bind_Ok in Hat as (section1 & Hs1 & Hs2).
  exists y, block_light, sky_light. split_and!; try done.
  - assert ("BlockLight" ≠ "SkyLight") as Hne by done.
    rewrite (getitem_setitem_ne _ _ _ _ _ Hne Hs2).
    by eapply getitem_setitem_eq.
  - by eapply getitem_setitem_eq.
  - intros k Hk1 Hk2.
    rewrite (getitem_setitem_ne _ _ _ _ _ Hk2 Hs2).
    by rewrite (getitem_setitem_ne _ _ _ _ _ Hk1 Hs1).
Qed.

Section encode_record.
Context {imports : Imports}.

(** The sections of an encoded record are those of [_encode_blocks] with
    their light arrays attached, and its heightmaps those of
    [encode_heightmaps]. *)
Lemma encode_Ok chunk palette version data :
  encode chunk palette version = Ok data →
  ∃ sections sections' heightmaps,
    _encode_blocks (blocks chunk) palette = Ok sections ∧
    mapM (attach_light (misc chunk)) sections = Ok sections' ∧
    sections_of data = Ok sections' ∧
    encode_heightmaps (misc chunk) = Ok heightmaps ∧
    (getitem data "Level" ≫= fun level => getitem level "Heightmaps")
      = Ok heightmaps.
Proof.
  unfold encode. intros Henc. cbv zeta in Henc.
  apply bind_Ok in Henc as (sections & Hsec & Henc).
  apply bind_Ok in Henc as (sections' & Hsec' & Henc).
  apply bind_Ok in Henc as (tile_ticks & _ & Henc).
  apply bind_Ok in Henc as (last_update & _ & Henc).
  apply bind_Ok in Henc as (inhabited_time & _ & Henc).
  apply bind_Ok in Henc as (status & _ & Henc).
  apply bind_Ok in Henc as (heightmaps & Hhm & Henc).
  apply bind_Ok in Henc as (to_be_ticked & _ & Henc).
  apply bind_Ok in Henc as (post_processing & _ & Henc).
  apply bind_Ok in Henc as (structures & _ & Henc).
  apply bind_Ok in Henc as (liquid_ticks & _ & Henc).
  apply bind_Ok in Henc as (liquids_to_be_ticked & _ & [= <-]).
  by exists sections, sections', heightmaps.
Qed.
End encode_record.

Lemma encode_heightmaps_Ok misc heightmaps :
  encode_heightmaps misc = Ok heightmaps →
  Forall (fun name =>
            getitem heightmaps name
            = Ok (from_option id zero_heightmap (stored_heightmap misc name)))
         heightmap_names.
Proof.
  unfold encode_heightmaps, stored_heightmap.
  destruct (misc !! "HeightmapsC") as [[t|d]|]; simpl.
  - destruct t; try done. simpl. intros [= <-].
    repeat constructor.
  - intros [= <-]. repeat constructor.
  - intros [= <-]. repeat constructor.
Qed.

Section decode_record.
Context {imports : Imports} {block_order : PyOrder Block}.

(** The steps of a successful [decode]. *)
Lemma decode_Ok data chunk palette :
  decode data = Ok (chunk, palette) →
  ∃ level sections section_list block_light sky_light,
    getitem data "Level" = Ok level ∧
    getitem level "Sections" = Ok sections ∧
    _decode_blocks sections = Ok (blocks chunk, palette) ∧
    iter sections = Ok section_list ∧
    light_dict "BlockLight" section_list ∅ = Ok block_light ∧
    light_dict "SkyLight" section_list ∅ = Ok sky_light ∧
    misc chunk !! "BlockLight2048BA" = Some (MiscDict block_light) ∧
    misc chunk !! "SkyLight2048BA" = Some (MiscDict sky_light) ∧
    misc chunk !! "BlockLight2048" = None ∧
    misc chunk !! "SkyLight2048" = None ∧
    Forall (fun key => is_ok (getitem level key) = true) auxiliary_fields.
Proof.
  unfold decode. intros Hdec.
  apply bind_Ok in Hdec as (level & Hlevel & Hdec).
  apply bind_Ok in Hdec as (cx & _ & Hdec).
  apply bind_Ok in Hdec as (cz & _ & Hdec).
  apply bind_Ok in Hdec as (sections & Hsections & Hdec).
  apply bind_Ok in Hdec as ([blocks' palette'] & Hblocks & Hdec).
  apply bind_Ok in Hdec as (section_list & Hiter & Hdec).
  apply bind_Ok in Hdec as (block_light & Hbl & Hdec).
  apply bind_Ok in Hdec as (sky_light & Hsl & Hdec).
  apply bind_Ok in Hdec as (tile_ticks & H1 & Hdec).
  apply bind_Ok in Hdec as (last_update & H2 & Hdec).
  apply bind_Ok in Hdec as (biomes & H3 & Hdec).
  apply bind_Ok in H3 as (biomes_tag & H3 & _).
  apply bind_Ok in Hdec as (inhabited_time & H4 & Hdec).
  apply bind_Ok in Hdec as (status & H5 & Hdec).
  apply bind_Ok in Hdec as (heightmaps & H6 & Hdec).
  apply bind_Ok in Hdec as (to_be_ticked & H7 & Hdec).
  apply bind_Ok in Hdec as (post_processing & H8 & Hdec).
  apply bind_Ok in Hdec as (structures & H9 & Hdec).
  apply bind_Ok in Hdec as (liquid_ticks & H10 & Hdec).
  apply bind_Ok in Hdec as (liquids_to_be_ticked & H11 & Hdec).
  apply bind_Ok in Hdec as (entities & H12 & Hdec).
  apply fmap_Ok in H12 as (entities_tag & H12 & _).
  cbv zeta in Hdec. injection Hdec as <- <-. simpl.
  exists level, sections, section_list, block_light, sky_light.
  split_and!; try done.
  unfold auxiliary_fields. repeat constructor.
  all: first [by rewrite H1|by rewrite H2|by rewrite H3|by rewrite H4
             |by rewrite H5|by rewrite H6|by rewrite H7|by rewrite H8
             |by rewrite H9|by rewrite H10|by rewrite H11|by rewrite H12].
Qed.
End decode_record.

Section light_and_heightmaps.
Context {imports : Imports} {block_order : PyOrder Block}.

(** Whatever light arrays [decode] kept, every section of a record encoded
    from the decoded chunk carries zero light arrays: [decode] keeps them
    under BlockLight2048BA and SkyLight2048BA, and [encode] looks under
    BlockLight2048 and SkyLight2048. *)
Lemma light_after_decode data chunk palette version data' sections :
  decode data = Ok (chunk, palette) →
  encode chunk palette version = Ok data' →
  sections_of data' = Ok sections →
  Forall (fun section => getitem section "BlockLight" = Ok zero_light ∧
                         getitem section "SkyLight" = Ok zero_light) sections.
Proof.
  intros Hdec Henc Hsec.
  apply decode_Ok in Hdec
    as (level & secs & section_list & kept_block & kept_sky &
        _ & _ & _ & _ & _ & _ & _ & _ & Hbl & Hsl & _).
  apply encode_Ok in Henc as (raw & sections' & _ & _ & Hat & Hsec' & _).
  rewrite Hsec' in Hsec. injection Hsec as <-.
  apply Forall_forall. intros section [i Hi]%list_elem_of_lookup.
  destruct (mapM_Ok_lookup _ _ _ _ _ Hat Hi) as (section0 & _ & Hsection).
  apply attach_light_Ok in Hsection
    as (y & block_light & sky_light & _ & Hbl' & Hsl' & -> & -> & _).
  unfold misc_get_dict in Hbl', Hsl'. rewrite Hbl in Hbl'. rewrite Hsl in Hsl'.
  injection Hbl' as <-. injection Hsl' as <-. by rewrite !lookup_empty.
Qed.

(** C6, as amended: on encode, each of the six named heightmap entries that
    is absent from the pass-through bag is emitted as an all-zero int64 array
    of length 36, and each present entry is passed through. *)
Theorem heightmap_defaults chunk palette version data :
  encode chunk palette version = Ok data →
  Forall (fun name =>
            heightmap_of data name
            = Ok (from_option id (TAG_Long_Array (repeat 0%Z 36))
                    (stored_heightmap (misc chunk) name)))
         heightmap_names.
Proof.
  intros (_ & _ & heightmaps & _ & _ & _ & Hhm & Hget)%encode_Ok.
  apply encode_heightmaps_Ok in Hhm.
  eapply Forall_impl; [exact Hhm|]. intros name Hname. simpl in Hname.
  unfold heightmap_of.
  apply bind_Ok in Hget as (level & -> & Hget). simpl. by rewrite Hget.
Qed.
End light_and_heightmaps.

Lemma heightmap_defaults_witness :
  reference_encode bare_chunk [air] ("anvil", 1631%Z) = Ok bare_encoded ∧
  Forall (fun name =>
            heightmap_of bare_encoded name
            = Ok (from_option id (TAG_Long_Array (repeat 0%Z 36))
                    (stored_heightmap (misc bare_chunk) name)))
         heightmap_names.
Proof.
  split; [vm_compute; reflexivity|].
  apply (heightmap_defaults (imports := reference_imports)
           bare_chunk [air] ("anvil", 1631%Z)).
  vm_compute. reflexivity.
Defined.

(** C6, as stated, fails: the array emitted for an absent heightmap has 36
    elements, not 37. *)
Lemma heightmap_defaults_counterexample :
  stored_heightmap (misc bare_chunk) "MOTION_BLOCKING" = None ∧
  (reference_encode bare_chunk [air] ("anvil", 1631%Z)
     ≫= fun data => heightmap_of data "MOTION_BLOCKING")
  = Ok (TAG_Long_Array (repeat 0%Z 36)) ∧
  length (repeat 0%Z 36) ≠ 37.
Proof. split_and!; [done|vm_compute; reflexivity|vm_compute; lia]. Qed.

(** C1 fails on the code: decoding the sample record keeps the BlockLight
    array of slab 0 (all 7) and its SkyLight array (all 15) in the bag, and
    encoding the decoded chunk emits section 0 with all-zero light arrays. *)
Theorem light_not_reattached :
  (fun r => (misc r.1 !! "BlockLight2048BA", misc r.1 !! "SkyLight2048BA"))
    <$> reference_decode (sample_record [stone_section])
  = Ok (Some (MiscDict {[0%Z := TAG_Byte_Array (repeat 7%Z 2048)]}),
        Some (MiscDict {[0%Z := TAG_Byte_Array (repeat 15%Z 2048)]})) ∧
  decode_encode (imports := reference_imports)
      (block_order := reference_block_order)
      (sample_record [stone_section]) ("anvil", 1631%Z)
    ≫= emitted_lights
  = Ok [(TAG_Byte 0, zero_light, zero_light)].
Proof. split; vm_compute; reflexivity. Qed.

(** ** Missing fields *)

Lemma assoc_get_filter_ne k key kvs :
  k ≠ key → assoc_get k (filter (fun kv => kv.1 ≠ key) kvs) = assoc_get k kvs.
Proof.
  intros Hne. induction kvs as [|[k' v] kvs IH]; [done|].
  rewrite filter_cons. simpl. destruct (decide (k' ≠ key)) as [Hk|Hk]; simpl.
  - by rewrite IH.
  - apply dec_stable in Hk. subst k'.
    by destruct (String.eqb_spec k key).
Qed.

Lemma assoc_get_filter_eq key kvs :
  assoc_get key (filter (fun kv => kv.1 ≠ key) kvs) = None.
Proof.
  induction kvs as [|[k' v] kvs IH]; [done|].
  rewrite filter_cons. simpl. destruct (decide (k' ≠ key)) as [Hk|Hk]; simpl.
  - by destruct (String.eqb_spec key k').
  - done.
Qed.

Lemma getitem_delitem_ne t k key :
  k ≠ key → getitem (delitem t key) k = getitem t k.
Proof.
  intros Hne. destruct t; try done. simpl. by rewrite assoc_get_filter_ne.
Qed.

Lemma contains_delitem_ne t k key :
  k ≠ key → contains (delitem t key) k = contains t k.
Proof.
  intros Hne. destruct t; try done. simpl. by rewrite assoc_get_filter_ne.
Qed.

Lemma getitem_delitem_eq t k v key :
  getitem t k = Ok v → getitem (delitem t key) key = Raise (KeyError key).
Proof.
  destruct t; try done. intros _. simpl. by rewrite assoc_get_filter_eq.
Qed.

Lemma getitem_without_field key data level :
  getitem data "Level" = Ok level →
  getitem (without_field key data) "Level" = Ok (delitem level key).
Proof.
  destruct data as [| | | | | | | | |kvs]; try done. simpl.
  destruct (assoc_get "Level" kvs) eqn:Hl; [|done]. intros [= ->].
  simpl. by rewrite assoc_get_set_eq.
Qed.

Section missing_fields.
Context {imports : Imports} {block_order : PyOrder Block}.

(** Dropping one auxiliary field from a record that decodes makes [decode]
    raise KeyError for that field. *)
Lemma decode_without_field data r :
  decode data = Ok r →
  Forall (fun key => decode (without_field key data) = Raise (KeyError key))
         auxiliary_fields.
Proof.
  unfold decode. intros Hdec.
  apply bind_Ok in Hdec as (level & Hlevel & Hdec).
  apply bind_Ok in Hdec as (cx & Hcx & Hdec).
  apply bind_Ok in Hdec as (cz & Hcz & Hdec).
  apply bind_Ok in Hdec as (sections & Hsections & Hdec).
  apply bind_Ok in Hdec as ([blocks' palette'] & Hblocks & Hdec).
  apply bind_Ok in Hdec as (section_list & Hiter & Hdec).
  apply bind_Ok in Hdec as (block_light & Hbl & Hdec).
  apply bind_Ok in Hdec as (sky_light & Hsl & Hdec).
  apply bind_Ok in Hdec as (tile_ticks & H1 & Hdec).
  apply bind_Ok in Hdec as (last_update & H2 & Hdec).
  apply bind_Ok in Hdec as (biomes & H3 & Hdec).
  apply bind_Ok in Hdec as (inhabited_time & H4 & Hdec).
  apply bind_Ok in Hdec as (status & H5 & Hdec).
  apply bind_Ok in Hdec as (heightmaps & H6 & Hdec).
  apply bind_Ok in Hdec as (to_be_ticked & H7 & Hdec).
  apply bind_Ok in Hdec as (post_processing & H8 & Hdec).
  apply bind_Ok in Hdec as (structures & H9 & Hdec).
  apply bind_Ok in Hdec as (liquid_ticks & H10 & Hdec).
  apply bind_Ok in Hdec as (liquids_to_be_ticked & H11 & Hdec).
  apply bind_Ok in Hdec as (entities & H12 & _).
  assert (∃ t, getitem level "Biomes" = Ok t) as [biomes_tag Hbiomes].
  { apply bind_Ok in H3 as (t & Ht & _). by exists t. }
  assert (∃ t, getitem level "Entities" = Ok t) as [entities_tag Hentities].
  { apply fmap_Ok in H12 as (t & Ht & _). by exists t. }
  unfold auxiliary_fields. repeat constructor.
  all: rewrite (getitem_without_field _ _ _ Hlevel); simpl.
  all: try rewrite (getitem_delitem_ne _ "xPos") by done.
  all: try rewrite (getitem_delitem_ne _ "zPos") by done.
  all: try rewrite (getitem_delitem_ne _ "Sections") by done.
  all: try rewrite (getitem_delitem_ne _ "TileTicks") by done.
  all: try rewrite (getitem_delitem_ne _ "LastUpdate") by done.
  all: try rewrite (getitem_delitem_ne _ "Biomes") by done.
  all: try rewrite (getitem_delitem_ne _ "InhabitedTime") by done.
  all: try rewrite (getitem_delitem_ne _ "Status") by done.
  all: try rewrite (getitem_delitem_ne _ "Heightmaps") by done.
  all: try rewrite (getitem_delitem_ne _ "ToBeTicked") by done.
  all: try rewrite (getitem_delitem_ne _ "PostProcessing") by done.
  all: try rewrite (getitem_delitem_ne _ "Structures") by done.
  all: try rewrite (getitem_delitem_ne _ "LiquidTicks") by done.
  all: try rewrite (getitem_delitem_ne _ "LiquidsToBeTicked") by done.
  all: try rewrite (getitem_delitem_ne _ "Entities") by done.
  all: rewrite Hcx, Hcz, Hsections; simpl; rewrite Hblocks; simpl.
  all: rewrite Hiter; simpl; rewrite Hbl; simpl; rewrite Hsl; simpl.
  all: rewrite ?H1, ?H2, ?H3, ?H4, ?H5, ?H6, ?H7, ?H8, ?H9, ?H10, ?H11; simpl.
  all: erewrite getitem_delitem_eq by done; done.
Qed.
End missing_fields.

Lemma bind_Ok_l {A B} (a : A) (f : A → result B) : Ok a ≫= f = f a.
Proof. done. Qed.

Lemma getitem_compound_set_eq k v kvs :
  getitem (TAG_Compound (assoc_set k v kvs)) k = Ok v.
Proof. simpl. by rewrite assoc_get_set_eq. Qed.

Lemma getitem_compound_set_ne k k' v kvs :
  k ≠ k' →
  getitem (TAG_Compound (assoc_set k' v kvs)) k = getitem (TAG_Compound kvs) k.
Proof. intros Hne. simpl. by rewrite assoc_get_set_ne. Qed.

Section missing_lights.
Context {imports : Imports} {block_order : PyOrder Block}.

Lemma decode_section_delitem key section st :
  key ≠ "Palette" → key ≠ "Y" → key ≠ "BlockStates" →
  _decode_section (delitem section key) st = _decode_section section st.
Proof.
  intros H1 H2 H3. unfold _decode_section.
  rewrite contains_delitem_ne by done.
  rewrite (getitem_delitem_ne _ "Y") by done.
  rewrite (getitem_delitem_ne _ "BlockStates") by done.
  by rewrite (getitem_delitem_ne _ "Palette") by done.
Qed.

Lemma decode_sections_alter key i sections st :
  key ≠ "Palette" → key ≠ "Y" → key ≠ "BlockStates" →
  _decode_sections (alter (fun s => delitem s key) i sections) st
  = _decode_sections sections st.
Proof.
  intros H1 H2 H3. revert i st.
  induction sections as [|s sections IH]; intros i st; [done|].
  destruct i as [|i]; simpl.
  - by rewrite decode_section_delitem.
  - destruct (_decode_section s st); simpl; [apply IH|done].
Qed.

Lemma decode_blocks_alter key i sections :
  key ≠ "Palette" → key ≠ "Y" → key ≠ "BlockStates" →
  _decode_blocks (TAG_List (alter (fun s => delitem s key) i sections))
  = _decode_blocks (TAG_List sections).
Proof.
  intros H1 H2 H3. unfold _decode_blocks. simpl.
  rewrite decode_sections_alter by done.
  destruct sections as [|s sections]; [done|]. by destruct i.
Qed.

Lemma light_dict_alter_ne k key i sections acc :
  k ≠ key → key ≠ "Y" →
  light_dict k (alter (fun s => delitem s key) i sections) acc
  = light_dict k sections acc.
Proof.
  intros H1 H2. revert i acc.
  induction sections as [|s sections IH]; intros i acc; [done|].
  destruct i as [|i]; simpl.
  - rewrite (getitem_delitem_ne _ "Y") by done.
    by rewrite (getitem_delitem_ne _ k) by done.
  - destruct (getitem s "Y" ≫= int_value); simpl; [|done].
    destruct (getitem s k); simpl; [apply IH|done].
Qed.

Lemma light_dict_alter_eq key i sections acc d :
  key ≠ "Y" → light_dict key sections acc = Ok d → i < length sections →
  light_dict key (alter (fun s => delitem s key) i sections) acc
  = Raise (KeyError key).
Proof.
  intros Hkey. revert i acc.
  induction sections as [|s sections IH]; intros i acc Hd Hi; simpl in *;
    [lia|].
  apply bind_Ok in Hd as (y & Hy & Hd).
  apply bind_Ok in Hd as (light & Hlight & Hd).
  destruct i as [|i]; simpl.
  - rewrite (getitem_delitem_ne _ "Y") by done. rewrite Hy. simpl.
    by erewrite getitem_delitem_eq.
  - rewrite Hy. simpl. rewrite Hlight. simpl. eapply IH; [done|lia].
Qed.

(** Dropping a light array from a section of a record that decodes makes
    [decode] raise KeyError for it. *)
Lemma decode_without_light data r sections i :
  decode data = Ok r → sections_of data = Ok sections → i < length sections →
  decode (without_light "BlockLight" i data) = Raise (KeyError "BlockLight") ∧
  decode (without_light "SkyLight" i data) = Raise (KeyError "SkyLight").
Proof.
  unfold decode, sections_of, stored_sections. intros Hdec Hsec Hi.
  apply bind_Ok in Hdec as (level & Hlevel & Hdec).
  apply bind_Ok in Hdec as (cx & Hcx & Hdec).
  apply bind_Ok in Hdec as (cz & Hcz & Hdec).
  apply bind_Ok in Hdec as (sections_tag & Hsections & Hdec).
  apply bind_Ok in Hdec as ([blocks' palette'] & Hblocks & Hdec).
  apply bind_Ok in Hdec as (section_list & Hiter & Hdec).
  apply bind_Ok in Hdec as (block_light & Hbl & Hdec).
  apply bind_Ok in Hdec as (sky_light & Hsl & _).
  rewrite Hlevel in Hsec. simpl in Hsec. rewrite Hsections in Hsec.
  simpl in Hsec. rewrite Hiter in Hsec. injection Hsec as ->.
  destruct sections_tag; try done. injection Hiter as ->.
  destruct data as [| | | | | | | | |kvs]; try done. simpl in Hlevel.
  destruct (assoc_get "Level" kvs) as [level'|] eqn:Hkvs; [|done].
  injection Hlevel as ->.
  destruct level as [| | | | | | | | |level]; try done.
  assert (assoc_get "Sections" level = Some (TAG_List sections)) as Hs.
  { simpl in Hsections. by destruct (assoc_get "Sections" level) as [?|];
      [injection Hsections as ->|]. }
  unfold without_light. rewrite Hkvs, Hs. cbv zeta.
  assert (getitem (TAG_Compound level) "xPos" ≫= int_value = Ok cx) as Hcx'
    by done.
  assert (getitem (TAG_Compound level) "zPos" ≫= int_value = Ok cz) as Hcz'
    by done.
  split.
  all: rewrite getitem_compound_set_eq, bind_Ok_l.
  all: rewrite (getitem_compound_set_ne "xPos") by done.
  all: rewrite Hcx', bind_Ok_l.
  all: rewrite (getitem_compound_set_ne "zPos") by done.
  all: rewrite Hcz', bind_Ok_l.
  all: rewrite getitem_compound_set_eq, bind_Ok_l.
  all: rewrite decode_blocks_alter by done.
  all: rewrite Hblocks, bind_Ok_l.
  all: simpl iter; rewrite bind_Ok_l.
  - assert ("BlockLight" ≠ "Y") as Hne by done.
    by rewrite (light_dict_alter_eq _ _ _ _ _ Hne Hbl Hi).
  - rewrite (light_dict_alter_ne "BlockLight") by done.
    rewrite Hbl, bind_Ok_l.
    assert ("SkyLight" ≠ "Y") as Hne by done.
    by rewrite (light_dict_alter_eq _ _ _ _ _ Hne Hsl Hi).
Qed.
End missing_lights.

Section required_fields.
Context {imports : Imports} {block_order : PyOrder Block}.

Lemma light_dict_present key sections acc d :
  light_dict key sections acc = Ok d →
  Forall (fun section => is_ok (getitem section key) = true) sections.
Proof.
  revert acc. induction sections as [|s sections IH]; intros acc Hd;
    simpl in Hd; [constructor|].
  apply bind_Ok in Hd as (y & _ & Hd).
  apply bind_Ok in Hd as (light & Hlight & Hd).
  constructor; [by rewrite Hlight|by eapply IH].
Qed.

(** C10, as amended: [decode] substitutes no default for an auxiliary field.
    In a record that decodes, every auxiliary Level field and both light
    arrays of every section are present, and dropping any one of them makes
    the whole [decode] fail with a KeyError for the dropped key.  (A record
    may fail earlier with another error: one without sections raises
    NotImplementedError whatever fields it lacks.) *)
Theorem decode_requires_auxiliary data r :
  decode data = Ok r →
  (∃ level sections,
     getitem data "Level" = Ok level ∧
     Forall (fun key => is_ok (getitem level key) = true) auxiliary_fields ∧
     sections_of data = Ok sections ∧
     Forall (fun section => is_ok (getitem section "BlockLight") = true ∧
                            is_ok (getitem section "SkyLight") = true)
            sections ∧
     Forall (fun i =>
               decode (without_light "BlockLight" i data)
               = Raise (KeyError "BlockLight") ∧
               decode (without_light "SkyLight" i data)
               = Raise (KeyError "SkyLight"))
            (seq 0 (length sections))) ∧
  Forall (fun key => decode (without_field key data) = Raise (KeyError key))
         auxiliary_fields.
Proof.
  destruct r as [chunk palette]. intros Hdec.
  split; [|by eapply decode_without_field].
  destruct (decode_Ok _ _ _ Hdec)
    as (level & sections_tag & sections & block_light & sky_light &
        Hlevel & Hsections & _ & Hiter & Hbl & Hsl & _ & _ & _ & _ & Hfields).
  assert (sections_of data = Ok sections) as Hsec.
  { unfold sections_of, stored_sections. rewrite Hlevel. simpl.
    rewrite Hsections. done. }
  exists level, sections. split_and!; try done.
  - apply Forall_and. split; by eapply light_dict_present.
  - apply Forall_forall. intros i Hi%elem_of_seq.
    eapply decode_without_light; [done..|lia].
Qed.
End required_fields.

Lemma decode_requires_auxiliary_witness :
  returns (reference_decode (sample_record [stone_section])) (fun _ =>
    Forall (fun key =>
              reference_decode
                (without_field key (sample_record [stone_section]))
              = Raise (KeyError key))
           auxiliary_fields).
Proof.
  apply returns_intro; [vm_compute; reflexivity|]. intros r Hdec.
  exact (proj2 (decode_requires_auxiliary (imports := reference_imports)
                  (block_order := reference_block_order) _ r Hdec)).
Defined.

(** C10, as stated, fails: a record that lacks every auxiliary field and has
    no section makes [decode] raise NotImplementedError, which is no lookup
    error. *)
Lemma decode_requires_auxiliary_counterexample :
  Forall (fun key =>
            getitem legacy_record "Level" ≫= (fun level => contains level key)
            = Ok false)
         auxiliary_fields ∧
  reference_decode legacy_record = Raise (NotImplementedError never_edited).
Proof. split; [by repeat constructor|vm_compute; reflexivity]. Qed.

(** ** Sections with and without a palette *)

Section palette_gate.
Context {imports : Imports} {block_order : PyOrder Block}.




Lemma decode_sections_app l1 l2 st :
  _decode_sections (l1 ++ l2) st
  = _decode_sections l1 st ≫= _decode_sections l2.
Proof.
  revert st. induction l1 as [|s l1 IH]; intros st; simpl; [done|].
  destruct (_decode_section s st); simpl; [apply IH|done].
Qed.

End palette_gate.



(** ** Palettes through encode and decode *)

Lemma split_once_join sep s a b :
  split_once sep s = Some (a, b) →
  split_once sep (a +:+ String sep b) = Some (a, b).
Proof.
  revert a. induction s as [|c s IH]; intros a; simpl; [done|].
  destruct (Ascii.eqb_spec c sep) as [->|Hne].
  - intros [= <- <-]. simpl. by rewrite Ascii.eqb_refl.
  - destruct (split_once sep s) as [[a' b']|] eqn:Hs; [|done].
    intros [= <- <-]. simpl.
    destruct (Ascii.eqb_spec c sep) as [?|_]; [done|].
    by rewrite (IH a').
Qed.

Section palette_roundtrip.
Context {imports : Imports}.

Lemma decode_palette_entry_well_named entry b :
  _decode_palette_entry entry = Ok b → well_named b.
Proof.
  unfold _decode_palette_entry. intros Hb.
  apply bind_Ok in Hb as (name & _ & Hb).
  destruct (split_once ":" name) as [[ns bn]|] eqn:Hsplit; [|done].
  apply bind_Ok in Hb as (props & _ & [= <-]).
  unfold well_named. simpl. by apply split_once_join in Hsplit.
Qed.

Lemma decode_palette_well_named palette local :
  _decode_palette palette = Ok local → Forall well_named local.
Proof.
  unfold _decode_palette. intros Hl.
  apply bind_Ok in Hl as (entries & _ & Hl).
  apply Forall_forall. intros b [i Hi]%list_elem_of_lookup.
  destruct (mapM_Ok_lookup _ _ _ _ _ Hl Hi) as (entry & _ & Hentry).
  by eapply decode_palette_entry_well_named.
Qed.

Lemma decode_encode_palette_entry b :
  well_named b → _decode_palette_entry (_encode_palette_entry b) = Ok b.
Proof.
  intros Hb. unfold _decode_palette_entry, _encode_palette_entry. simpl.
  unfold well_named in Hb. rewrite Hb. simpl.
  destruct b as [ns bn props]. simpl. do 2 f_equal.
  rewrite <- list_fmap_compose.
  erewrite (list_fmap_ext _ id);
    [by rewrite list_fmap_id, list_to_map_to_list|].
  by intros i [k v] _.
Qed.

Lemma decode_encode_palette used :
  Forall well_named used →
  _decode_palette (TAG_List (_encode_palette used)) = Ok used.
Proof.
  unfold _decode_palette, _encode_palette. simpl.
  induction 1 as [|b used Hb Hused IH]; simpl; [done|].
  rewrite decode_encode_palette_entry by done. simpl. by rewrite IH.
Qed.
End palette_roundtrip.

Section decoded_palette.
Context {imports : Imports} {block_order : PyOrder Block}.

Lemma decode_section_palette section st st' :
  _decode_section section st = Ok st' →
  (contains section "Palette" = Ok false ∧ st' = st) ∨
  (contains section "Palette" = Ok true ∧
   ∃ local, getitem section "Palette" ≫= _decode_palette = Ok local ∧
            st'.2 = st.2 ++ local).
Proof.
  unfold _decode_section. intros Hst.
  apply bind_Ok in Hst as (has_palette & Hhas & Hst).
  destruct has_palette; simpl in Hst.
  - right. split; [done|].
    apply bind_Ok in Hst as (y & _ & Hst).
    apply bind_Ok in Hst as (long_array & _ & Hst).
    apply bind_Ok in Hst as (decoded & _ & Hst).
    apply bind_Ok in Hst as (slab & _ & Hst).
    apply bind_Ok in Hst as (blocks & _ & Hst).
    apply bind_Ok in Hst as (local & Hlocal & [= <-]).
    by exists local.
  - left. by injection Hst as <-.
Qed.

(** The running palette after the loop: what it held before, and the local
    palettes of the sections that have one. *)
Lemma decode_sections_palette sections st st' b :
  _decode_sections sections st = Ok st' →
  b ∈ st'.2 ↔
  b ∈ st.2 ∨
  ∃ section local,
    section ∈ sections ∧ contains section "Palette" = Ok true ∧
    getitem section "Palette" ≫= _decode_palette = Ok local ∧ b ∈ local.
Proof.
  revert st. induction sections as [|s sections IH]; intros st Hst;
    simpl in Hst.
  - injection Hst as <-. split; [by left|].
    intros [?|(? & ? & ?%elem_of_nil & _)]; done.
  - apply bind_Ok in Hst as (st1 & Hs & Hst).
    rewrite (IH _ Hst).
    apply decode_section_palette in Hs as [[Hno ->]|(Hyes & local & Hl & Heq)].
    + split.
      * intros [?|(s' & l' & Hin & ?)]; [by left|].
        right. exists s', l'. split; [by right|done].
      * intros [?|(s' & l' & [->|Hin]%elem_of_cons & Hc & ?)]; [by left| |].
        -- congruence.
        -- right. by exists s', l'.
    + rewrite Heq, elem_of_app. split.
      * intros [[?|?]|(s' & l' & Hin & ?)]; [by left| |].
        -- right. exists s, local. split; [by left|done].
        -- right. exists s', l'. split; [by right|done].
      * intros [?|(s' & l' & [->|Hin]%elem_of_cons & Hc & Hl' & ?)].
        -- by left; left.
        -- left; right. congruence.
        -- right. by exists s', l'.
Qed.

Lemma decode_blocks_well_named chunk_sections blocks palette :
  _decode_blocks chunk_sections = Ok (blocks, palette) →
  Forall well_named palette.
Proof.
  intros (st & indexed & Hst & -> & _)%decode_blocks_Ok.
  apply Forall_forall. intros b Hb.
  apply (proj1 (elem_of_unique _ _)) in Hb.
  unfold stitched in Hst. apply bind_Ok in Hst as (sections & _ & Hst).
  apply (decode_sections_palette _ _ _ b Hst) in Hb
    as [Hb|(section & local & _ & _ & Hlocal & Hb)].
  - simpl in Hb. apply list_elem_of_singleton in Hb as ->. reflexivity.
  - apply bind_Ok in Hlocal as (t & _ & Hlocal).
    apply decode_palette_well_named in Hlocal.
    rewrite Forall_forall in Hlocal. by apply Hlocal.
Qed.

Lemma decode_blocks_shape chunk_sections blocks palette :
  _decode_blocks chunk_sections = Ok (blocks, palette) →
  has_shape 16 256 16 blocks.
Proof.
  intros (st & indexed & Hst & _ & _ & -> & ->)%decode_blocks_Ok.
  unfold astype_uint. do 2 apply has_shape_map3.
  apply has_shape_swapaxes_01_02. by eapply stitched_shape.
Qed.
End decoded_palette.

Lemma mapM_Ok_lookup_l {A B} (f : A → result B) (l : list A) (k : list B) i a :
  mapM f l = Ok k → l !! i = Some a → ∃ b, k !! i = Some b ∧ f a = Ok b.
Proof.
  revert k i. induction l as [|a' l IH]; intros k i Hk Hi; [done|].
  simpl in Hk. apply bind_Ok in Hk as (b' & Hb' & Hk).
  apply bind_Ok in Hk as (k' & Hk' & [= <-]).
  destruct i as [|i]; simpl in *.
  - injection Hi as ->. eauto.
  - eauto.
Qed.

Lemma getitem_contains t k v : getitem t k = Ok v → contains t k = Ok true.
Proof.
  destruct t as [| | | | | | | | |kvs]; try done. simpl.
  by destruct (assoc_get k kvs) as [w|] eqn:Hk.
Qed.

Section roundtrip_blocks.
Context {imports : Imports} {block_order : PyOrder Block}.

Lemma encode_sections_all blocks palette ys sections y :
  _encode_sections blocks palette ys = Ok sections → y ∈ ys →
  ∃ r, _encode_section blocks palette y = Ok r.
Proof.
  revert sections. induction ys as [|y' ys IH]; intros sections Henc Hy;
    [by apply elem_of_nil in Hy|].
  simpl in Henc. apply bind_Ok in Henc as (r & Hr & Henc).
  apply bind_Ok in Henc as (rest & Hrest & _).
  apply elem_of_cons in Hy as [->|Hy]; [eauto|]. by eapply IH.
Qed.

(** The palette entries of a section that [encode] emitted decode to the
    descriptors the slab uses. *)
Lemma emitted_section_palette blocks palette misc y section section' :
  Forall well_named palette →
  _encode_section blocks palette y = Ok (Some section) →
  attach_light misc section = Ok section' →
  ∃ used,
    Forall2 (fun i b => palette !! i = Some b) (unique (slab_of blocks y)) used ∧
    contains section' "Palette" = Ok true ∧
    getitem section' "Palette" ≫= _decode_palette = Ok used.
Proof.
  intros Hnamed Hsec Hat.
  apply encode_section_Ok in Hsec as (used & Hused & Hcase).
  destruct Hcase as [[[=] _]|(long_array & _ & [= ->] & _)].
  apply take_palette_Ok in Hused. exists used. split; [done|].
  apply attach_light_Ok in Hat as (_ & _ & _ & _ & _ & _ & _ & _ & Hkeep).
  assert (getitem section' "Palette" = Ok (TAG_List (_encode_palette used)))
    as Hp by (by rewrite Hkeep).
  split; [by eapply getitem_contains|].
  rewrite Hp. simpl. apply decode_encode_palette.
  apply Forall_forall. intros b [j Hj]%list_elem_of_lookup.
  destruct (Forall2_lookup_r _ _ _ _ _ Hused Hj) as (i & _ & Hi).
  by eapply Forall_lookup_1.
Qed.

Lemma roundtrip_running_palette blocks palette misc sections sections' st' :
  has_shape 16 256 16 blocks → Forall well_named palette →
  _encode_blocks blocks palette = Ok sections →
  mapM (attach_light misc) sections = Ok sections' →
  _decode_sections sections' (zeros3 256 16 16, [air]) = Ok st' →
  (∀ b, b ∈ st'.2 →
     b = air ∨
     ∃ x y z, x < 16 ∧ y < 256 ∧ z < 16 ∧
              palette !! get3 blocks x y z = Some b) ∧
  (∀ x y z, x < 16 → y < 256 → z < 16 →
     ∃ b, palette !! get3 blocks x y z = Some b ∧
          (b ∈ st'.2 ∨
           namespace b +:+ ":" +:+ base_name b = "minecraft:air")).
Proof.
  intros Hshape Hnamed Henc Hat Hdec. split.
  - intros b Hb.
    apply (decode_sections_palette _ _ _ b Hdec) in Hb
      as [Hb|(section' & local & Hin & _ & Hlocal & Hb)].
    { left. simpl in Hb. by apply list_elem_of_singleton in Hb. }
    right. apply list_elem_of_lookup in Hin as [j Hj].
    destruct (mapM_Ok_lookup _ _ _ _ _ Hat Hj) as (section & Hsec & Hsec').
    apply list_elem_of_lookup_2 in Hsec.
    apply (encode_blocks_Ok _ _ _ _ Henc) in Hsec as (y & Hy & Hsec).
    destruct (emitted_section_palette _ _ _ _ _ _ Hnamed Hsec Hsec')
      as (used & Hused & _ & Hused').
    rewrite Hused' in Hlocal. injection Hlocal as <-.
    apply list_elem_of_lookup in Hb as [k Hk].
    destruct (Forall2_lookup_r _ _ _ _ _ Hused Hk) as (i & Hi & Hpi).
    apply list_elem_of_lookup_2 in Hi.
    apply (proj1 (elem_of_unique _ _)) in Hi.
    apply (proj1 (elem_of_slab _ _ _ Hshape Hy)) in Hi
      as (x & yy & z & Hx & Hyy & Hz & ->).
    exists x, (y * 16 + yy), z. split_and!; (done || lia).
  - intros x y z Hx Hy Hz.
    remember (y / 16) as s eqn:Hsdef. remember (y mod 16) as yy eqn:Hyydef.
    assert (y = s * 16 + yy) as Hyeq
      by (subst s yy; pose proof (Nat.div_mod_eq y 16); lia).
    assert (s < 16) as Hs
      by (subst s; apply Nat.Div0.div_lt_upper_bound; lia).
    assert (yy < 16) as Hyy by (subst yy; apply Nat.mod_upper_bound; lia).
    clear Hsdef Hyydef.
    assert (get3 blocks x y z ∈ unique (slab_of blocks s)) as Hi.
    { apply (proj2 (elem_of_unique _ _)).
      apply (proj2 (elem_of_slab _ _ _ Hshape Hs)).
      exists x, yy, z. by rewrite <- Hyeq. }
    destruct (encode_sections_all _ _ _ _ s Henc) as [r Hr];
      [apply elem_of_seq; lia|].
    pose proof Hr as Hr'.
    apply encode_section_Ok in Hr' as (used & Hused & Hcase).
    apply take_palette_Ok in Hused.
    apply list_elem_of_lookup in Hi as [k Hk].
    destruct (Forall2_lookup_l _ _ _ _ _ Hused Hk) as (b & Hb & Hpb).
    exists b. split; [done|].
    destruct Hcase as [[-> (b' & -> & Hair)]|(long_array & _ & -> & _)].
    + right. apply list_elem_of_lookup_2, list_elem_of_singleton in Hb. by subst.
    + left.
      assert (section_record s long_array (_encode_palette used) ∈ sections)
        as Hin by (apply (encode_blocks_Ok _ _ _ _ Henc); eauto).
      apply list_elem_of_lookup in Hin as [j Hj].
      destruct (mapM_Ok_lookup_l _ _ _ _ _ Hat Hj) as (section' & Hj' & Hsec').
      destruct (emitted_section_palette _ _ _ _ _ _ Hnamed Hr Hsec')
        as (used' & Hused' & Hcontains & Hlocal).
      apply (decode_sections_palette _ _ _ b Hdec). right.
      exists section', used'. split_and!; try done.
      * by eapply list_elem_of_lookup_2.
      * apply (list_elem_of_lookup_2 _ k).
        destruct (Forall2_lookup_l _ _ _ _ _ Hused' Hk) as (b2 & Hb2 & Hpb2).
        congruence.
Qed.
End roundtrip_blocks.

Section roundtrip_properties.
Context {imports : Imports} {block_order : PyOrder Block}.

(** C3, as amended: let a decode produce the volume V and the palette P, and
    let encoding (V, P) and decoding the result succeed with the palette P'
    (for an all-air volume they do not: encode emits no section and decode
    rejects a record without sections).  Then P' has no repeated descriptor
    and every index of the new volume is a position of P'; P' holds air and,
    besides air, only descriptors that voxels of V resolve to in P, so that
    entries of P no voxel uses are not kept; and every descriptor a voxel of
    V resolves to is in P', unless it is named minecraft:air.  Nothing is
    stated about the position of a voxel after the round trip. *)
Theorem roundtrip_palette data chunk palette version data' chunk' palette' :
  decode data = Ok (chunk, palette) →
  encode chunk palette version = Ok data' →
  decode data' = Ok (chunk', palette') →
  NoDup palette' ∧
  all3 (fun v => v < length palette') (blocks chunk') ∧
  air ∈ palette' ∧
  (∀ b, b ∈ palette' →
     b = air ∨
     ∃ x y z, x < 16 ∧ y < 256 ∧ z < 16 ∧
              palette !! get3 (blocks chunk) x y z = Some b) ∧
  (∀ x y z, x < 16 → y < 256 → z < 16 →
     ∃ b, palette !! get3 (blocks chunk) x y z = Some b ∧
          (b ∈ palette' ∨
           namespace b +:+ ":" +:+ base_name b = "minecraft:air")).
Proof.
  intros Hdec Henc Hdec'.
  destruct (decode_blocks_of _ _ _ Hdec') as (sections_tag0 & _ & Hblocks0).
  destruct (decode_blocks_indices_valid _ _ _ Hblocks0) as [Hvalid Hnodup].
  clear sections_tag0 Hblocks0.
  apply decode_blocks_of in Hdec as (sections_tag & _ & Hblocks).
  pose proof (decode_blocks_shape _ _ _ Hblocks) as Hshape.
  pose proof (decode_blocks_well_named _ _ _ Hblocks) as Hnamed.
  apply encode_Ok in Henc
    as (sections & sections' & heightmaps & Hsec & Hat & Hsec' & _).
  apply decode_blocks_of in Hdec' as (sections_tag' & Htag' & Hblocks').
  unfold sections_of in Hsec'. rewrite Htag' in Hsec'. simpl in Hsec'.
  apply decode_blocks_Ok in Hblocks' as (st' & indexed & Hst' & -> & _).
  unfold stitched in Hst'. rewrite Hsec' in Hst'. simpl in Hst'.
  destruct (roundtrip_running_palette _ _ _ _ _ _ Hshape Hnamed Hsec Hat Hst')
    as [Hsub Hsup].
  split_and!; try done.
  - apply elem_of_unique.
    apply (decode_sections_palette _ _ _ air Hst'). left. by left.
  - intros b Hb. apply Hsub. by apply (proj1 (elem_of_unique _ _)).
  - intros x y z Hx Hy Hz.
    destruct (Hsup x y z Hx Hy Hz) as (b & Hb & [Hin|Hair]).
    + exists b. split; [done|]. left. by apply elem_of_unique.
    + exists b. split; [done|]. by right.
Qed.
End roundtrip_properties.

Lemma roundtrip_Ok {imports : Imports} {block_order : PyOrder Block}
    data version r data' r' :
  roundtrip data version = Ok (r, data', r') →
  decode data = Ok r ∧ encode r.1 r.2 version = Ok data' ∧ decode data' = Ok r'.
Proof.
  unfold roundtrip. intros Hrt.
  apply bind_Ok in Hrt as (r0 & Hr0 & Hrt).
  apply bind_Ok in Hrt as (d0 & Hd0 & Hrt).
  apply bind_Ok in Hrt as (r1 & Hr1 & [= <- <- <-]). done.
Qed.

Lemma roundtrip_palette_witness :
  returns (roundtrip (imports := reference_imports)
             (block_order := reference_block_order)
             (sample_record [stone_section]) ("anvil", 1631%Z))
    (fun t =>
       NoDup t.2.2 ∧
       all3 (fun v => v < length t.2.2) (blocks t.2.1) ∧
       air ∈ t.2.2 ∧
       (∀ b, b ∈ t.2.2 →
          b = air ∨
          ∃ x y z, x < 16 ∧ y < 256 ∧ z < 16 ∧
                   t.1.1.2 !! get3 (blocks t.1.1.1) x y z = Some b) ∧
       (∀ x y z, x < 16 → y < 256 → z < 16 →
          ∃ b, t.1.1.2 !! get3 (blocks t.1.1.1) x y z = Some b ∧
               (b ∈ t.2.2 ∨
                namespace b +:+ ":" +:+ base_name b = "minecraft:air"))).
Proof.
  apply returns_intro; [vm_compute; reflexivity|].
  intros [[[chunk palette] data'] [chunk' palette']] Hrt.
  apply roundtrip_Ok in Hrt as (Hdec & Henc & Hdec').
  exact (roundtrip_palette (imports := reference_imports)
           (block_order := reference_block_order)
           _ _ _ _ _ _ _ Hdec Henc Hdec').
Defined.

(** C3, as stated, fails.  The record whose only section is all air decodes,
    to the palette [air]; encoding the result emits no section, and decoding
    that record raises NotImplementedError.  The record whose palette lists
    dirt, which no voxel uses, decodes to a palette with dirt; after encoding
    and decoding again the palette has no dirt. *)
Lemma roundtrip_counterexample :
  snd <$> reference_decode (sample_record [air_section]) = Ok [air] ∧
  decode_encode (imports := reference_imports)
      (block_order := reference_block_order)
      (sample_record [air_section]) ("anvil", 1631%Z)
    ≫= sections_of
  = Ok [] ∧
  roundtrip (imports := reference_imports)
    (block_order := reference_block_order)
    (sample_record [air_section]) ("anvil", 1631%Z)
  = Raise (NotImplementedError never_edited) ∧
  (fun t => (bool_decide (dirt ∈ t.1.1.2), bool_decide (dirt ∈ t.2.2)))
    <$> roundtrip (imports := reference_imports)
          (block_order := reference_block_order)
          (sample_record [spare_entry_section]) ("anvil", 1631%Z)
  = Ok (true, false).
Proof. split_and!; vm_compute; reflexivity. Qed.

(** The round trip also moves voxels, [encode] flattening each slab without
    putting the axes back in storage order: the stone voxel of the record
    with [one_stone_section] is at (1, 0, 0) after the first decode and at
    (0, 1, 0) after the second. *)
Lemma roundtrip_moves_voxels :
  (fun t => (t.1.1.2 !! get3 (blocks t.1.1.1) 1 0 0,
             t.2.2 !! get3 (blocks t.2.1) 1 0 0,
             t.2.2 !! get3 (blocks t.2.1) 0 1 0))
    <$> roundtrip (imports := reference_imports)
          (block_order := reference_block_order)
          (sample_record [one_stone_section]) ("anvil", 1631%Z)
  = Ok (Some stone, Some air, Some stone).
Proof. vm_compute; reflexivity. Qed.

(** ** Applicability *)

(** C8: the applicability check accepts a (format, version) key exactly when
    the format is "anvil" and the version is at least 1444; every other key
    yields false. *)
Theorem is_valid_iff (key : string * Z) :
  is_valid key = true ↔ key.1 = "anvil" ∧ (1444 ≤ key.2)%Z.
Proof.
  destruct key as [format version]. unfold is_valid. simpl.
  destruct (String.eqb_spec format "anvil") as [Heq|Hne]; simpl.
  - destruct (Z.ltb_spec version 1444); split; intros Hv.
    + discriminate Hv.
    + lia.
    + split; [done|lia].
    + done.
  - split; [done|]. by intros [? _].
Qed.

(** * Further properties *)

(** ** The loop of [_decode_blocks], section by section *)

Lemma nth_splice {A} (a val : list A) (lo i : nat) (d : A) :
  lo + length val ≤ length a →
  nth i (take lo a ++ val ++ drop (lo + length val) a) d
  = if decide (lo ≤ i < lo + length val) then nth (i - lo) val d else nth i a d.
Proof.
  intros Hlen. rewrite !nth_lookup.
  destruct (decide (i < lo)) as [Hlt|Hge].
  - rewrite lookup_app_l by (rewrite length_take; lia).
    rewrite lookup_take_lt by done.
    case_decide; [lia|done].
  - rewrite lookup_app_r by (rewrite length_take; lia).
    rewrite length_take, Nat.min_l by lia.
    destruct (decide (i < lo + length val)) as [Hin|Hout].
    + rewrite lookup_app_l by lia. case_decide; [done|lia].
    + rewrite lookup_app_r by lia. rewrite lookup_drop.
      case_decide; [lia|]. do 2 f_equal. lia.
Qed.

Lemma set_rows_Ok blocks start stop val blocks' :
  set_rows blocks start stop val = Ok blocks' ↔
  Z.max (slice_bound stop (Z.of_nat (length blocks))
         - slice_bound start (Z.of_nat (length blocks))) 0
  = Z.of_nat (length val) ∧
  blocks' = take (Z.to_nat (slice_bound start (Z.of_nat (length blocks)))) blocks
            ++ val
            ++ drop (Z.to_nat (slice_bound start (Z.of_nat (length blocks)))
                     + length val) blocks.
Proof.
  unfold set_rows. cbv zeta. destruct (Z.eqb_spec
    (Z.max (slice_bound stop (Z.of_nat (length blocks))
         - slice_bound start (Z.of_nat (length blocks))) 0)
    (Z.of_nat (length val))) as [Heq|Hne].
  - split; [by intros [= <-]|by intros [_ ->]].
  - split; [done|by intros [? _]].
Qed.

Lemma slab_rows (y : Z) :
  let lo := slice_bound (Z.shiftl y 4) 256 in
  let hi := slice_bound (Z.shiftl y 4 + 16) 256 in
  match written_slab y with
  | Some t => t < 16 ∧ lo = Z.of_nat (16 * t) ∧ (Z.max (hi - lo) 0 = 16)%Z
  | None => (Z.max (hi - lo) 0 = 0)%Z
  end.
Proof.
  cbv zeta. rewrite Z.shiftl_mul_pow2 by lia. change (2 ^ 4)%Z with 16%Z.
  unfold written_slab, slice_bound.
  case_decide as Hy.
  - pose proof (Z.mod_pos_bound y 16 ltac:(lia)) as Hmod.
    assert (y mod 16 = if decide (0 ≤ y)%Z then y else y + 16)%Z as Hm.
    { case_decide.
      - apply Z.mod_small. lia.
      - symmetry. apply (Z.mod_unique_pos y 16 (-1) (y + 16)); lia. }
    rewrite Hm. clear Hm Hmod.
    case_decide; destruct (Z.ltb_spec (y * 16) 0), (Z.ltb_spec (y * 16 + 16) 0);
      lia.
  - destruct (Z.ltb_spec (y * 16) 0), (Z.ltb_spec (y * 16 + 16) 0); lia.
Qed.

Section decode_section.
Context {imports : Imports}.

(** What one turn of the loop does to the volume and the running palette,
    for a section with a palette. *)
Lemma decode_section_Ok section st st' :
  contains section "Palette" = Ok true →
  _decode_section section st = Ok st' ↔
  ∃ y long_array decoded slab local,
    getitem section "Y" ≫= int_value = Ok y ∧
    getitem section "BlockStates" ≫= array_value = Ok long_array ∧
    decode_long_array long_array 4096 = Ok decoded ∧
    reshape3 decoded 16 16 16 = Ok slab ∧
    set_rows st.1 (Z.shiftl y 4) (Z.shiftl y 4 + 16)
      (add_scalar slab (length st.2)) = Ok st'.1 ∧
    getitem section "Palette" ≫= _decode_palette = Ok local ∧
    st'.2 = st.2 ++ local.
Proof.
  intros Hpal. unfold _decode_section. rewrite Hpal. simpl. split.
  - intros H.
    apply bind_Ok in H as (y & Hy & H).
    apply bind_Ok in H as (long_array & Hla & H).
    apply bind_Ok in H as (decoded & Hd & H).
    apply bind_Ok in H as (slab & Hs & H).
    apply bind_Ok in H as (blocks' & Hb & H).
    apply bind_Ok in H as (local & Hl & [= <-]).
    by eexists y, long_array, decoded, slab, local.
  - intros (y & long_array & decoded & slab & local
            & Hy & Hla & Hd & Hs & Hb & Hl & Hp).
    rewrite Hy. simpl. rewrite Hla. simpl. rewrite Hd. simpl.
    rewrite Hs. simpl. rewrite Hb. simpl. rewrite Hl. simpl.
    destruct st' as [b p]. simpl in *. by subst.
Qed.
End decode_section.

Lemma get3_splice (a val : array3) (lo i j k : nat) :
  lo + length val ≤ length a →
  get3 (take lo a ++ val ++ drop (lo + length val) a) i j k
  = if decide (lo ≤ i < lo + length val) then get3 val (i - lo) j k
    else get3 a i j k.
Proof.
  intros Hlen. unfold get3. rewrite nth_splice by done. by case_decide.
Qed.

Lemma get3_slab decoded slab n a b c :
  reshape3 decoded 16 16 16 = Ok slab → a < 16 → b < 16 → c < 16 →
  get3 (add_scalar slab n) a b c = nth (256 * a + 16 * b + c) decoded 0 + n.
Proof.
  intros Hslab Ha Hb Hc. unfold add_scalar.
  rewrite (get3_map3 16 16 16) by (by eapply has_shape_reshape3 || done).
  unfold reshape3 in Hslab. destruct (_ =? _); [|done].
  injection Hslab as <-. rewrite get3_tabulate3 by done.
  do 2 f_equal. lia.
Qed.

Lemma length_add_scalar decoded slab n :
  reshape3 decoded 16 16 16 = Ok slab → length (add_scalar slab n) = 16.
Proof.
  intros Hslab. unfold add_scalar. rewrite length_map.
  by destruct (has_shape_reshape3 _ _ _ _ _ Hslab).
Qed.

(** Writing a slab: the sixteen rows of the slab take the decoded values
    plus the offset, every other row is left as it was; outside the slabs a
    slice selects, numpy refuses the assignment. *)
Lemma set_slab blocks y decoded slab n :
  has_shape 256 16 16 blocks →
  reshape3 decoded 16 16 16 = Ok slab →
  match written_slab y with
  | Some t =>
      t < 16 ∧
      ∃ blocks',
        set_rows blocks (Z.shiftl y 4) (Z.shiftl y 4 + 16) (add_scalar slab n)
        = Ok blocks' ∧
        ∀ i j k, j < 16 → k < 16 →
          get3 blocks' i j k
          = if decide (16 * t ≤ i < 16 * t + 16)
            then nth (256 * (i - 16 * t) + 16 * j + k) decoded 0 + n
            else get3 blocks i j k
  | None =>
      set_rows blocks (Z.shiftl y 4) (Z.shiftl y 4 + 16) (add_scalar slab n)
      = Raise (ValueError "could not broadcast input array")
  end.
Proof.
  intros [Hlen Hall] Hslab.
  pose proof (slab_rows y) as Hrows. cbv zeta in Hrows.
  pose proof (length_add_scalar _ _ n Hslab) as Hval.
  destruct (written_slab y) as [t|].
  - destruct Hrows as (Ht & Hlo & Hdiff). split; [done|].
    exists (take (16 * t) blocks ++ add_scalar slab n
            ++ drop (16 * t + length (add_scalar slab n)) blocks).
    split.
    + apply set_rows_Ok. rewrite Hlen, Hval.
      change (Z.of_nat 256) with 256%Z. rewrite Hlo in Hdiff |- *.
      rewrite Nat2Z.id. split; [exact Hdiff|done].
    + intros i j k Hj Hk.
      rewrite get3_splice by (rewrite Hval, Hlen; lia).
      rewrite Hval. case_decide as Hi; [|done].
      by rewrite (get3_slab decoded) by (done || lia).
  - unfold set_rows. cbv zeta. rewrite Hlen, Hval.
    change (Z.of_nat 256) with 256%Z. by rewrite Hrows.
Qed.

Section decode_loop.
Context {imports : Imports} {block_order : PyOrder Block}.

Lemma decode_section_writes section st st' :
  has_shape 256 16 16 st.1 →
  contains section "Palette" = Ok true →
  _decode_section section st = Ok st' →
  ∃ t long_array decoded local,
    target_slab section = Some t ∧ t < 16 ∧
    getitem section "BlockStates" ≫= array_value = Ok long_array ∧
    decode_long_array long_array 4096 = Ok decoded ∧
    getitem section "Palette" ≫= _decode_palette = Ok local ∧
    st'.2 = st.2 ++ local ∧
    ∀ i j k, j < 16 → k < 16 →
      get3 st'.1 i j k
      = if decide (16 * t ≤ i < 16 * t + 16)
        then nth (256 * (i - 16 * t) + 16 * j + k) decoded 0 + length st.2
        else get3 st.1 i j k.
Proof.
  intros Hshape Hpal Hdec.
  apply (decode_section_Ok _ _ _ Hpal) in Hdec
    as (y & long_array & decoded & slab & local
        & Hy & Hla & Hd & Hslab & Hset & Hl & Hp).
  pose proof (set_slab st.1 y decoded slab (length st.2) Hshape Hslab) as Hw.
  unfold target_slab. rewrite Hpal, Hy.
  destruct (written_slab y) as [t|]; [|congruence].
  destruct Hw as (Ht & blocks' & Hset' & Hget).
  rewrite Hset in Hset'. injection Hset' as <-.
  by exists t, long_array, decoded, local.
Qed.

Lemma decode_section_frame section st st' t :
  has_shape 256 16 16 st.1 →
  _decode_section section st = Ok st' →
  target_slab section ≠ Some t →
  (∃ local, st'.2 = st.2 ++ local) ∧
  ∀ i j k, 16 * t ≤ i < 16 * t + 16 → j < 16 → k < 16 →
    get3 st'.1 i j k = get3 st.1 i j k.
Proof.
  intros Hshape Hdec Hne.
  destruct (decode_section_palette _ _ _ Hdec) as [[_ ->]|[Hpal _]].
  { split; [|done]. exists []. by rewrite app_nil_r. }
  destruct (decode_section_writes _ _ _ Hshape Hpal Hdec)
    as (t' & long_array & decoded & local & Ht' & Hlt & _ & _ & _ & Hp & Hget).
  split; [by exists local|].
  intros i j k Hi Hj Hk. rewrite Hget by done.
  case_decide as Hi'; [|done].
  destruct Hne. rewrite Ht'. f_equal. lia.
Qed.

Lemma decode_sections_frame sections st st' t :
  has_shape 256 16 16 st.1 →
  _decode_sections sections st = Ok st' →
  Forall (fun s => target_slab s ≠ Some t) sections →
  (∃ more, st'.2 = st.2 ++ more) ∧
  ∀ i j k, 16 * t ≤ i < 16 * t + 16 → j < 16 → k < 16 →
    get3 st'.1 i j k = get3 st.1 i j k.
Proof.
  revert st. induction sections as [|s sections IH]; intros st Hshape Hdec Hall;
    simpl in Hdec.
  - injection Hdec as <-. split; [|done]. exists []. by rewrite app_nil_r.
  - apply bind_Ok in Hdec as (st1 & Hs & Hdec).
    apply Forall_cons in Hall as [Hs_ne Hall].
    destruct (decode_section_frame _ _ _ t Hshape Hs Hs_ne) as [[l1 Hp1] Hg1].
    pose proof (decode_section_shape _ _ _ Hshape Hs) as Hshape1.
    destruct (IH st1 Hshape1 Hdec Hall) as [[l2 Hp2] Hg2].
    split.
    + exists (l1 ++ l2). by rewrite Hp2, Hp1, app_assoc.
    + intros i j k Hi Hj Hk. by rewrite Hg2, Hg1.
Qed.

(** The descriptor a voxel of the returned volume denotes, before the final
    cast, is the one its storage-order voxel denotes in the running
    palette. *)
Lemma decode_blocks_resolve chunk_sections blocks palette :
  _decode_blocks chunk_sections = Ok (blocks, palette) →
  ∃ st indexed,
    stitched chunk_sections = Ok st ∧
    blocks = astype_uint (get_smallest_dtype indexed) indexed ∧
    ∀ x y z, x < 16 → y < 256 → z < 16 →
      palette !! get3 indexed x y z = st.2 !! get3 st.1 y z x.
Proof.
  intros (st & indexed & Hst & -> & Hall & -> & Hblocks)%decode_blocks_Ok.
  exists st. eexists. split_and!; [done..|].
  intros x y z Hx Hy Hz.
  pose proof (stitched_shape _ _ Hst) as Hshape.
  pose proof (has_shape_swapaxes_01_02 _ Hshape) as Hshape'.
  pose proof (all3_get3 _ _ _ _ _ x y z Hshape' Hall Hx Hy Hz) as Hlt.
  simpl in Hlt. rewrite swapaxes_01_02 in Hlt by done.
  rewrite (get3_map3 16 256 16) by done.
  rewrite swapaxes_01_02 by done.
  destruct (lookup_lt_is_Some_2 st.2 _ Hlt) as [b Hb].
  destruct (unique_inverse_lookup st.2 _ b Hb) as [Hinv Hu].
  by rewrite (nth_lookup_Some _ _ _ _ Hinv), Hu, Hb.
Qed.

(** Where a section's indices end up in the storage-order volume when no
    later section is written to the same slab. *)
Lemma stitched_slab before section after st t long_array decoded local :
  stitched (TAG_List (before ++ section :: after)) = Ok st →
  target_slab section = Some t →
  Forall (fun s => target_slab s ≠ Some t) after →
  getitem section "BlockStates" ≫= array_value = Ok long_array →
  decode_long_array long_array 4096 = Ok decoded →
  getitem section "Palette" ≫= _decode_palette = Ok local →
  ∀ a b c, a < 16 → b < 16 → c < 16 →
    nth (256 * a + 16 * b + c) decoded 0 < length local →
    st.2 !! get3 st.1 (16 * t + a) b c
    = local !! nth (256 * a + 16 * b + c) decoded 0.
Proof.
  intros Hst Ht Hafter Hla Hd Hl a b c Ha Hb Hc Hv.
  unfold stitched in Hst. simpl in Hst. rewrite decode_sections_app in Hst.
  apply bind_Ok in Hst as (st1 & Hbefore & Hst).
  apply bind_Ok in Hst as (st2 & Hsec & Hst).
  pose proof (decode_sections_shape _ (zeros3 256 16 16, [air]) _
                (has_shape_zeros3 256 16 16) Hbefore) as Hshape1.
  pose proof (decode_section_shape _ _ _ Hshape1 Hsec) as Hshape2.
  assert (contains section "Palette" = Ok true) as Hpal.
  { unfold target_slab in Ht.
    destruct (contains section "Palette") as [[]|]; done. }
  destruct (decode_section_writes _ _ _ Hshape1 Hpal Hsec)
    as (t' & long_array' & decoded' & local' & Ht' & _ & Hla' & Hd' & Hl'
        & Hp2 & Hget).
  assert (t' = t) as -> by congruence.
  assert (long_array' = long_array) as -> by congruence.
  assert (decoded' = decoded) as -> by congruence.
  assert (local' = local) as -> by congruence.
  destruct (decode_sections_frame _ _ _ t Hshape2 Hst Hafter) as [[more Hp] Hg].
  rewrite Hg, Hget by (done || lia).
  case_decide as Hi; [|lia].
  replace (16 * t + a - 16 * t) with a by lia.
  rewrite Hp, Hp2.
  rewrite lookup_app_l by (rewrite length_app; lia).
  rewrite lookup_app_r by lia.
  f_equal. lia.
Qed.

(** The slabs no section is written to keep the pre-seeded index 0, which
    denotes air in the running palette. *)
Lemma stitched_unwritten sections st t :
  stitched (TAG_List sections) = Ok st →
  Forall (fun s => target_slab s ≠ Some t) sections →
  ∀ a b c, a < 16 → b < 16 → c < 16 →
    st.2 !! get3 st.1 (16 * t + a) b c = Some air.
Proof.
  intros Hst Hall a b c Ha Hb Hc. unfold stitched in Hst. simpl in Hst.
  destruct (decode_sections_frame _ (zeros3 256 16 16, [air]) _ t
              (has_shape_zeros3 256 16 16) Hst Hall) as [[more Hp] Hg].
  assert (get3 (zeros3 256 16 16) (16 * t + a) b c = 0) as Hzero.
  { unfold get3, zeros3.
    destruct (decide (16 * t + a < 256)) as [Hlt|Hge].
    - by rewrite !nth_repeat_lt by lia.
    - rewrite (nth_overflow (repeat _ 256)) by (rewrite repeat_length; lia).
      by destruct b, c. }
  rewrite Hg by (done || lia). rewrite Hp.
  cbn [fst snd]. by rewrite Hzero.
Qed.
End decode_loop.

Section decode_voxels.
Context {imports : Imports} {block_order : PyOrder Block}.

(** X1: One turn of the loop of [_decode_blocks], for a section with a palette
    whose packed indices decode to 4096 values.  For a slab index in 0..15,
    and, through Python's negative slice bounds, in -16..-2 (which stands for
    the slab sixteen higher), the turn succeeds: the slab's rows take the
    decoded values in the order height, z, x, each raised by the length of
    the running palette, every other row is left as it was, and the section's
    palette is appended to the running palette.  For every other slab index
    the turn raises ValueError. *)
Theorem decode_section_slab section st y long_array decoded local :
  has_shape 256 16 16 st.1 →
  contains section "Palette" = Ok true →
  getitem section "Y" ≫= int_value = Ok y →
  getitem section "BlockStates" ≫= array_value = Ok long_array →
  decode_long_array long_array 4096 = Ok decoded →
  length decoded = 4096 →
  getitem section "Palette" ≫= _decode_palette = Ok local →
  match written_slab y with
  | Some t =>
      ∃ blocks',
        _decode_section section st = Ok (blocks', st.2 ++ local) ∧
        ∀ i j k, i < 256 → j < 16 → k < 16 →
          get3 blocks' i j k
          = if decide (16 * t ≤ i < 16 * t + 16)
            then nth (256 * (i - 16 * t) + 16 * j + k) decoded 0 + length st.2
            else get3 st.1 i j k
  | None =>
      _decode_section section st
      = Raise (ValueError "could not broadcast input array")
  end.
Proof.
  intros Hshape Hpal Hy Hla Hd Hlen Hl.
  assert (∃ slab, reshape3 decoded 16 16 16 = Ok slab) as [slab Hslab].
  { unfold reshape3. rewrite Hlen. simpl. eauto. }
  pose proof (set_slab st.1 y decoded slab (length st.2) Hshape Hslab) as Hw.
  destruct (written_slab y) as [t|].
  - destruct Hw as (Ht & blocks' & Hset & Hget).
    exists blocks'. split; [|by intros; apply Hget].
    apply (decode_section_Ok _ _ _ Hpal).
    by exists y, long_array, decoded, slab, local.
  - unfold _decode_section. rewrite Hpal. simpl. rewrite Hy. simpl.
    rewrite Hla. simpl. rewrite Hd. simpl. rewrite Hslab. simpl.
    by rewrite Hw.
Qed.

(** X2: The content of a decoded chunk, slab by slab.  When a record decodes,
    take a section of it that has a palette and is written to the slab [t],
    no later section being written to the same slab.  Then the voxel at
    (x, 16 t + yy, z) of the returned volume, before the final cast of the
    element type, denotes in the returned palette the descriptor at position
    [decoded[256 yy + 16 z + x]] of the section's own palette, for every
    position of the packed array that holds an index of that palette. *)
Theorem decode_voxel data chunk palette before section after t long_array
    decoded local :
  decode data = Ok (chunk, palette) →
  sections_of data = Ok (before ++ section :: after) →
  target_slab section = Some t →
  Forall (fun s => target_slab s ≠ Some t) after →
  getitem section "BlockStates" ≫= array_value = Ok long_array →
  decode_long_array long_array 4096 = Ok decoded →
  getitem section "Palette" ≫= _decode_palette = Ok local →
  ∃ indexed,
    blocks chunk = astype_uint (get_smallest_dtype indexed) indexed ∧
    ∀ x yy z, x < 16 → yy < 16 → z < 16 →
      nth (256 * yy + 16 * z + x) decoded 0 < length local →
      palette !! get3 indexed x (16 * t + yy) z
      = local !! nth (256 * yy + 16 * z + x) decoded 0.
Proof.
  intros Hdec Hsecs Ht Hafter Hla Hd Hl.
  apply decode_blocks_of in Hdec as (sections & Hsec & Hblocks).
  unfold sections_of in Hsecs. rewrite Hsec in Hsecs. simpl in Hsecs.
  destruct sections; try done. injection Hsecs as ->.
  apply decode_blocks_resolve in Hblocks as (st & indexed & Hst & Hcast & Hres).
  exists indexed. split; [done|].
  intros x yy z Hx Hyy Hz Hv.
  assert (t < 16) as Hlt.
  { unfold target_slab in Ht.
    destruct (contains section "Palette") as [[]|]; try done.
    destruct (getitem section "Y" ≫= int_value) as [y|]; try done.
    pose proof (slab_rows y) as Hrows. cbv zeta in Hrows.
    rewrite Ht in Hrows. tauto. }
  rewrite Hres by (done || lia).
  by eapply stitched_slab.
Qed.

(** X3: A slab that no section of the record is written to is air: when a record
    decodes, every voxel of such a slab denotes, before the final cast,
    [minecraft:air] without properties in the returned palette. *)
Theorem decode_unwritten_air data chunk palette sections t :
  decode data = Ok (chunk, palette) →
  sections_of data = Ok sections →
  t < 16 →
  Forall (fun s => target_slab s ≠ Some t) sections →
  ∃ indexed,
    blocks chunk = astype_uint (get_smallest_dtype indexed) indexed ∧
    ∀ x yy z, x < 16 → yy < 16 → z < 16 →
      palette !! get3 indexed x (16 * t + yy) z = Some air.
Proof.
  intros Hdec Hsecs Ht Hall.
  apply decode_blocks_of in Hdec as (chunk_sections & Hsec & Hblocks).
  unfold sections_of in Hsecs. rewrite Hsec in Hsecs. simpl in Hsecs.
  destruct chunk_sections; try done. injection Hsecs as ->.
  apply decode_blocks_resolve in Hblocks as (st & indexed & Hst & Hcast & Hres).
  exists indexed. split; [done|].
  intros x yy z Hx Hyy Hz.
  rewrite Hres by (done || lia).
  by eapply stitched_unwritten.
Qed.

(** X4: Whatever sections a record has, the volume [decode] returns is a full
    16 x 256 x 16 array. *)
Theorem decode_shape data chunk palette :
  decode data = Ok (chunk, palette) → has_shape 16 256 16 (blocks chunk).
Proof.
  intros (sections & _ & Hblocks)%decode_blocks_of.
  by eapply decode_blocks_shape.
Qed.

End decode_voxels.

(** ** The slabs [_encode_blocks] flattens *)

Lemma lookup_concat_uniform {A} (ls : list (list A)) (n i j : nat) (l : list A) :
  Forall (fun l => length l = n) ls → ls !! i = Some l → j < n →
  concat ls !! (i * n + j) = l !! j.
Proof.
  intros Hall. revert i. induction Hall as [|l' ls Hl Hall IH]; intros i Hi Hj.
  - done.
  - destruct i as [|i]; simpl in *.
    + injection Hi as ->. by rewrite lookup_app_l by lia.
    + rewrite lookup_app_r by lia. rewrite <- (IH i Hi Hj). f_equal. lia.
Qed.

Lemma length_concat_uniform {A} (ls : list (list A)) (n : nat) :
  Forall (fun l => length l = n) ls → length (concat ls) = length ls * n.
Proof.
  induction 1 as [|l ls Hl Hall IH]; [done|].
  simpl. rewrite length_app. lia.
Qed.

Lemma Forall_rows {A} (P : A → Prop) (ls : list (list A)) :
  Forall (Forall P) ls → Forall P (concat ls).
Proof.
  induction 1 as [|l ls Hl Hall IH]; [done|]. simpl. by apply Forall_app.
Qed.

(** The slab [y], flattened: its element at position [256 x + 16 yy + z] is
    the voxel at (x, 16 y + yy, z). *)
Lemma slab_of_lookup blocks y x yy z :
  has_shape 16 256 16 blocks → y < 16 → x < 16 → yy < 16 → z < 16 →
  slab_of blocks y !! (256 * x + 16 * yy + z)
  = Some (get3 blocks x (y * 16 + yy) z).
Proof.
  intros Hshape Hy Hx Hyy Hz. unfold slab_of, ravel, slice_axis1.
  replace (y * 16 + 16 - y * 16) with 16 by lia.
  destruct (lookup_lt_is_Some_2 blocks x) as [p Hp]; [destruct Hshape; lia|].
  destruct (has_shape_lookup _ _ _ _ _ _ Hshape Hp) as [Hlen Hrows].
  destruct (lookup_lt_is_Some_2 p (y * 16 + yy)) as [r Hr]; [lia|].
  destruct (lookup_lt_is_Some_2 r z) as [v Hv]; [by rewrite (Hrows _ _ Hr)|].
  rewrite (get3_lookup _ _ _ _ _ _ _ Hp Hr Hv).
  set (planes := map (fun plane => take 16 (drop (y * 16) plane)) blocks).
  assert (Forall (fun plane => length plane = 16) planes) as Hplanes.
  { apply Forall_fmap, Forall_forall. intros q Hq. simpl.
    apply list_elem_of_lookup in Hq as [i Hq].
    destruct (has_shape_lookup _ _ _ _ _ _ Hshape Hq) as [Hqlen _].
    rewrite length_take, length_drop. lia. }
  assert (Forall (fun row => length row = 16) (concat planes)) as Hrows'.
  { apply Forall_rows, Forall_fmap, Forall_forall. intros q Hq. simpl.
    apply list_elem_of_lookup in Hq as [i Hq].
    destruct (has_shape_lookup _ _ _ _ _ _ Hshape Hq) as [_ Hqrows].
    apply Forall_take, Forall_drop, Forall_forall. intros row Hrow.
    apply list_elem_of_lookup in Hrow as [j Hrow]. by eapply Hqrows. }
  assert (concat planes !! (x * 16 + yy) = Some r) as Hrow.
  { rewrite (lookup_concat_uniform planes 16 x yy
               (take 16 (drop (y * 16) p))) by
      (done || by unfold planes; rewrite list_lookup_fmap, Hp).
    by rewrite lookup_take_lt, lookup_drop. }
  replace (256 * x + 16 * yy + z) with ((x * 16 + yy) * 16 + z) by lia.
  by rewrite (lookup_concat_uniform (concat planes) 16 _ z r).
Qed.

Lemma length_slab_of blocks y :
  has_shape 16 256 16 blocks → y < 16 → length (slab_of blocks y) = 4096.
Proof.
  intros Hshape Hy. unfold slab_of, ravel, slice_axis1.
  replace (y * 16 + 16 - y * 16) with 16 by lia.
  set (planes := map (fun plane => take 16 (drop (y * 16) plane)) blocks).
  assert (Forall (fun plane => length plane = 16) planes) as Hplanes.
  { apply Forall_fmap, Forall_forall. intros q Hq. simpl.
    apply list_elem_of_lookup in Hq as [i Hq].
    destruct (has_shape_lookup _ _ _ _ _ _ Hshape Hq) as [Hqlen _].
    rewrite length_take, length_drop. lia. }
  assert (Forall (fun row => length row = 16) (concat planes)) as Hrows'.
  { apply Forall_rows, Forall_fmap, Forall_forall. intros q Hq. simpl.
    apply list_elem_of_lookup in Hq as [i Hq].
    destruct (has_shape_lookup _ _ _ _ _ _ Hshape Hq) as [_ Hqrows].
    apply Forall_take, Forall_drop, Forall_forall. intros row Hrow.
    apply list_elem_of_lookup in Hrow as [j Hrow]. by eapply Hqrows. }
  rewrite (length_concat_uniform _ 16) by done.
  rewrite (length_concat_uniform _ 16) by done.
  unfold planes. rewrite length_map. destruct Hshape as [-> _]. done.
Qed.

Lemma all3_intro d0 d1 d2 (P : nat → Prop) a :
  has_shape d0 d1 d2 a →
  (∀ i j k, i < d0 → j < d1 → k < d2 → P (get3 a i j k)) → all3 P a.
Proof.
  intros Hshape HP. unfold all3.
  apply Forall_lookup. intros i p Hp.
  destruct (has_shape_lookup _ _ _ _ _ _ Hshape Hp) as [Hlen Hrows].
  apply Forall_lookup. intros j r Hr.
  apply Forall_lookup. intros k v Hv.
  rewrite <- (get3_lookup _ _ _ _ _ _ _ Hp Hr Hv). apply HP.
  - apply lookup_lt_Some in Hp. destruct Hshape. lia.
  - apply lookup_lt_Some in Hr. lia.
  - apply lookup_lt_Some in Hv. by rewrite (Hrows _ _ Hr) in Hv.
Qed.

Lemma unique_singleton (l : list nat) (i : nat) :
  unique l = [i] ↔ l ≠ [] ∧ Forall (fun v => v = i) l.
Proof.
  split.
  - intros Hu. split.
    + by intros ->.
    + apply Forall_forall. intros v Hv.
      apply (proj2 (elem_of_unique v l)) in Hv. rewrite Hu in Hv.
      by apply list_elem_of_singleton in Hv.
  - intros [Hne Hall]. by apply unique_constant.
Qed.

Lemma mapM_Ok_length {A B} (f : A → result B) (l : list A) (k : list B) :
  mapM f l = Ok k → length l = length k.
Proof.
  revert k. induction l as [|a l IH]; intros k Hk; simpl in Hk.
  - by injection Hk as <-.
  - inv_ok. subst k. simpl. f_equal. by apply IH.
Qed.

Section encode_slabs.
Context {imports : Imports}.

Lemma encode_blocks_all blocks palette sections y :
  _encode_blocks blocks palette = Ok sections → y < 16 →
  ∃ r, _encode_section blocks palette y = Ok r.
Proof.
  intros Henc Hy. eapply encode_sections_all; [exact Henc|].
  apply elem_of_seq. lia.
Qed.

Lemma air_slab_used blocks (palette : list Block) y used :
  has_shape 16 256 16 blocks → y < 16 →
  Forall2 (fun i b => palette !! i = Some b) (unique (slab_of blocks y)) used →
  air_slab blocks palette y ↔
  ∃ b, used = [b] ∧ namespace b +:+ ":" +:+ base_name b = "minecraft:air".
Proof.
  intros Hshape Hy Hused.
  assert (slab_of blocks y ≠ []) as Hne.
  { intros Hnil. pose proof (length_slab_of _ _ Hshape Hy) as Hlen.
    by rewrite Hnil in Hlen. }
  split.
  - intros (i & b & Hall & Hb & Hname). exists b. split; [|done].
    assert (unique (slab_of blocks y) = [i]) as Hu.
    { apply unique_singleton. split; [done|].
      apply Forall_forall. intros v Hv.
      apply elem_of_slab in Hv as (x & yy & z & Hx & Hyy & Hz & ->); [|done..].
      by apply Hall. }
    rewrite Hu in Hused.
    apply Forall2_cons_inv_l in Hused as (b' & bs & Hb' & Hbs & ->).
    apply Forall2_nil_inv_l in Hbs as ->. congruence.
  - intros (b & -> & Hname).
    apply Forall2_cons_inv_r in Hused as (i & is' & Hb & His & Hu).
    apply Forall2_nil_inv_r in His as ->.
    exists i, b. split_and!; [|done..].
    apply unique_singleton in Hu as [_ Hall].
    rewrite Forall_forall in Hall.
    intros x yy z Hx Hyy Hz. apply Hall.
    apply elem_of_slab; [done..|]. by exists x, yy, z.
Qed.

(** The loop of [_encode_blocks] appends a section for the slab [y] exactly
    when the slab is not an [air_slab]. *)
Lemma encode_section_emitted blocks palette y r :
  has_shape 16 256 16 blocks → y < 16 →
  _encode_section blocks palette y = Ok r →
  (r = None ↔ air_slab blocks palette y).
Proof.
  intros Hshape Hy Hsec.
  apply encode_section_Ok in Hsec as (used & Hused & Hcase).
  apply take_palette_Ok in Hused.
  rewrite (air_slab_used _ _ _ _ Hshape Hy Hused).
  destruct Hcase as [[-> Hb]|(long_array & _ & -> & Hnot)]; [done|].
  split; [done|]. intros Hb. by destruct Hnot.
Qed.

Lemma encode_sections_ys blocks palette ys sections :
  StronglySorted lt ys →
  _encode_sections blocks palette ys = Ok sections →
  ∃ ys',
    mapM (fun section => getitem section "Y") sections
    = Ok (map (fun y => TAG_Byte (Z.of_nat y)) ys') ∧
    StronglySorted lt ys' ∧
    ∀ y, y ∈ ys' → y ∈ ys.
Proof.
  revert sections. induction ys as [|y ys IH]; intros sections Hsorted Henc;
    simpl in Henc.
  - injection Henc as <-. exists []. split_and!; [done|constructor|done].
  - apply StronglySorted_inv in Hsorted as [Hsorted Hy].
    apply bind_Ok in Henc as (r & Hr & Henc).
    apply bind_Ok in Henc as (rest & Hrest & [= <-]).
    destruct (IH rest Hsorted Hrest) as (ys' & Hys & Hsorted' & Hsub).
    destruct r as [s|].
    + apply encode_section_Ok in Hr as (used & _ & Hcase).
      destruct Hcase as [[[=] _]|(long_array & _ & [= ->] & _)].
      exists (y :: ys'). split_and!.
      * simpl. by rewrite Hys.
      * constructor; [done|]. apply Forall_forall. intros y' Hy'.
        rewrite Forall_forall in Hy. by apply Hy, Hsub.
      * intros y' [->|Hy']%elem_of_cons; [left|right; by apply Hsub].
    + exists ys'. split_and!; [done..|]. intros y' Hy'. right. by apply Hsub.
Qed.

Lemma seq_sorted (start len : nat) : StronglySorted lt (seq start len).
Proof.
  revert start. induction len as [|len IH]; intros start; simpl;
    constructor; [done|].
  apply Forall_forall. intros y Hy%elem_of_seq. lia.
Qed.

(** X9: The sections [_encode_blocks] emits come in strictly ascending order of
    their slab index, which is stored as a byte tag between 0 and 15: no slab
    is emitted twice, and there are at most sixteen sections. *)
Theorem encode_sections_ascending blocks palette sections :
  _encode_blocks blocks palette = Ok sections →
  ∃ ys,
    mapM (fun section => getitem section "Y") sections
    = Ok (map (fun y => TAG_Byte (Z.of_nat y)) ys) ∧
    StronglySorted lt ys ∧
    Forall (fun y => y < 16) ys ∧
    length sections ≤ 16.
Proof.
  intros Henc.
  destruct (encode_sections_ys _ _ _ _ (seq_sorted 0 16) Henc)
    as (ys & Hys & Hsorted & Hsub).
  exists ys. split_and!; [done..| |].
  - apply Forall_forall. intros y Hy%Hsub%elem_of_seq. lia.
  - assert (length sections = length ys) as ->.
    { apply mapM_Ok_length in Hys. by rewrite length_map in Hys. }
    assert (NoDup ys) as Hnodup.
    { clear -Hsorted. induction Hsorted as [|y ys _ IH Hy]; constructor;
        [|done].
      intros Hin. rewrite Forall_forall in Hy.
      apply Hy in Hin. lia. }
    assert (ys ⊆ seq 0 16) as Hincl by (intros y Hy; by apply Hsub).
    apply (submseteq_length ys (seq 0 16)).
    by apply NoDup_submseteq.
Qed.

(** X8: A volume that [_encode_blocks] accepts holds only indices of the palette:
    an index outside the palette makes the call fail, no section is emitted
    for it. *)
Theorem encode_blocks_indices blocks palette sections :
  has_shape 16 256 16 blocks →
  _encode_blocks blocks palette = Ok sections →
  all3 (fun v => v < length palette) blocks.
Proof.
  intros Hshape Henc. apply (all3_intro 16 256 16); [done|].
  intros x y z Hx Hy Hz.
  assert (y / 16 < 16) as Hslab by (apply Nat.Div0.div_lt_upper_bound; lia).
  destruct (encode_blocks_all _ _ _ (y / 16) Henc Hslab) as [r Hr].
  apply encode_section_Ok in Hr as (used & Hused & _).
  apply take_palette_Ok in Hused.
  assert (get3 blocks x y z ∈ unique (slab_of blocks (y / 16))) as Hin.
  { apply (proj2 (elem_of_unique _ _)).
    apply elem_of_slab; [done..|].
    exists x, (y mod 16), z. split_and!; [done| |done|].
    - apply Nat.mod_upper_bound. lia.
    - f_equal. rewrite (Nat.div_mod_eq y 16) at 1. lia. }
  apply list_elem_of_lookup in Hin as [i Hi].
  destruct (Forall2_lookup_l _ _ _ _ _ Hused Hi) as (b & _ & Hb).
  by apply lookup_lt_Some in Hb.
Qed.

(** X7: The packed indices of an emitted section: the array handed to
    [encode_long_array] has 4096 elements, its element at position
    [256 x + 16 yy + z] is a position of the section's palette, and the
    descriptor there is the one the voxel at (x, 16 y + yy, z) denotes in the
    chunk's palette. *)
Theorem encode_local_indices blocks palette sections section :
  has_shape 16 256 16 blocks →
  _encode_blocks blocks palette = Ok sections → section ∈ sections →
  ∃ y used local long_array,
    y < 16 ∧
    getitem section "Y" = Ok (TAG_Byte (Z.of_nat y)) ∧
    getitem section "Palette" = Ok (TAG_List (_encode_palette used)) ∧
    getitem section "BlockStates" = Ok (TAG_Long_Array long_array) ∧
    encode_long_array local = Ok long_array ∧
    length local = 4096 ∧
    ∀ x yy z, x < 16 → yy < 16 → z < 16 →
      ∃ i b, local !! (256 * x + 16 * yy + z) = Some i ∧
             used !! i = Some b ∧
             palette !! get3 blocks x (y * 16 + yy) z = Some b.
Proof.
  intros Hshape Henc Hin.
  apply (encode_blocks_Ok _ _ _ _ Henc) in Hin as (y & Hy & Hsec).
  apply encode_section_Ok in Hsec as (used & Hused & Hcase).
  apply take_palette_Ok in Hused.
  destruct Hcase as [[[=] _]|(long_array & Hlong & [= ->] & _)].
  exists y, used, (unique_inverse (slab_of blocks y)).2, long_array.
  split_and!; [done..| |].
  - by rewrite unique_inverse_length, length_slab_of.
  - intros x yy z Hx Hyy Hz.
    pose proof (slab_of_lookup blocks y x yy z Hshape Hy Hx Hyy Hz) as Hv.
    destruct (unique_inverse_lookup _ _ _ Hv) as [Hinv Hu].
    destruct (Forall2_lookup_l _ _ _ _ _ Hused Hu) as (b & Hb & Hpal).
    by eexists _, b.
Qed.

(** X10: Which slabs [_encode_blocks] emits: a section with slab index [y] is
    emitted exactly when the slab is not made of a single index whose
    descriptor is named minecraft:air, whatever the properties of that
    descriptor. *)
Theorem slab_emitted_iff blocks palette sections y :
  has_shape 16 256 16 blocks →
  _encode_blocks blocks palette = Ok sections → y < 16 →
  (∃ section, section ∈ sections ∧
              getitem section "Y" = Ok (TAG_Byte (Z.of_nat y))) ↔
  ¬ air_slab blocks palette y.
Proof.
  intros Hshape Henc Hy.
  destruct (encode_blocks_all _ _ _ y Henc Hy) as [r Hr].
  pose proof (encode_section_emitted _ _ _ _ Hshape Hy Hr) as Hiff.
  split.
  - intros (section & Hin & HY) Hair.
    apply (encode_blocks_Ok _ _ _ _ Henc) in Hin as (y' & Hy' & Hsec).
    assert (y' = y) as ->.
    { apply encode_section_Ok in Hsec as (used & _ & Hcase).
      destruct Hcase as [[[=] _]|(long_array & _ & [= ->] & _)].
      simpl in HY. injection HY as HY. by apply Nat2Z.inj in HY. }
    apply Hiff in Hair. congruence.
  - intros Hnot. destruct r as [section|]; [|by destruct Hnot; apply Hiff].
    exists section. split.
    + apply (encode_blocks_Ok _ _ _ _ Henc). by exists y.
    + apply encode_section_Ok in Hr as (used & _ & Hcase).
      by destruct Hcase as [[[=] _]|(long_array & _ & [= ->] & _)].
Qed.
End encode_slabs.

(** ** The fields of a record through decode and encode *)

(** A signed 32-bit integer cast to unsigned and stored in an Int array is
    read back as it was. *)
Lemma as_int32_unsigned (v : Z) :
  (- 2 ^ 31 ≤ v < 2 ^ 31)%Z → as_int32 (v mod 2 ^ 32) = v.
Proof.
  intros Hv. unfold as_int32.
  rewrite Zplus_mod_idemp_l, Z.mod_small by lia. lia.
Qed.

Section record_fields.
Context {imports : Imports} {block_order : PyOrder Block}.

(** What [decode] puts into the chunk besides the blocks. *)
Lemma decode_kept data chunk palette :
  decode data = Ok (chunk, palette) →
  ∃ level,
    getitem data "Level" = Ok level ∧
    getitem level "xPos" ≫= int_value = Ok (cx chunk) ∧
    getitem level "zPos" ≫= int_value = Ok (cz chunk) ∧
    Forall (fun f => ∃ t, getitem level f.1.1 = Ok t ∧
                          misc chunk !! f.1.2 = Some (MiscTag t)) kept_fields ∧
    (∃ t, getitem level "Heightmaps" = Ok t ∧
          misc chunk !! "HeightmapsC" = Some (MiscTag t)) ∧
    getitem level "Biomes" ≫= array_value = Ok (biomes chunk) ∧
    is_ok (getitem level "Entities") = true ∧
    entities chunk = [] ∧ tileentities chunk = None ∧ extra chunk = data.
Proof.
  unfold decode. intros Hdec.
  apply bind_Ok in Hdec as (level & Hlevel & Hdec).
  apply bind_Ok in Hdec as (cx & Hcx & Hdec).
  apply bind_Ok in Hdec as (cz & Hcz & Hdec).
  apply bind_Ok in Hdec as (sections & Hsections & Hdec).
  apply bind_Ok in Hdec as ([blocks' palette'] & Hblocks & Hdec).
  apply bind_Ok in Hdec as (section_list & Hiter & Hdec).
  apply bind_Ok in Hdec as (block_light & Hbl & Hdec).
  apply bind_Ok in Hdec as (sky_light & Hsl & Hdec).
  apply bind_Ok in Hdec as (tile_ticks & H1 & Hdec).
  apply bind_Ok in Hdec as (last_update & H2 & Hdec).
  apply bind_Ok in Hdec as (biomes & H3 & Hdec).
  apply bind_Ok in Hdec as (inhabited_time & H4 & Hdec).
  apply bind_Ok in Hdec as (status & H5 & Hdec).
  apply bind_Ok in Hdec as (heightmaps & H6 & Hdec).
  apply bind_Ok in Hdec as (to_be_ticked & H7 & Hdec).
  apply bind_Ok in Hdec as (post_processing & H8 & Hdec).
  apply bind_Ok in Hdec as (structures & H9 & Hdec).
  apply bind_Ok in Hdec as (liquid_ticks & H10 & Hdec).
  apply bind_Ok in Hdec as (liquids_to_be_ticked & H11 & Hdec).
  apply bind_Ok in Hdec as (entities & H12 & Hdec).
  apply fmap_Ok in H12 as (entities_tag & H12 & <-).
  cbv zeta in Hdec. injection Hdec as <- <-. simpl.
  exists level. split_and!; try done.
  - unfold kept_fields. repeat constructor; simpl; eauto.
  - eauto.
  - by rewrite H12.
Qed.

(** What [encode] writes besides the sections and the heightmaps. *)
Lemma encode_level chunk palette version data :
  encode chunk palette version = Ok data →
  ∃ level sections,
    getitem data "Level" = Ok level ∧
    getitem data "DataVersion" = Ok (TAG_Int version.2) ∧
    (∀ k, k ≠ "Level" → k ≠ "DataVersion" →
          getitem data k = Raise (KeyError k)) ∧
    getitem level "xPos" = Ok (TAG_Int (cx chunk)) ∧
    getitem level "zPos" = Ok (TAG_Int (cz chunk)) ∧
    getitem level "Sections" = Ok (TAG_List sections) ∧
    Forall (fun f => getitem level f.1.1 = misc_get_tag (misc chunk) f.1.2 f.2 ∧
                     is_ok (getitem level f.1.1) = true) kept_fields ∧
    getitem level "Biomes"
    = Ok (TAG_Int_Array (map (fun v => as_int32 (v mod 2 ^ 32))
                             (convert_to_format (biomes chunk) 256))) ∧
    getitem level "Heightmaps" = encode_heightmaps (misc chunk) ∧
    is_ok (getitem level "Heightmaps") = true ∧
    getitem level "Entities" = Ok (TAG_List []) ∧
    (∀ k, k ∉ level_fields → getitem level k = Raise (KeyError k)).
Proof.
  unfold encode. intros Henc. cbv zeta in Henc.
  apply bind_Ok in Henc as (sections & Hsec & Henc).
  apply bind_Ok in Henc as (sections' & Hsec' & Henc).
  apply bind_Ok in Henc as (tile_ticks & H1 & Henc).
  apply bind_Ok in Henc as (last_update & H2 & Henc).
  apply bind_Ok in Henc as (inhabited_time & H3 & Henc).
  apply bind_Ok in Henc as (status & H4 & Henc).
  apply bind_Ok in Henc as (heightmaps & Hhm & Henc).
  apply bind_Ok in Henc as (to_be_ticked & H5 & Henc).
  apply bind_Ok in Henc as (post_processing & H6 & Henc).
  apply bind_Ok in Henc as (structures & H7 & Henc).
  apply bind_Ok in Henc as (liquid_ticks & H8 & Henc).
  apply bind_Ok in Henc as (liquids_to_be_ticked & H9 & [= <-]).
  eexists _, sections'. split; [reflexivity|].
  split_and!; try done.
  - intros k Hk1 Hk2. simpl.
    destruct (String.eqb_spec k "Level"); [done|].
    by destruct (String.eqb_spec k "DataVersion").
  - unfold kept_fields. repeat constructor; simpl; done.
  - intros k Hk. unfold level_fields, auxiliary_fields in Hk. simpl in Hk.
    rewrite !not_elem_of_cons in Hk. simpl.
    repeat match goal with
           | |- context [String.eqb k ?s] =>
               destruct (String.eqb_spec k s); [naive_solver|]
           end.
    done.
Qed.
End record_fields.

Lemma decode_encode_Ok {imports : Imports} {block_order : PyOrder Block}
    data version data' :
  decode_encode data version = Ok data' →
  ∃ chunk palette,
    decode data = Ok (chunk, palette) ∧ encode chunk palette version = Ok data'.
Proof.
  unfold decode_encode. intros H.
  apply bind_Ok in H as ([chunk palette] & Hdec & Henc). eauto.
Qed.

Lemma misc_get_tag_stored misc key default t :
  misc_get_tag misc key default = Ok t →
  t = from_option id default (stored_tag misc key).
Proof.
  unfold misc_get_tag, stored_tag.
  destruct (misc !! key) as [[?|?]|]; simpl; congruence.
Qed.

Lemma misc_get_dict_stored misc key d y :
  misc_get_dict misc key = Ok d → d !! y = stored_light misc key y.
Proof.
  unfold misc_get_dict, stored_light.
  destruct (misc !! key) as [[?|?]|]; simpl; try congruence.
  by intros [= <-].
Qed.

Section auxiliary_fields.
Context {imports : Imports} {block_order : PyOrder Block}.

(** X12: the fields [encode] fills from [chunk.misc].  Each of TileTicks,
    LastUpdate, InhabitedTime, Status, ToBeTicked, PostProcessing, Structures,
    LiquidTicks and LiquidsToBeTicked is the tag [misc] holds under the
    field's key and, when the key is absent, the default: an empty list for
    the two tick lists, 0 for the two long fields, [postprocessed] for the
    status, sixteen empty lists for the three per-slab lists and an empty
    compound for the structures. *)
Theorem encode_auxiliary chunk palette version data :
  encode chunk palette version = Ok data →
  Forall (fun f =>
            field_of data f.1.1
            = Ok (from_option id f.2 (stored_tag (misc chunk) f.1.2)))
         kept_fields.
Proof.
  intros (level & sections & Hlevel & _ & _ & _ & _ & _ & Hkept & _)%encode_level.
  eapply Forall_impl; [exact Hkept|]. intros [[field key] default]. simpl.
  intros [Hget Hok]. unfold field_of. rewrite Hlevel. simpl.
  destruct (getitem level field) as [t|] eqn:Ht; [|done].
  f_equal. symmetry in Hget. by apply misc_get_tag_stored in Hget.
Qed.

(** X15: a decode followed by an encode hands nine Level fields on as they
    are (TileTicks, LastUpdate, InhabitedTime, Status, ToBeTicked,
    PostProcessing, Structures, LiquidTicks, LiquidsToBeTicked), writes for
    each of the six named heightmaps the entry of the record's Heightmaps
    compound or, when it has none, 36 zeros, and writes back the coordinates
    of a record that stores them as Int tags. *)
Theorem auxiliary_passthrough data version data' :
  decode_encode data version = Ok data' →
  Forall (fun f => field_of data' f.1.1 = field_of data f.1.1) kept_fields ∧
  Forall (fun name =>
            heightmap_of data' name
            = field_of data "Heightmaps"
                ≫= fun heightmaps => get_default heightmaps name zero_heightmap)
         heightmap_names ∧
  (∀ x, field_of data "xPos" = Ok (TAG_Int x) →
        field_of data' "xPos" = Ok (TAG_Int x)) ∧
  (∀ z, field_of data "zPos" = Ok (TAG_Int z) →
        field_of data' "zPos" = Ok (TAG_Int z)).
Proof.
  intros (chunk & palette & Hdec & Henc)%decode_encode_Ok.
  apply decode_kept in Hdec
    as (level & Hlevel & Hcx & Hcz & Hkept & (hm & Hhm & Hmisc) & _).
  apply encode_level in Henc
    as (level' & sections & Hlevel' & _ & _ & Hx & Hz & _ & Hkept' & _
        & Hhm' & Hhm_ok & _).
  unfold field_of, heightmap_of. rewrite Hlevel, Hlevel'. simpl.
  split_and!.
  - rewrite Forall_forall in Hkept, Hkept'. apply Forall_forall.
    intros f Hf. destruct (Hkept f Hf) as (t & Ht & Hm).
    destruct (Hkept' f Hf) as [Hget _].
    rewrite Hget, Ht. unfold misc_get_tag. by rewrite Hm.
  - rewrite Hhm. simpl. rewrite Hhm'.
    unfold encode_heightmaps. rewrite Hmisc. simpl.
    unfold encode_heightmaps in Hhm'. rewrite Hmisc in Hhm'. simpl in Hhm'.
    rewrite Hhm' in Hhm_ok.
    destruct hm; try done. repeat constructor.
  - intros x Hx0. rewrite Hx0 in Hcx. simpl in Hcx. congruence.
  - intros z Hz0. rewrite Hz0 in Hcz. simpl in Hcz. congruence.
Qed.

(** X16: entities do not survive.  [decode] returns a chunk without entities
    and without tile entities whatever the record lists, and the record
    [encode] writes has an empty Entities list and no TileEntities field. *)
Theorem entities_dropped data version data' :
  decode_encode data version = Ok data' →
  returns (decode data)
    (fun r => entities r.1 = [] ∧ tileentities r.1 = None) ∧
  field_of data' "Entities" = Ok (TAG_List []) ∧
  field_of data' "TileEntities" = Raise (KeyError "TileEntities").
Proof.
  intros (chunk & palette & Hdec & Henc)%decode_encode_Ok.
  rewrite Hdec. simpl.
  apply decode_kept in Hdec as (_ & _ & _ & _ & _ & _ & _ & _ & He & Ht & _).
  apply encode_level in Henc
    as (level' & sections & Hlevel' & _ & _ & _ & _ & _ & _ & _ & _ & _
        & Hent & Hother).
  unfold field_of. rewrite Hlevel'. simpl. split_and!; [done..|].
  apply Hother. unfold level_fields, auxiliary_fields. simpl.
  rewrite !not_elem_of_cons. split_and!; try done. apply not_elem_of_nil.
Qed.
End auxiliary_fields.

(** ** The light arrays, kept and attached *)

Section light_dict.

Lemma light_dict_frame key sections acc d y :
  light_dict key sections acc = Ok d →
  Forall (fun s => getitem s "Y" ≫= int_value ≠ Ok y) sections →
  d !! y = acc !! y.
Proof.
  revert acc. induction sections as [|s sections IH]; intros acc Hd Hall;
    simpl in Hd.
  - by injection Hd as <-.
  - apply Forall_cons in Hall as [Hs Hall].
    apply bind_Ok in Hd as (y' & Hy' & Hd).
    apply bind_Ok in Hd as (light & Hlight & Hd).
    rewrite (IH _ Hd Hall). apply lookup_insert_ne. congruence.
Qed.

Lemma light_dict_last key before section after acc d y :
  light_dict key (before ++ section :: after) acc = Ok d →
  getitem section "Y" ≫= int_value = Ok y →
  Forall (fun s => getitem s "Y" ≫= int_value ≠ Ok y) after →
  ∃ light, getitem section key = Ok light ∧ d !! y = Some light.
Proof.
  revert acc. induction before as [|s before IH]; intros acc Hd Hy Hall;
    simpl in Hd.
  - apply bind_Ok in Hd as (y' & Hy' & Hd).
    apply bind_Ok in Hd as (light & Hlight & Hd).
    assert (y' = y) as -> by congruence.
    exists light. split; [done|].
    rewrite (light_dict_frame _ _ _ _ _ Hd Hall). apply lookup_insert_eq.
  - apply bind_Ok in Hd as (y' & Hy' & Hd).
    apply bind_Ok in Hd as (light & Hlight & Hd).
    by eapply IH.
Qed.
End light_dict.

Section lights.
Context {imports : Imports} {block_order : PyOrder Block}.

(** X6: the light arrays [decode] keeps.  For every section of a decoded
    record, with or without a palette, the chunk's [misc] holds the
    section's BlockLight tag under BlockLight2048BA and its SkyLight tag
    under SkyLight2048BA, at the section's slab index, provided no later
    section has the same slab index (the later one wins). *)
Theorem decode_keeps_lights data chunk palette before section after y :
  decode data = Ok (chunk, palette) →
  sections_of data = Ok (before ++ section :: after) →
  getitem section "Y" ≫= int_value = Ok y →
  Forall (fun s => getitem s "Y" ≫= int_value ≠ Ok y) after →
  ∃ block_light sky_light,
    getitem section "BlockLight" = Ok block_light ∧
    getitem section "SkyLight" = Ok sky_light ∧
    stored_light (misc chunk) "BlockLight2048BA" y = Some block_light ∧
    stored_light (misc chunk) "SkyLight2048BA" y = Some sky_light.
Proof.
  intros Hdec Hsecs Hy Hafter.
  apply decode_Ok in Hdec
    as (level & secs & section_list & kept_block & kept_sky &
        Hlevel & Hsections & _ & Hiter & Hbl & Hsl & Hmb & Hms & _).
  unfold sections_of, stored_sections in Hsecs.
  rewrite Hlevel in Hsecs. simpl in Hsecs. rewrite Hsections in Hsecs.
  simpl in Hsecs. rewrite Hiter in Hsecs. injection Hsecs as ->.
  destruct (light_dict_last _ _ _ _ _ _ _ Hbl Hy Hafter) as (bl & Hbl1 & Hbl2).
  destruct (light_dict_last _ _ _ _ _ _ _ Hsl Hy Hafter) as (sl & Hsl1 & Hsl2).
  exists bl, sl. unfold stored_light. by rewrite Hmb, Hms.
Qed.

(** X11: the light arrays [encode] attaches.  Every section of an encoded
    record carries, as BlockLight and as SkyLight, the tag that the chunk's
    [misc] holds for the section's slab index under the keys BlockLight2048
    and SkyLight2048, and 2048 zero bytes when it holds none. *)
Theorem encode_lights chunk palette version data sections :
  encode chunk palette version = Ok data →
  sections_of data = Ok sections →
  Forall (fun section =>
            ∃ y,
              getitem section "Y" ≫= int_value = Ok y ∧
              getitem section "BlockLight"
              = Ok (from_option id zero_light
                      (stored_light (misc chunk) "BlockLight2048" y)) ∧
              getitem section "SkyLight"
              = Ok (from_option id zero_light
                      (stored_light (misc chunk) "SkyLight2048" y)))
         sections.
Proof.
  intros Henc Hsec.
  apply encode_Ok in Henc as (raw & sections' & _ & _ & Hat & Hsec' & _).
  rewrite Hsec' in Hsec. injection Hsec as <-.
  apply Forall_forall. intros section [i Hi]%list_elem_of_lookup.
  destruct (mapM_Ok_lookup _ _ _ _ _ Hat Hi) as (section0 & _ & Hsection).
  apply attach_light_Ok in Hsection
    as (y & block_light & sky_light & Hy & Hbl & Hsl & Hb & Hs & Hframe).
  exists y. split_and!.
  - rewrite Hframe by done. done.
  - by rewrite <- (misc_get_dict_stored _ _ _ y Hbl).
  - by rewrite <- (misc_get_dict_stored _ _ _ y Hsl).
Qed.

(** X17: the light arrays are lost between decode and encode.  Whatever
    light arrays the sections of a record carry, every section of the record
    obtained by decoding it and encoding the result carries 2048 zero bytes
    as BlockLight and as SkyLight: the keys [decode] keeps the arrays under
    are not the keys [encode] reads. *)
Theorem lights_lost data version data' sections :
  decode_encode data version = Ok data' →
  sections_of data' = Ok sections →
  Forall (fun section => getitem section "BlockLight" = Ok zero_light ∧
                         getitem section "SkyLight" = Ok zero_light) sections.
Proof.
  intros (chunk & palette & Hdec & Henc)%decode_encode_Ok Hsec.
  by eapply light_after_decode.
Qed.
End lights.

(** ** The shape of an encoded record *)

Section encoded_record.
Context {imports : Imports} {block_order : PyOrder Block}.

Lemma getitem_section_record y long_array sub_palette k :
  is_ok (getitem (section_record y long_array sub_palette) k) = true ↔
  k ∈ ["Y"; "BlockStates"; "Palette"].
Proof.
  unfold section_record. simpl. rewrite !elem_of_cons.
  destruct (String.eqb_spec k "Y"); [naive_solver|].
  destruct (String.eqb_spec k "BlockStates"); [naive_solver|].
  destruct (String.eqb_spec k "Palette"); [naive_solver|].
  split; [done|]. rewrite elem_of_nil. naive_solver.
Qed.

(** X13: the fields of an encoded record.  The record has exactly the fields
    Level and DataVersion; its Level compound has exactly the fields xPos,
    zPos, Sections and the twelve auxiliary fields [decode] requires; every
    section has exactly the fields Y, BlockStates, Palette, BlockLight and
    SkyLight. *)
Theorem encode_fields chunk palette version data :
  encode chunk palette version = Ok data →
  (∀ k, is_ok (getitem data k) = true ↔ k ∈ ["Level"; "DataVersion"]) ∧
  (∀ k, is_ok (field_of data k) = true ↔ k ∈ level_fields) ∧
  returns (sections_of data)
    (Forall (fun section =>
               ∀ k, is_ok (getitem section k) = true ↔ k ∈ section_fields)).
Proof.
  intros Henc.
  pose proof (encode_Ok _ _ _ _ Henc)
    as (raw & sections' & _ & Hraw & Hat & Hsec' & _).
  apply encode_level in Henc
    as (level & sections & Hlevel & Hversion & Hdata & Hx & Hz & Hsections
        & Hkept & Hbiomes & _ & Hhm & Hent & Hother).
  split_and!.
  - intros k. rewrite !elem_of_cons, elem_of_nil.
    destruct (decide (k = "Level")) as [->|Hk1]; [rewrite Hlevel; naive_solver|].
    destruct (decide (k = "DataVersion")) as [->|Hk2];
      [rewrite Hversion; naive_solver|].
    rewrite Hdata by done. naive_solver.
  - intros k. unfold field_of. rewrite Hlevel. simpl.
    destruct (decide (k ∈ level_fields)) as [Hk|Hk].
    + split; [done|]. intros _.
      unfold level_fields, auxiliary_fields in Hk. simpl in Hk.
      unfold kept_fields in Hkept.
      repeat match goal with
             | H : Forall _ (_ :: _) |- _ =>
                 apply Forall_cons in H as [[_ ?] H]
             end.
      simpl in *.
      rewrite !elem_of_cons, elem_of_nil in Hk.
      destruct Hk as [->|[->|[->|[->|[->|[->|[->|[->|[->|[->|[->|[->|[->|[->|[->|[]]]]]]]]]]]]]]]];
        first [done|by rewrite Hx|by rewrite Hz|by rewrite Hsections
              |by rewrite Hbiomes|by rewrite Hent].
    + rewrite Hother by done. naive_solver.
  - rewrite Hsec'. simpl.
    apply Forall_forall. intros section [i Hi]%list_elem_of_lookup.
    destruct (mapM_Ok_lookup _ _ _ _ _ Hat Hi) as (section0 & Hi0 & Hsection).
    apply list_elem_of_lookup_2 in Hi0.
    apply (encode_blocks_Ok _ _ _ _ Hraw) in Hi0 as (y & Hy & Hsec).
    apply encode_section_Ok in Hsec as (used & _ & Hcase).
    destruct Hcase as [[[=] _]|(long_array & _ & [= ->] & _)].
    apply attach_light_Ok in Hsection
      as (y' & block_light & sky_light & _ & _ & _ & Hb & Hs & Hframe).
    intros k. unfold section_fields. rewrite !elem_of_cons, elem_of_nil.
    destruct (decide (k = "BlockLight")) as [->|Hk1];
      [rewrite Hb; naive_solver|].
    destruct (decide (k = "SkyLight")) as [->|Hk2];
      [rewrite Hs; naive_solver|].
    rewrite Hframe by done. rewrite getitem_section_record.
    rewrite !elem_of_cons, elem_of_nil. naive_solver.
Qed.

(** X14: the version of an encoded record.  [_get_translator_info] reads from
    a record that [encode] wrote the version number [encode] was given (a
    number that an Int tag can hold), with the format name [anvil] whatever
    name was given, so [is_valid] accepts the record's key exactly when that
    number is at least 1444. *)
Theorem encoded_translator_info chunk palette version data :
  encode chunk palette version = Ok data →
  (- 2 ^ 31 ≤ version.2 < 2 ^ 31)%Z →
  ∃ key,
    _get_translator_info data = Ok (key, version.2) ∧
    key = ("anvil", version.2) ∧
    (is_valid key = true ↔ (1444 ≤ version.2)%Z).
Proof.
  intros (level & sections & _ & Hversion & _)%encode_level _.
  exists ("anvil", version.2). split_and!; [|done|].
  - unfold _get_translator_info. by rewrite Hversion.
  - unfold is_valid. simpl. destruct (Z.ltb_spec version.2 1444); split;
      (done || lia).
Qed.

(** X23: what a chunk keeps through an encode and a decode.  When a chunk
    whose coordinates fit an Int tag encodes and the record decodes again,
    the new chunk has the same coordinates, no entities, the encoded record
    as its [extra], and under the key of each kept field the tag the old
    [misc] held there, or the default [encode] wrote for it.  Its biomes are
    the converted biomes as an Int array stores them, cast to unsigned and
    read back as signed 32-bit integers: when the converted biomes fit in 32
    signed bits they come back unchanged, a biome of -1 as -1. *)
Theorem chunk_through_roundtrip chunk palette version data chunk' palette' :
  (- 2 ^ 31 ≤ cx chunk < 2 ^ 31)%Z → (- 2 ^ 31 ≤ cz chunk < 2 ^ 31)%Z →
  encode chunk palette version = Ok data →
  decode data = Ok (chunk', palette') →
  cx chunk' = cx chunk ∧ cz chunk' = cz chunk ∧
  entities chunk' = [] ∧ tileentities chunk' = None ∧
  extra chunk' = data ∧
  biomes chunk'
  = map (fun v => as_int32 (v mod 2 ^ 32))
        (convert_to_format (biomes chunk) 256) ∧
  (Forall (fun v => (- 2 ^ 31 ≤ v < 2 ^ 31)%Z)
          (convert_to_format (biomes chunk) 256) →
   biomes chunk' = convert_to_format (biomes chunk) 256) ∧
  Forall (fun f =>
            misc chunk' !! f.1.2
            = Some (MiscTag (from_option id f.2
                               (stored_tag (misc chunk) f.1.2))))
         kept_fields.
Proof.
  intros _ _ Henc Hdec.
  apply encode_level in Henc
    as (level & sections & Hlevel & _ & _ & Hx & Hz & _ & Hkept & Hbiomes & _).
  apply decode_kept in Hdec
    as (level' & Hlevel' & Hcx & Hcz & Hkept' & _ & Hbiomes' & _ & He & Ht
        & Hextra).
  rewrite Hlevel in Hlevel'. injection Hlevel' as <-.
  rewrite Hx in Hcx. rewrite Hz in Hcz. rewrite Hbiomes in Hbiomes'.
  simpl in Hcx, Hcz, Hbiomes'.
  split_and!; try congruence.
  - intros Hrange. injection Hbiomes' as <-.
    rewrite <- (list_fmap_id (convert_to_format (biomes chunk) 256)) at 2.
    apply Forall_fmap_ext_1.
    eapply Forall_impl; [exact Hrange|]. intros v Hv. simpl.
    by apply as_int32_unsigned.
  - rewrite Forall_forall in Hkept, Hkept'. apply Forall_forall.
    intros f Hf. destruct (Hkept f Hf) as [Hget _].
    destruct (Hkept' f Hf) as (t & Ht' & ->).
    rewrite Ht' in Hget. symmetry in Hget.
    by rewrite (misc_get_tag_stored _ _ _ _ Hget).
Qed.

Lemma decode_no_sections data level x z :
  getitem data "Level" = Ok level →
  getitem level "xPos" ≫= int_value = Ok x →
  getitem level "zPos" ≫= int_value = Ok z →
  getitem level "Sections" = Ok (TAG_List []) →
  decode data = Raise (NotImplementedError never_edited).
Proof.
  intros Hlevel Hx Hz Hsec. unfold decode.
  rewrite Hlevel. simpl. rewrite Hx. simpl. rewrite Hz. simpl.
  by rewrite Hsec.
Qed.

(** X18: a volume of air cannot be read back.  When every slab of a chunk is
    made of a single index whose descriptor is named minecraft:air, the
    record [encode] writes has no section, and [decode] rejects that record
    with NotImplementedError. *)
Theorem all_air_rejected chunk palette version data :
  has_shape 16 256 16 (blocks chunk) →
  (∀ y, y < 16 → air_slab (blocks chunk) palette y) →
  encode chunk palette version = Ok data →
  sections_of data = Ok [] ∧
  decode data = Raise (NotImplementedError never_edited).
Proof.
  intros Hshape Hair Henc.
  pose proof (encode_Ok _ _ _ _ Henc)
    as (raw & sections' & _ & Hraw & Hat & Hsec' & _).
  assert (raw = []) as ->.
  { destruct raw as [|section raw]; [done|].
    assert (section ∈ section :: raw) as Hin by left.
    apply (encode_blocks_Ok _ _ _ _ Hraw) in Hin as (y & Hy & Hsec).
    apply (encode_section_emitted _ _ _ _ Hshape Hy Hsec) in Hair; done. }
  simpl in Hat. injection Hat as <-. split; [done|].
  apply encode_level in Henc
    as (level & sections & Hlevel & _ & _ & Hx & Hz & Hsections & _).
  unfold sections_of, stored_sections in Hsec'.
  rewrite Hlevel in Hsec'. simpl in Hsec'. rewrite Hsections in Hsec'.
  simpl in Hsec'. injection Hsec' as ->.
  eapply decode_no_sections; [done| | |done].
  - by rewrite Hx.
  - by rewrite Hz.
Qed.
End encoded_record.

(** ** Strings cut at a separator *)

Lemma split_once_app sep a b :
  occurs sep a = false → split_once sep (a +:+ String sep b) = Some (a, b).
Proof.
  induction a as [|c a IH]; simpl.
  - intros _. by rewrite Ascii.eqb_refl.
  - intros [Hc Ha]%orb_false_elim. rewrite Hc. by rewrite IH.
Qed.

Lemma split_once_occurs sep a b :
  split_once sep (a +:+ String sep b) = Some (a, b) → occurs sep a = false.
Proof.
  induction a as [|c a IH]; simpl; [done|].
  destruct (Ascii.eqb c sep); [done|]. simpl.
  destruct (split_once sep (a +:+ String sep b)) as [[a' b']|] eqn:Hs; [|done].
  intros [= -> ->]. by apply IH.
Qed.

Lemma split_once_None sep s :
  occurs sep s = false → split_once sep s = None.
Proof.
  induction s as [|c s IH]; simpl; [done|].
  intros [Hc Hs]%orb_false_elim. rewrite Hc. by rewrite IH.
Qed.

Lemma well_named_occurs b :
  well_named b ↔ occurs ":" (namespace b) = false.
Proof.
  unfold well_named. split.
  - apply split_once_occurs.
  - apply split_once_app.
Qed.

Lemma mapM_app_Raise {A B} (f : A → result B) (l1 l2 : list A) (a : A) e :
  Forall (fun a => is_ok (f a) = true) l1 → f a = Raise e →
  mapM f (l1 ++ a :: l2) = Raise e.
Proof.
  intros Hall Ha. induction Hall as [|a' l1 Ha' Hall IH]; simpl.
  - by rewrite Ha.
  - destruct (f a'); [|done]. simpl. by rewrite IH.
Qed.

Section palettes.
Context {imports : Imports}.

(** X20: the palette codec.  Decoding the entries [_encode_palette] writes
    for a list of descriptors gives the list back exactly when no
    descriptor's namespace holds a colon: the name is split at its first
    colon. *)
Theorem palette_roundtrip_iff (blockstates : list Block) :
  _decode_palette (TAG_List (_encode_palette blockstates)) = Ok blockstates ↔
  Forall (fun b => occurs ":" (namespace b) = false) blockstates.
Proof.
  split.
  - intros Hdec. apply decode_palette_well_named in Hdec.
    eapply Forall_impl; [exact Hdec|]. intros b. apply well_named_occurs.
  - intros Hall. apply decode_encode_palette.
    eapply Forall_impl; [exact Hall|]. intros b. apply well_named_occurs.
Qed.

(** X21: entries [_decode_palette] rejects.  The first entry of a palette
    that has no Name makes the call fail with KeyError, and the first entry
    whose Name holds no colon makes it fail with ValueError; no descriptor is
    returned for the entries before it. *)
Theorem decode_palette_rejects before entry after :
  Forall (fun e => is_ok (_decode_palette_entry e) = true) before →
  (contains entry "Name" = Ok false →
   _decode_palette (TAG_List (before ++ entry :: after))
   = Raise (KeyError "Name")) ∧
  (∀ name,
     getitem entry "Name" = Ok (TAG_String name) → occurs ":" name = false →
     _decode_palette (TAG_List (before ++ entry :: after))
     = Raise (ValueError "not enough values to unpack")).
Proof.
  intros Hbefore. unfold _decode_palette. simpl. split.
  - intros Hname. apply mapM_app_Raise; [done|].
    unfold _decode_palette_entry.
    destruct entry as [| | | | | | | | |kvs]; try done.
    simpl in *. injection Hname as Hname.
    apply bool_decide_eq_false in Hname.
    destruct (assoc_get "Name" kvs); [|done]. by destruct Hname.
  - intros name Hname Hcolon. apply mapM_app_Raise; [done|].
    unfold _decode_palette_entry. rewrite Hname. simpl.
    by rewrite split_once_None.
Qed.
End palettes.

Lemma decode_palette_rejects_witness :
  _decode_palette (imports := reference_imports)
    (TAG_List ([air_entry] ++ TAG_Compound [("Properties", TAG_Compound [])]
               :: [stone_entry]))
  = Raise (KeyError "Name") ∧
  _decode_palette (imports := reference_imports)
    (TAG_List ([air_entry] ++ TAG_Compound [("Name", TAG_String "stone")]
               :: [stone_entry]))
  = Raise (ValueError "not enough values to unpack").
Proof.
  split.
  - refine (proj1 (decode_palette_rejects (imports := reference_imports)
                     [air_entry] (TAG_Compound [("Properties", TAG_Compound [])])
                     [stone_entry] _) eq_refl).
    by repeat constructor.
  - refine (proj2 (decode_palette_rejects (imports := reference_imports)
                     [air_entry] (TAG_Compound [("Name", TAG_String "stone")])
                     [stone_entry] _) "stone" eq_refl eq_refl).
    by repeat constructor.
Defined.

Section decoded_palette_members.
Context {imports : Imports} {block_order : PyOrder Block}.

(** X5: the palette [decode] returns.  It is strictly ascending in the
    order [numpy.unique] sorts descriptors by, and it holds air and the
    descriptors of the palettes of the record's sections, those no voxel uses
    included, and nothing else. *)
Theorem decode_palette_members data chunk palette sections :
  decode data = Ok (chunk, palette) →
  sections_of data = Ok sections →
  ascending palette ∧
  ∀ b, b ∈ palette ↔
       b = air ∨
       ∃ section local,
         section ∈ sections ∧
         getitem section "Palette" ≫= _decode_palette = Ok local ∧
         b ∈ local.
Proof.
  intros Hdec Hsecs.
  apply decode_blocks_of in Hdec as (chunk_sections & Hsec & Hblocks).
  unfold sections_of in Hsecs. rewrite Hsec in Hsecs. simpl in Hsecs.
  destruct chunk_sections; try done. injection Hsecs as ->.
  apply decode_blocks_Ok in Hblocks
    as (st & indexed & Hst & -> & _ & _ & _).
  split; [apply unique_ascending|].
  intros b. rewrite elem_of_unique.
  unfold stitched in Hst. simpl in Hst.
  rewrite (decode_sections_palette _ _ _ b Hst). simpl.
  rewrite list_elem_of_singleton. split.
  - intros [->|(section & local & Hin & _ & Hl & Hb)]; [by left|].
    right. by exists section, local.
  - intros [->|(section & local & Hin & Hl & Hb)]; [by left|].
    right. exists section, local. split_and!; try done.
    apply bind_Ok in Hl as (p & Hp & _). by eapply getitem_contains.
Qed.
End decoded_palette_members.

(** ** [properties_to_string] *)

Lemma string_app_nil_r (s : string) : s +:+ "" = s.
Proof.
  induction s as [|c s IH]; [done|].
  change (String c (s +:+ "") = String c s). by f_equal.
Qed.

Lemma string_app_assoc (a b c : string) : (a +:+ b) +:+ c = a +:+ (b +:+ c).
Proof.
  induction a as [|x a IH]; [done|].
  change (String x ((a +:+ b) +:+ c) = String x (a +:+ b +:+ c)). by f_equal.
Qed.

Lemma occurs_app c a b : occurs c (a +:+ b) = occurs c a || occurs c b.
Proof.
  induction a as [|x a IH]; [done|].
  change (Ascii.eqb x c || occurs c (a +:+ b)
          = Ascii.eqb x c || occurs c a || occurs c b).
  by rewrite IH, orb_assoc.
Qed.

Lemma app_sep_inj c a a' r r' :
  occurs c a = false → occurs c a' = false →
  a +:+ String c r = a' +:+ String c r' → a = a' ∧ r = r'.
Proof.
  intros Ha Ha' Heq.
  pose proof (split_once_app c a r Ha) as H1.
  pose proof (split_once_app c a' r' Ha') as H2.
  rewrite Heq in H1. rewrite H1 in H2. by injection H2.
Qed.

Lemma join_cons (x : string) (xs : list string) :
  String.concat "," (x :: xs) = x +:+ joined_tail xs.
Proof. destruct xs; simpl; [by rewrite string_app_nil_r|done]. Qed.

Lemma app_tail_inj v v' items items' :
  occurs "," v = false → occurs "," v' = false →
  v +:+ joined_tail items = v' +:+ joined_tail items' →
  v = v' ∧ String.concat "," items = String.concat "," items'.
Proof.
  intros Hv Hv' Heq.
  destruct items as [|x xs], items' as [|x' xs'];
    unfold joined_tail in Heq.
  - rewrite !string_app_nil_r in Heq. done.
  - rewrite string_app_nil_r in Heq. rewrite Heq, occurs_app in Hv.
    apply orb_false_elim in Hv as [_ Hv]. simpl in Hv. done.
  - rewrite string_app_nil_r in Heq. rewrite <- Heq, occurs_app in Hv'.
    apply orb_false_elim in Hv' as [_ Hv']. simpl in Hv'. done.
  - by apply app_sep_inj in Heq.
Qed.

(** X22: [properties_to_string] loses nothing on well-formed properties:
    two lists of properties whose keys hold no equals sign and whose values
    hold no comma, and that print as the same string, are the same list, in
    the same order. *)
Theorem properties_to_string_inj (props1 props2 : list (string * string)) :
  Forall (fun kv => occurs "=" kv.1 = false ∧ occurs "," kv.2 = false) props1 →
  Forall (fun kv => occurs "=" kv.1 = false ∧ occurs "," kv.2 = false) props2 →
  properties_to_string props1 = properties_to_string props2 →
  props1 = props2.
Proof.
  unfold properties_to_string. cbv zeta.
  intros Hall1. revert props2.
  induction Hall1 as [|[k1 v1] props1 [Hk1 Hv1] Hall1 IH]; intros props2 Hall2.
  - destruct Hall2 as [|[k2 v2] props2 _ _]; [done|].
    cbn [map]. rewrite join_cons. cbn [fst snd map String.concat].
    destruct k2; done.
  - destruct Hall2 as [|[k2 v2] props2 [Hk2 Hv2] Hall2].
    { cbn [map]. rewrite join_cons. cbn [fst snd map String.concat].
      destruct k1; done. }
    cbn [map]. rewrite !join_cons. cbn [fst snd] in *.
    rewrite !string_app_assoc.
    change ("=" +:+ ?v +:+ ?t) with (String "="%char (v +:+ t)).
    intros Heq. apply app_sep_inj in Heq as [-> Heq]; [|done..].
    apply app_tail_inj in Heq as [-> Heq]; [|done..].
    f_equal. by apply IH.
Qed.

Lemma properties_to_string_inj_witness :
  properties_to_string [("facing", "north"); ("half", "top")]
  = "facing=north,half=top" ∧
  [("facing", "north"); ("half", "top")]
  = [("facing", "north"); ("half", "top")].
Proof.
  split; [reflexivity|].
  apply properties_to_string_inj; [by repeat constructor..|reflexivity].
Defined.

(** ** Voxels through encode and decode *)

Lemma mapM_Ok_app {A B} (f : A → result B) (l1 l2 : list A) (k : list B) :
  mapM f (l1 ++ l2) = Ok k ↔
  ∃ k1 k2, mapM f l1 = Ok k1 ∧ mapM f l2 = Ok k2 ∧ k = k1 ++ k2.
Proof.
  revert k. induction l1 as [|a l1 IH]; intros k; simpl.
  - split.
    + intros Hk. by exists [], k.
    + by intros (k1 & k2 & [= <-] & Hk2 & ->).
  - split.
    + intros Hk. apply bind_Ok in Hk as (b & Hb & Hk).
      apply bind_Ok in Hk as (k' & Hk' & [= <-]).
      apply IH in Hk' as (k1 & k2 & Hk1 & Hk2 & ->).
      exists (b :: k1), k2. by rewrite Hb, Hk1.
    + intros (k1 & k2 & Hk1 & Hk2 & ->).
      apply bind_Ok in Hk1 as (b & Hb & Hk1).
      apply bind_Ok in Hk1 as (k1' & Hk1' & [= <-]).
      rewrite Hb. simpl.
      assert (mapM f (l1 ++ l2) = Ok (k1' ++ k2)) as ->; [|done].
      apply IH. by exists k1', k2.
Qed.

Lemma written_slab_of_nat (y : nat) :
  y < 16 → written_slab (Z.of_nat y) = Some y.
Proof.
  intros Hy. unfold written_slab. rewrite decide_True by lia.
  f_equal. rewrite Z.mod_small by lia. apply Nat2Z.id.
Qed.

Lemma seq_split (len y : nat) :
  y < len → seq 0 len = seq 0 y ++ [y] ++ seq (S y) (len - S y).
Proof.
  intros Hy. assert (len = y + S (len - S y)) as Hlen by lia.
  rewrite Hlen at 1. by rewrite seq_app.
Qed.

Section voxels_through_roundtrip.
Context {imports : Imports} {block_order : PyOrder Block}.

Lemma encode_sections_app blocks palette ys1 ys2 sections :
  _encode_sections blocks palette (ys1 ++ ys2) = Ok sections ↔
  ∃ sections1 sections2,
    _encode_sections blocks palette ys1 = Ok sections1 ∧
    _encode_sections blocks palette ys2 = Ok sections2 ∧
    sections = sections1 ++ sections2.
Proof.
  revert sections. induction ys1 as [|y ys1 IH]; intros sections; simpl.
  - split.
    + intros Hs. by exists [], sections.
    + by intros (s1 & s2 & [= <-] & Hs2 & ->).
  - split.
    + intros Hs. apply bind_Ok in Hs as (r & Hr & Hs).
      apply bind_Ok in Hs as (rest & Hrest & [= <-]).
      apply IH in Hrest as (s1 & s2 & Hs1 & Hs2 & ->).
      rewrite Hr, Hs1. simpl. eexists _, s2. split_and!; [done..|].
      by destruct r.
    + intros (s1 & s2 & Hs1 & Hs2 & ->).
      apply bind_Ok in Hs1 as (r & Hr & Hs1).
      apply bind_Ok in Hs1 as (s1' & Hs1' & [= <-]).
      rewrite Hr. simpl.
      assert (_encode_sections blocks palette (ys1 ++ ys2) = Ok (s1' ++ s2))
        as -> by (apply IH; by exists s1', s2).
      simpl. by destruct r.
Qed.

(** The sections emitted for the slabs of [ys] carry the slab indices of
    [ys]. *)
Lemma encode_sections_slabs blocks palette ys sections :
  _encode_sections blocks palette ys = Ok sections →
  Forall (fun section =>
            ∃ y, y ∈ ys ∧ getitem section "Y" = Ok (TAG_Byte (Z.of_nat y)) ∧
                 is_ok (getitem section "Palette") = true) sections.
Proof.
  intros Henc. apply Forall_forall. intros section Hin.
  apply (encode_sections_Ok _ _ _ _ _ Henc) in Hin as (y & Hy & Hsec).
  apply encode_section_Ok in Hsec as (used & _ & Hcase).
  destruct Hcase as [[[=] _]|(long_array & _ & [= ->] & _)].
  by exists y.
Qed.

Lemma attach_light_target misc section section' y :
  y < 16 →
  getitem section "Y" = Ok (TAG_Byte (Z.of_nat y)) →
  is_ok (getitem section "Palette") = true →
  attach_light misc section = Ok section' →
  target_slab section' = Some y.
Proof.
  intros Hy HY Hpal Hat.
  apply attach_light_Ok in Hat as (_ & _ & _ & _ & _ & _ & _ & _ & Hframe).
  unfold target_slab.
  destruct (getitem section "Palette") as [p|] eqn:Hp; [|done].
  rewrite <- (Hframe "Palette") in Hp by done.
  rewrite (getitem_contains _ _ _ Hp).
  rewrite Hframe by done. rewrite HY. simpl.
  by apply written_slab_of_nat.
Qed.

(** X19: where the voxels are after an encode and a decode.  Take a chunk
    whose volume is a full 16 x 256 x 16 array and a palette of descriptors
    whose namespaces hold no colon, and suppose that the packed array of
    every emitted slab decodes to the indices it was made from.  When the chunk
    encodes and the record decodes again, then, before the final cast,
    - in a slab [encode] emitted, the voxel at (x, 16 y + yy, z) of the new
      volume denotes the descriptor that the voxel at (yy, 16 y + z, x) of
      the old volume denoted: the slab comes back with its axes rotated,
      because [_encode_blocks] flattens it in the order (x, height, z) and
      [_decode_blocks] reads it in the order (height, z, x);
    - in a slab [encode] omitted, every voxel denotes air without
      properties. *)
Theorem roundtrip_voxels chunk palette version data' chunk' palette' :
  has_shape 16 256 16 (blocks chunk) →
  Forall well_named palette →
  (∀ y long_array, y < 16 → ¬ air_slab (blocks chunk) palette y →
     encode_long_array (unique_inverse (slab_of (blocks chunk) y)).2
     = Ok long_array →
     decode_long_array long_array 4096
     = Ok (unique_inverse (slab_of (blocks chunk) y)).2) →
  encode chunk palette version = Ok data' →
  decode data' = Ok (chunk', palette') →
  ∃ indexed,
    blocks chunk' = astype_uint (get_smallest_dtype indexed) indexed ∧
    ∀ y x yy z, y < 16 → x < 16 → yy < 16 → z < 16 →
      (air_slab (blocks chunk) palette y →
       palette' !! get3 indexed x (16 * y + yy) z = Some air) ∧
      (¬ air_slab (blocks chunk) palette y →
       palette' !! get3 indexed x (16 * y + yy) z
       = palette !! get3 (blocks chunk) yy (y * 16 + z) x).
Proof.
  intros Hshape Hnamed Hcodec Henc Hdec.
  pose proof (encode_Ok _ _ _ _ Henc)
    as (raw & sections' & _ & Hraw & Hat & Hsec' & _).
  apply decode_blocks_of in Hdec as (chunk_sections & Hsec & Hblocks).
  unfold sections_of in Hsec'. rewrite Hsec in Hsec'. simpl in Hsec'.
  destruct chunk_sections; try done. injection Hsec' as ->.
  apply decode_blocks_resolve in Hblocks as (st & indexed & Hst & Hcast & Hres).
  exists indexed. split; [done|].
  intros y x yy z Hy Hx Hyy Hz.
  rewrite Hres by (done || lia).
  destruct (encode_blocks_all _ _ _ y Hraw Hy) as [r Hr].
  pose proof (encode_section_emitted _ _ _ _ Hshape Hy Hr) as Hiff.
  unfold _encode_blocks in Hraw.
  rewrite (seq_split 16 y Hy) in Hraw.
  apply encode_sections_app in Hraw as (raw1 & raw' & Hraw1 & Hraw' & ->).
  apply encode_sections_app in Hraw' as (rawy & raw2 & Hrawy & Hraw2 & ->).
  simpl in Hrawy. rewrite Hr in Hrawy. simpl in Hrawy.
  apply mapM_Ok_app in Hat as (s1 & s' & Hs1 & Hs' & ->).
  apply mapM_Ok_app in Hs' as (sy & s2 & Hsy & Hs2 & ->).
  assert (∀ ys raws ss,
            _encode_sections (blocks chunk) palette ys = Ok raws →
            mapM (attach_light (misc chunk)) raws = Ok ss →
            y ∉ ys → Forall (fun k => k < 16) ys →
            Forall (fun s => target_slab s ≠ Some y) ss) as Hothers.
  { intros ys raws ss Hraws Hss Hnot Hlt.
    apply encode_sections_slabs in Hraws. rewrite Forall_forall in Hraws.
    apply Forall_forall. intros s [i Hi]%list_elem_of_lookup.
    destruct (mapM_Ok_lookup _ _ _ _ _ Hss Hi) as (s0 & Hi0 & Hs0).
    apply list_elem_of_lookup_2 in Hi0.
    destruct (Hraws _ Hi0) as (k & Hk & HY & Hpal).
    rewrite Forall_forall in Hlt.
    rewrite (attach_light_target _ _ _ k (Hlt _ Hk) HY Hpal Hs0).
    intros [= ->]. done. }
  assert (Forall (fun s => target_slab s ≠ Some y) s1) as Hs1_ne.
  { eapply Hothers; [exact Hraw1|exact Hs1| |].
    - rewrite elem_of_seq. lia.
    - apply Forall_forall. intros k Hk%elem_of_seq. lia. }
  assert (Forall (fun s => target_slab s ≠ Some y) s2) as Hs2_ne.
  { eapply Hothers; [exact Hraw2|exact Hs2| |].
    - rewrite elem_of_seq. lia.
    - apply Forall_forall. intros k Hk%elem_of_seq. lia. }
  split.
  - intros Hair. apply Hiff in Hair as ->. injection Hrawy as <-.
    simpl in Hsy. injection Hsy as <-.
    eapply stitched_unwritten; [exact Hst| |done..].
    by apply Forall_app.
  - intros Hnot. destruct r as [section|]; [|by destruct Hnot; apply Hiff].
    injection Hrawy as <-. simpl in Hsy.
    apply bind_Ok in Hsy as (section' & Hsection' & [= <-]).
    apply encode_section_Ok in Hr as (used & Hused & Hcase).
    apply take_palette_Ok in Hused.
    destruct Hcase as [[[=] _]|(long_array & Hlong & [= ->] & _)].
    pose proof (attach_light_target (misc chunk)
                  (section_record y long_array (_encode_palette used))
                  section' y Hy eq_refl eq_refl Hsection') as Htarget.
    apply attach_light_Ok in Hsection'
      as (_ & _ & _ & _ & _ & _ & _ & _ & Hframe).
    assert (Forall well_named used) as Hused_named.
    { rewrite Forall_forall in Hnamed. apply Forall_forall.
      intros b [i Hi]%list_elem_of_lookup.
      destruct (Forall2_lookup_r _ _ _ _ _ Hused Hi) as (v & _ & Hv).
      apply Hnamed. by eapply list_elem_of_lookup_2. }
    pose proof (slab_of_lookup (blocks chunk) y yy z x Hshape Hy Hyy Hz Hx)
      as Hv.
    destruct (unique_inverse_lookup _ _ _ Hv) as [Hinv Hu].
    destruct (Forall2_lookup_l _ _ _ _ _ Hused Hu) as (b & Hb & Hpal).
    rewrite Hpal, <- Hb.
    rewrite <- (nth_lookup_Some _ _ 0 _ Hinv).
    eapply (stitched_slab s1 _ s2 st y long_array); try done.
    + rewrite Hframe by done. done.
    + by apply Hcodec.
    + rewrite Hframe by done. simpl. by apply decode_encode_palette.
    + rewrite (nth_lookup_Some _ _ 0 _ Hinv). by apply lookup_lt_Some in Hb.
Qed.
End voxels_through_roundtrip.

Lemma encode_then_decode_Ok {imports : Imports} {block_order : PyOrder Block}
    chunk palette version t :
  encode_then_decode chunk palette version = Ok t →
  encode chunk palette version = Ok t.1 ∧ decode t.1 = Ok t.2.
Proof.
  unfold encode_then_decode. intros Ht.
  apply bind_Ok in Ht as (data & Henc & Ht).
  apply bind_Ok in Ht as (r & Hdec & [= <-]). done.
Qed.

(** ** The interface run on the sample records *)

Lemma get3_zeros3 d0 d1 d2 i j k : get3 (zeros3 d0 d1 d2) i j k = 0.
Proof.
  unfold get3, zeros3.
  destruct (decide (i < d0)) as [Hi|Hi].
  - rewrite nth_repeat_lt by done.
    destruct (decide (j < d1)) as [Hj|Hj].
    + rewrite nth_repeat_lt by done.
      destruct (decide (k < d2)) as [Hk|Hk].
      * by rewrite nth_repeat_lt.
      * apply nth_overflow. rewrite repeat_length. lia.
    + rewrite (nth_overflow (repeat _ d1)) by (rewrite repeat_length; lia).
      by destruct k.
  - rewrite (nth_overflow (repeat _ d0)) by (rewrite repeat_length; lia).
    by destruct j, k.
Qed.

Section runs.
Context {imports : Imports} {block_order : PyOrder Block}.

Lemma roundtrip_decodes data version :
  is_ok (roundtrip data version) = true → is_ok (decode data) = true.
Proof. unfold roundtrip. by destruct (decode data). Qed.

Lemma roundtrip_encodes data version :
  is_ok (roundtrip data version) = true →
  is_ok (decode_encode data version) = true.
Proof.
  unfold roundtrip, decode_encode. destruct (decode data) as [r|]; [|done].
  simpl. by destruct (encode r.1 r.2 version).
Qed.

Lemma encode_sections_of chunk palette version :
  is_ok (encode chunk palette version) = true →
  is_ok (encode chunk palette version ≫= sections_of) = true.
Proof.
  destruct (encode chunk palette version) as [data|] eqn:Henc; [|done].
  intros _. simpl.
  apply encode_Ok in Henc as (_ & sections' & _ & _ & _ & -> & _). done.
Qed.

Lemma decode_encode_sections_of data version :
  is_ok (decode_encode data version) = true →
  is_ok (decode_encode data version ≫= sections_of) = true.
Proof.
  unfold decode_encode. destruct (decode data) as [r|]; [|done]. simpl.
  apply encode_sections_of.
Qed.

Lemma encode_then_decode_encodes chunk palette version :
  is_ok (encode_then_decode chunk palette version) = true →
  is_ok (encode chunk palette version) = true.
Proof. unfold encode_then_decode. by destruct (encode chunk palette version). Qed.

Lemma encode_encodes_blocks chunk palette version :
  is_ok (encode chunk palette version) = true →
  is_ok (_encode_blocks (blocks chunk) palette) = true.
Proof.
  destruct (encode chunk palette version) as [data|] eqn:Henc; [|done].
  intros _. apply encode_Ok in Henc as (sections & _ & _ & -> & _). done.
Qed.
End runs.

(** The record with one stone voxel decodes, the decoded chunk encodes and
    the encoded record decodes. *)
Lemma sample_record_runs :
  is_ok (roundtrip (imports := reference_imports)
           (block_order := reference_block_order)
           (sample_record [one_stone_section]) ("anvil", 1631%Z)) = true.
Proof.
  pose proof roundtrip_moves_voxels as Hrun.
  by destruct (roundtrip _ _).
Qed.

(** [lit_chunk] encodes, and the record decodes. *)
Lemma lit_chunk_runs :
  is_ok (encode_then_decode (imports := reference_imports)
           (block_order := reference_block_order)
           lit_chunk [air; stone] ("anvil", 1631%Z)) = true.
Proof. vm_compute. reflexivity. Qed.

(** [bare_chunk] encodes. *)
Lemma bare_chunk_runs :
  is_ok (reference_encode bare_chunk [air] ("anvil", 1631%Z)) = true.
Proof. vm_compute. reflexivity. Qed.

Lemma sample_record_decodes :
  is_ok (reference_decode (sample_record [one_stone_section])) = true.
Proof. exact (roundtrip_decodes _ _ sample_record_runs). Qed.

Lemma sample_record_reencodes :
  is_ok (decode_encode (imports := reference_imports)
           (block_order := reference_block_order)
           (sample_record [one_stone_section]) ("anvil", 1631%Z)) = true.
Proof. exact (roundtrip_encodes _ _ sample_record_runs). Qed.

Lemma lit_chunk_encodes :
  is_ok (reference_encode lit_chunk [air; stone] ("anvil", 1631%Z)) = true.
Proof. exact (encode_then_decode_encodes _ _ _ lit_chunk_runs). Qed.

Lemma lit_chunk_encodes_blocks :
  is_ok (reference_encode_blocks (blocks lit_chunk) [air; stone]) = true.
Proof. exact (encode_encodes_blocks _ _ _ lit_chunk_encodes). Qed.

Lemma lit_chunk_shape : has_shape 16 256 16 (blocks lit_chunk).
Proof. exact (has_shape_tabulate3 16 256 16 _). Qed.

(** The slabs of [lit_chunk] above the first are air. *)
Lemma lit_chunk_air y : 0 < y → air_slab (blocks lit_chunk) [air; stone] y.
Proof.
  intros Hy. exists 0, air. split_and!; [|done..].
  intros x yy z Hx Hyy Hz.
  change (blocks lit_chunk) with corner_blocks. unfold corner_blocks.
  destruct (decide (y * 16 + yy < 256)) as [Hlt|Hge].
  - rewrite get3_tabulate3 by lia.
    replace (y * 16 + yy =? 0) with false by (symmetry; apply Nat.eqb_neq; lia).
    by rewrite andb_false_r.
  - unfold get3, tabulate3.
    destruct (decide (x < 16)) as [Hx'|Hx']; [|lia].
    rewrite (nth_map_seq _ 16 x) by done.
    rewrite (nth_overflow (map _ (seq 0 256)))
      by (rewrite length_map, length_seq; lia).
    by destruct z.
Qed.

(** *** Decoding *)

Lemma decode_section_slab_witness :
  ∃ blocks',
    _decode_section (imports := reference_imports) wrapped_section
      (zeros3 256 16 16, [air])
    = Ok (blocks', [air] ++ [air; stone]) ∧
    ∀ i j k, i < 256 → j < 16 → k < 16 →
      get3 blocks' i j k
      = if decide (16 * 14 ≤ i < 16 * 14 + 16)
        then nth (256 * (i - 16 * 14) + 16 * j + k) (repeat 1 4096) 0 + 1
        else get3 (zeros3 256 16 16) i j k.
Proof.
  exact (decode_section_slab (imports := reference_imports)
           wrapped_section (zeros3 256 16 16, [air]) (-2)
           (repeat 1229782938247303441%Z 256) (repeat 1 4096) [air; stone]
           (has_shape_zeros3 256 16 16) eq_refl eq_refl eq_refl
           ltac:(vm_compute; reflexivity) ltac:(vm_compute; reflexivity)
           eq_refl).
Defined.

Lemma decode_voxel_witness :
  returns (reference_decode (sample_record [one_stone_section]))
    (fun r =>
       ∃ indexed,
         blocks r.1 = astype_uint (reference_get_smallest_dtype indexed) indexed ∧
         ∀ x yy z, x < 16 → yy < 16 → z < 16 →
           nth (256 * yy + 16 * z + x) (0 :: 1 :: repeat 0 4094) 0
           < length [air; stone] →
           r.2 !! get3 indexed x (16 * 0 + yy) z
           = [air; stone] !! nth (256 * yy + 16 * z + x)
                               (0 :: 1 :: repeat 0 4094) 0).
Proof.
  apply returns_intro; [exact sample_record_decodes|].
  intros [chunk palette] Hdec.
  refine (decode_voxel (imports := reference_imports)
            (block_order := reference_block_order)
            _ chunk palette [] one_stone_section [] 0
            (16%Z :: repeat 0%Z 255) (0 :: 1 :: repeat 0 4094) [air; stone]
            Hdec eq_refl eq_refl (Forall_nil_2 _) eq_refl _ eq_refl).
  vm_compute. reflexivity.
Defined.

Lemma decode_unwritten_air_witness :
  returns (reference_decode (sample_record [one_stone_section]))
    (fun r =>
       ∃ indexed,
         blocks r.1 = astype_uint (reference_get_smallest_dtype indexed) indexed ∧
         ∀ x yy z, x < 16 → yy < 16 → z < 16 →
           r.2 !! get3 indexed x (16 * 2 + yy) z = Some air).
Proof.
  apply returns_intro; [exact sample_record_decodes|].
  intros [chunk palette] Hdec.
  refine (decode_unwritten_air (imports := reference_imports)
            (block_order := reference_block_order)
            _ chunk palette [one_stone_section] 2
            Hdec eq_refl _ _).
  - lia.
  - repeat constructor; vm_compute; discriminate.
Defined.

Lemma decode_shape_witness :
  returns (reference_decode (sample_record [one_stone_section]))
    (fun r => has_shape 16 256 16 (blocks r.1)).
Proof.
  apply returns_intro; [exact sample_record_decodes|].
  intros [chunk palette] Hdec.
  exact (decode_shape (imports := reference_imports)
           (block_order := reference_block_order) _ _ _ Hdec).
Defined.

Lemma decode_palette_members_witness :
  returns (reference_decode (sample_record [one_stone_section]))
    (fun r =>
       ascending (A_order := reference_block_order) r.2 ∧
       ∀ b, b ∈ r.2 ↔
            b = air ∨
            ∃ section local,
              section ∈ [one_stone_section] ∧
              getitem section "Palette"
                ≫= _decode_palette (imports := reference_imports)
              = Ok local ∧
              b ∈ local).
Proof.
  apply returns_intro; [exact sample_record_decodes|].
  intros [chunk palette] Hdec.
  exact (decode_palette_members (imports := reference_imports)
           (block_order := reference_block_order) _ _ _ _ Hdec eq_refl).
Defined.

Lemma decode_keeps_lights_witness :
  returns (reference_decode (sample_record [one_stone_section]))
    (fun r =>
       ∃ block_light sky_light,
         getitem one_stone_section "BlockLight" = Ok block_light ∧
         getitem one_stone_section "SkyLight" = Ok sky_light ∧
         stored_light (misc r.1) "BlockLight2048BA" 0 = Some block_light ∧
         stored_light (misc r.1) "SkyLight2048BA" 0 = Some sky_light).
Proof.
  apply returns_intro; [exact sample_record_decodes|].
  intros [chunk palette] Hdec.
  exact (decode_keeps_lights (imports := reference_imports)
            (block_order := reference_block_order)
            _ chunk palette [] one_stone_section [] 0%Z
            Hdec eq_refl eq_refl (Forall_nil_2 _)).
Defined.

(** *** Encoding *)

Lemma encode_sections_ascending_witness :
  returns (reference_encode_blocks (blocks lit_chunk) [air; stone])
    (fun sections =>
       ∃ ys,
         mapM (fun section => getitem section "Y") sections
         = Ok (map (fun y => TAG_Byte (Z.of_nat y)) ys) ∧
         StronglySorted lt ys ∧
         Forall (fun y => y < 16) ys ∧
         length sections ≤ 16).
Proof.
  apply returns_intro; [exact lit_chunk_encodes_blocks|].
  intros sections Henc.
  exact (encode_sections_ascending (imports := reference_imports) _ _ _ Henc).
Defined.

Lemma encode_blocks_indices_witness :
  returns (reference_encode_blocks (blocks lit_chunk) [air; stone])
    (fun _ => all3 (fun v => v < length [air; stone]) (blocks lit_chunk)).
Proof.
  apply returns_intro; [exact lit_chunk_encodes_blocks|].
  intros sections Henc.
  exact (encode_blocks_indices (imports := reference_imports) _ _ _
           lit_chunk_shape Henc).
Defined.

Lemma encode_local_indices_witness :
  returns (reference_encode_blocks (blocks lit_chunk) [air; stone])
    (Forall (fun section =>
       ∃ y used local long_array,
         y < 16 ∧
         getitem section "Y" = Ok (TAG_Byte (Z.of_nat y)) ∧
         getitem section "Palette" = Ok (TAG_List (_encode_palette used)) ∧
         getitem section "BlockStates" = Ok (TAG_Long_Array long_array) ∧
         reference_encode_long_array local = Ok long_array ∧
         length local = 4096 ∧
         ∀ x yy z, x < 16 → yy < 16 → z < 16 →
           ∃ i b, local !! (256 * x + 16 * yy + z) = Some i ∧
                  used !! i = Some b ∧
                  [air; stone] !! get3 (blocks lit_chunk) x (y * 16 + yy) z
                  = Some b)).
Proof.
  apply returns_intro; [exact lit_chunk_encodes_blocks|].
  intros sections Henc. apply Forall_forall. intros section Hin.
  exact (encode_local_indices (imports := reference_imports) _ _ _ _
           lit_chunk_shape Henc Hin).
Defined.

Lemma slab_emitted_iff_witness :
  returns (reference_encode_blocks (blocks lit_chunk) [air; stone])
    (fun sections =>
       (∃ section, section ∈ sections ∧
                   getitem section "Y" = Ok (TAG_Byte (Z.of_nat 0))) ↔
       ¬ air_slab (blocks lit_chunk) [air; stone] 0).
Proof.
  apply returns_intro; [exact lit_chunk_encodes_blocks|].
  intros sections Henc.
  exact (slab_emitted_iff (imports := reference_imports) _ _ _ 0
           lit_chunk_shape Henc ltac:(lia)).
Defined.

Lemma encode_lights_witness :
  returns (reference_encode lit_chunk [air; stone] ("anvil", 1631%Z)
             ≫= sections_of)
    (Forall (fun section =>
               ∃ y,
                 getitem section "Y" ≫= int_value = Ok y ∧
                 getitem section "BlockLight"
                 = Ok (from_option id zero_light
                         (stored_light (misc lit_chunk) "BlockLight2048" y)) ∧
                 getitem section "SkyLight"
                 = Ok (from_option id zero_light
                         (stored_light (misc lit_chunk) "SkyLight2048" y)))).
Proof.
  apply returns_intro; [exact (encode_sections_of _ _ _ lit_chunk_encodes)|].
  intros sections (data & Henc & Hsec)%bind_Ok.
  exact (encode_lights (imports := reference_imports) _ _ _ _ _ Henc Hsec).
Defined.

Lemma encode_auxiliary_witness :
  returns (reference_encode lit_chunk [air; stone] ("anvil", 1631%Z))
    (fun data =>
       Forall (fun f =>
                 field_of data f.1.1
                 = Ok (from_option id f.2 (stored_tag (misc lit_chunk) f.1.2)))
              kept_fields).
Proof.
  apply returns_intro; [exact lit_chunk_encodes|].
  intros data Henc.
  exact (encode_auxiliary (imports := reference_imports) _ _ _ _ Henc).
Defined.

Lemma encode_fields_witness :
  returns (reference_encode lit_chunk [air; stone] ("anvil", 1631%Z))
    (fun data =>
       (∀ k, is_ok (getitem data k) = true ↔ k ∈ ["Level"; "DataVersion"]) ∧
       (∀ k, is_ok (field_of data k) = true ↔ k ∈ level_fields) ∧
       returns (sections_of data)
         (Forall (fun section =>
                    ∀ k, is_ok (getitem section k) = true
                         ↔ k ∈ section_fields))).
Proof.
  apply returns_intro; [exact lit_chunk_encodes|].
  intros data Henc.
  exact (encode_fields (imports := reference_imports) _ _ _ _ Henc).
Defined.

Lemma encoded_translator_info_witness :
  returns (reference_encode lit_chunk [air; stone] ("anvil", 1631%Z))
    (fun data =>
       ∃ key,
         _get_translator_info data = Ok (key, 1631%Z) ∧
         key = ("anvil", 1631%Z) ∧
         (is_valid key = true ↔ (1444 ≤ 1631)%Z)).
Proof.
  apply returns_intro; [exact lit_chunk_encodes|].
  intros data Henc.
  exact (encoded_translator_info (imports := reference_imports)
           _ _ ("anvil", 1631%Z) _ Henc ltac:(simpl; lia)).
Defined.

Lemma all_air_rejected_witness :
  returns (reference_encode bare_chunk [air] ("anvil", 1631%Z))
    (fun data =>
       sections_of data = Ok [] ∧
       reference_decode data = Raise (NotImplementedError never_edited)).
Proof.
  apply returns_intro; [exact bare_chunk_runs|].
  intros data Henc.
  refine (all_air_rejected (imports := reference_imports)
            (block_order := reference_block_order) bare_chunk [air] _ _
            (has_shape_zeros3 16 256 16) _ Henc).
  intros y Hy. exists 0, air. split_and!; [|done..].
  intros x yy z _ _ _. apply get3_zeros3.
Defined.

(** *** Decoding and encoding again *)

Lemma auxiliary_passthrough_witness :
  returns (decode_encode (imports := reference_imports)
             (block_order := reference_block_order)
             (sample_record [one_stone_section]) ("anvil", 1631%Z))
    (fun data' =>
       Forall (fun f => field_of data' f.1.1 = field_of (sample_record [one_stone_section]) f.1.1)
              kept_fields ∧
       Forall (fun name =>
                 heightmap_of data' name
                 = field_of (sample_record [one_stone_section]) "Heightmaps"
                     ≫= fun heightmaps =>
                          get_default heightmaps name zero_heightmap)
              heightmap_names ∧
       (∀ x, field_of (sample_record [one_stone_section]) "xPos" = Ok (TAG_Int x) →
             field_of data' "xPos" = Ok (TAG_Int x)) ∧
       (∀ z, field_of (sample_record [one_stone_section]) "zPos" = Ok (TAG_Int z) →
             field_of data' "zPos" = Ok (TAG_Int z))).
Proof.
  apply returns_intro; [exact sample_record_reencodes|].
  intros data' Hde.
  exact (auxiliary_passthrough (imports := reference_imports)
           (block_order := reference_block_order) _ _ _ Hde).
Defined.

Lemma entities_dropped_witness :
  returns (decode_encode (imports := reference_imports)
             (block_order := reference_block_order)
             (sample_record [one_stone_section]) ("anvil", 1631%Z))
    (fun data' =>
       returns (reference_decode (sample_record [one_stone_section]))
         (fun r => entities r.1 = [] ∧ tileentities r.1 = None) ∧
       field_of data' "Entities" = Ok (TAG_List []) ∧
       field_of data' "TileEntities" = Raise (KeyError "TileEntities")).
Proof.
  apply returns_intro; [exact sample_record_reencodes|].
  intros data' Hde.
  exact (entities_dropped (imports := reference_imports)
           (block_order := reference_block_order) _ _ _ Hde).
Defined.

Lemma lights_lost_witness :
  returns (decode_encode (imports := reference_imports)
             (block_order := reference_block_order)
             (sample_record [one_stone_section]) ("anvil", 1631%Z)
             ≫= sections_of)
    (Forall (fun section => getitem section "BlockLight" = Ok zero_light ∧
                            getitem section "SkyLight" = Ok zero_light)).
Proof.
  apply returns_intro;
    [exact (decode_encode_sections_of _ _ sample_record_reencodes)|].
  intros sections (data' & Hde & Hsec)%bind_Ok.
  exact (lights_lost (imports := reference_imports)
           (block_order := reference_block_order) _ _ _ _ Hde Hsec).
Defined.

Lemma chunk_through_roundtrip_witness :
  returns (encode_then_decode (imports := reference_imports)
             (block_order := reference_block_order)
             lit_chunk [air; stone] ("anvil", 1631%Z))
    (fun t =>
       cx t.2.1 = cx lit_chunk ∧ cz t.2.1 = cz lit_chunk ∧
       entities t.2.1 = [] ∧ tileentities t.2.1 = None ∧
       extra t.2.1 = t.1 ∧
       biomes t.2.1
       = map (fun v => as_int32 (v mod 2 ^ 32))
             (convert_to_format (Imports := reference_imports)
                (biomes lit_chunk) 256) ∧
       (Forall (fun v => (- 2 ^ 31 ≤ v < 2 ^ 31)%Z)
               (convert_to_format (Imports := reference_imports)
                  (biomes lit_chunk) 256) →
        biomes t.2.1
        = convert_to_format (Imports := reference_imports)
            (biomes lit_chunk) 256) ∧
       Forall (fun f =>
                 misc t.2.1 !! f.1.2
                 = Some (MiscTag (from_option id f.2
                                    (stored_tag (misc lit_chunk) f.1.2))))
              kept_fields).
Proof.
  apply returns_intro; [exact lit_chunk_runs|].
  intros [data [chunk' palette']] [Henc Hdec]%encode_then_decode_Ok.
  exact (chunk_through_roundtrip (imports := reference_imports)
           (block_order := reference_block_order)
           lit_chunk [air; stone] ("anvil", 1631%Z) data chunk' palette'
           ltac:(simpl; lia) ltac:(simpl; lia) Henc Hdec).
Defined.

Lemma roundtrip_voxels_witness :
  returns (encode_then_decode (imports := reference_imports)
             (block_order := reference_block_order)
             lit_chunk [air; stone] ("anvil", 1631%Z))
    (fun t =>
       ∃ indexed,
         blocks t.2.1
         = astype_uint (reference_get_smallest_dtype indexed) indexed ∧
         ∀ y x yy z, y < 16 → x < 16 → yy < 16 → z < 16 →
           (air_slab (blocks lit_chunk) [air; stone] y →
            t.2.2 !! get3 indexed x (16 * y + yy) z = Some air) ∧
           (¬ air_slab (blocks lit_chunk) [air; stone] y →
            t.2.2 !! get3 indexed x (16 * y + yy) z
            = [air; stone] !! get3 (blocks lit_chunk) yy (y * 16 + z) x)).
Proof.
  apply returns_intro; [exact lit_chunk_runs|].
  intros [data [chunk' palette']] [Henc Hdec]%encode_then_decode_Ok.
  refine (roundtrip_voxels (imports := reference_imports)
            (block_order := reference_block_order)
            lit_chunk [air; stone] ("anvil", 1631%Z) data chunk' palette'
            lit_chunk_shape _ _ Henc Hdec).
  - by repeat constructor.
  - intros y long_array Hy Hnot Hlong.
    destruct y as [|y]; [|destruct Hnot; apply lit_chunk_air; lia].
    assert (match encode_long_array (Imports := reference_imports)
                    (unique_inverse (slab_of (blocks lit_chunk) 0)).2 with
            | Ok packed =>
                decode_long_array (Imports := reference_imports) packed 4096
                = Ok (unique_inverse (slab_of (blocks lit_chunk) 0)).2
            | Raise _ => True
            end) as Hcodec by (vm_compute; reflexivity).
    by rewrite Hlong in Hcodec.
Defined.
